(** * Time switch with display: a shallow embedding of the control logic

    The sketch [SpinacPavol_101.ino] and its classes ([Timer/classes.h])
    are embedded as Rocq functions.  The target is an 8-bit AVR built with
    avr-gcc: [int] is 16 bits wide, [unsigned long] is 32 bits wide.

    Hardware is modelled by a [World]: the millisecond counter is an
    oracle answering the successive [millis()] calls, the output pins and
    the OLED are write logs, the EEPROM is a byte-addressed memory.  The
    two loops of the program that do not terminate by themselves are
    [PowerTimer::off] (never left: outcome [PowerOff]) and
    [Display::doFreeze] (left when the clock has advanced: modelled with
    fuel, outcome [Spin] when the fuel is used up).  [Display::doFreeze]
    is declared [bool] and has no [return] statement: leaving its loop
    flows off the end of a value-returning function, which is undefined
    behaviour (outcome [Undefined]). *)

From Stdlib Require Import ZArith Bool Lia String List.
Import ListNotations.
Local Open Scope Z_scope.

(* ================================================================== *)
(** * Machine integers *)
(* ================================================================== *)

Module Mach.

Definition INT_MIN : Z := -32768.
Definition INT_MAX : Z := 32767.

(** Result of an [int] computation.  Signed overflow is undefined in
    C++; avr-gcc's two's complement arithmetic wraps, and so does the
    model.  The theorems below live on ranges without overflow. *)
Definition wrap_int (z : Z) : Z := (z + 32768) mod 65536 - 32768.

(** Result of an [unsigned long] computation (modulo 2^32). *)
Definition wrap_ulong (z : Z) : Z := z mod 4294967296.

Definition wrap_u16 (z : Z) : Z := z mod 65536.
Definition wrap_u8 (z : Z) : Z := z mod 256.

Definition in_int (z : Z) : Prop := INT_MIN <= z <= INT_MAX.

End Mach.
Import Mach.

(* ================================================================== *)
(** * The world outside the program *)
(* ================================================================== *)

(** What [u8g2.sendBuffer()] transmits.  The three screens of the sketch
    are kept apart; the numbers are the arguments given to [snprintf]. *)
Inductive Frame : Type :=
| TimeScreen (minutes seconds glyph : Z)
| TextScreen (text : string)
| IntervalScreen (interval : Z).

Record World : Type := mkWorld {
  clock : nat -> Z;        (* milliseconds since reset at the k-th millis() call *)
  reads : nat;             (* number of millis() calls made so far *)
  gpio : list (Z * bool);  (* digitalWrite(pin, level) log, newest first *)
  oled : list Frame;       (* frames sent to the display, newest first *)
  EEPROM : Z -> Z;         (* EEPROM cells *)
  wdr : nat                (* watchdog resets executed *)
}.

Definition set_reads (n : nat) (w : World) : World :=
  mkWorld (clock w) n (gpio w) (oled w) (EEPROM w) (wdr w).
Definition set_gpio (g : list (Z * bool)) (w : World) : World :=
  mkWorld (clock w) (reads w) g (oled w) (EEPROM w) (wdr w).
Definition set_oled (o : list Frame) (w : World) : World :=
  mkWorld (clock w) (reads w) (gpio w) o (EEPROM w) (wdr w).
Definition set_EEPROM (e : Z -> Z) (w : World) : World :=
  mkWorld (clock w) (reads w) (gpio w) (oled w) e (wdr w).
Definition set_wdr (n : nat) (w : World) : World :=
  mkWorld (clock w) (reads w) (gpio w) (oled w) (EEPROM w) n.

(** Level last written to [pin], if any. *)
Fixpoint pin_level (pin : Z) (log : list (Z * bool)) : option bool :=
  match log with
  | [] => None
  | (p, v) :: rest => if p =? pin then Some v else pin_level pin rest
  end.

Definition HIGH : bool := true.
Definition LOW : bool := false.

(* ================================================================== *)
(** * Computations *)
(* ================================================================== *)

Inductive Outcome (A : Type) : Type :=
| Ret (a : A) (w : World)   (* returned [a] *)
| PowerOff (w : World)      (* control is inside PowerTimer::off() for good *)
| Spin (w : World)          (* a fuelled loop is still running *)
| Undefined (w : World).    (* undefined behaviour is reached in [w]: the
                               language says nothing about what follows *)
Arguments Ret {A} a w.
Arguments PowerOff {A} w.
Arguments Spin {A} w.
Arguments Undefined {A} w.

Definition M (A : Type) : Type := World -> Outcome A.

Definition ret {A} (a : A) : M A := fun w => Ret a w.

Definition bind {A B} (c : M A) (k : A -> M B) : M B :=
  fun w =>
    match c w with
    | Ret a w' => k a w'
    | PowerOff w' => PowerOff w'
    | Spin w' => Spin w'
    | Undefined w' => Undefined w'
    end.

Notation "x <- c ;; k" := (bind c (fun x => k))
  (at level 61, c at next level, right associativity).
Notation "c ;;; k" := (bind c (fun _ => k))
  (at level 61, right associativity).

(** [millis()]: the next answer of the clock, as an [unsigned long]. *)
Definition millis : M Z :=
  fun w => Ret (wrap_ulong (clock w (reads w))) (set_reads (S (reads w)) w).

Definition digitalWrite (pin : Z) (level : bool) : M unit :=
  fun w => Ret tt (set_gpio ((pin, level) :: gpio w) w).

Definition sendBuffer (f : Frame) : M unit :=
  fun w => Ret tt (set_oled (f :: oled w) w).

(** [__asm__ __volatile__("wdr")] *)
Definition feedWatchdog : M unit :=
  fun w => Ret tt (set_wdr (S (wdr w)) w).

(** [delay_ds(ds)]: [ds] times [delay(100)] and a watchdog reset.  The
    delay itself only lets time pass, which the clock oracle covers. *)
Fixpoint delay_ds (ds : nat) : M unit :=
  match ds with
  | O => ret tt
  | S n => feedWatchdog ;;; delay_ds n
  end.

(* ================================================================== *)
(** * class SettingsArray<T, SIZE> *)
(* ================================================================== *)

Record SettingsArray (T : Type) (SIZE : Z) : Type := mkSettings {
  data : list T;
  index : Z
}.
Arguments mkSettings {T SIZE} data index.
Arguments data {T SIZE} s.
Arguments index {T SIZE} s.

(** [a[i] = v] on the backing array, for an index inside it.  The
    source does not check the index: outside the array the write is
    undefined behaviour (it lands on whatever lies behind the array), and
    the list left as it is here says nothing about the source then.
    Every property of a written store below assumes a valid index. *)
Fixpoint list_set {T} (n : nat) (v : T) (l : list T) : list T :=
  match l, n with
  | [], _ => []
  | _ :: t, O => v :: t
  | h :: t, S n' => h :: list_set n' v t
  end.

Module Settings.
Section SettingsArray.
Context {T : Type} {SIZE : Z}.

Definition currentIndex (s : SettingsArray T SIZE) : Z := index s.

Definition setIndex (i : Z) (s : SettingsArray T SIZE)
  : bool * SettingsArray T SIZE :=
  if (i <? 0) || (i >=? SIZE) then (false, s)
  else (true, mkSettings (data s) i).

(** [data[index]]; [dflt] stands for the undefined read outside. *)
Definition current (dflt : T) (s : SettingsArray T SIZE) : T :=
  nth (Z.to_nat (index s)) (data s) dflt.

Definition setCurrent (v : T) (s : SettingsArray T SIZE)
  : SettingsArray T SIZE :=
  mkSettings (list_set (Z.to_nat (index s)) v (data s)) (index s).

Definition next (cyclic : bool) (s : SettingsArray T SIZE)
  : bool * SettingsArray T SIZE :=
  if wrap_int (index s + 1) >=? SIZE then
    if cyclic then (true, mkSettings (data s) 0)
    else (false, s)
  else (true, mkSettings (data s) (wrap_int (index s + 1))).

Definition prev (cyclic : bool) (s : SettingsArray T SIZE)
  : bool * SettingsArray T SIZE :=
  if wrap_int (index s - 1) <? 0 then
    if cyclic then (true, mkSettings (data s) (wrap_int (SIZE - 1)))
    else (false, s)
  else (true, mkSettings (data s) (wrap_int (index s - 1))).

(** [operator[]], read and write. *)
Definition get (dflt : T) (i : Z) (s : SettingsArray T SIZE) : T :=
  nth (Z.to_nat i) (data s) dflt.

Definition set (i : Z) (v : T) (s : SettingsArray T SIZE)
  : SettingsArray T SIZE :=
  mkSettings (list_set (Z.to_nat i) v (data s)) (index s).

End SettingsArray.
End Settings.

(* ================================================================== *)
(** * class PowerTimer *)
(* ================================================================== *)

Module PowerTimer.

Record t : Type := mk {
  pin : Z;          (* I/O pin *)
  logic : bool;     (* true: ON = HIGH, OFF = LOW *)
  time : Z;         (* countdown timer [s], an int *)
  timer : Z;        (* auxiliary timer, an unsigned long *)
  freeze_time : Z   (* countdown freeze timer, an int *)
}.

(** The constructor leaves [freeze_time] as it finds it ([mem] is what
    the storage holds; zero for an object of static storage). *)
Definition make (pin : Z) (logic : bool) (mem : Z) : M t :=
  digitalWrite pin (if logic then LOW else HIGH) ;;;
  ret (mk pin logic 0 0 mem).

Definition start (time' : Z) (p : t) : M t :=
  m <- millis ;;
  digitalWrite (pin p) (if logic p then HIGH else LOW) ;;;
  ret (mk (pin p) (logic p) time' m (freeze_time p)).

(** One pass of the body of [while(1)] in [off()]. *)
Definition off_pass (p : t) (w : World) : World :=
  set_wdr (S (wdr w))
    (set_gpio ((pin p, if logic p then LOW else HIGH) :: gpio w) w).

(** The world after [n] further passes of that loop. *)
Definition off_loop (p : t) (n : nat) (w : World) : World :=
  Nat.iter n (off_pass p) w.

(** [off()] does not return: the outcome shows the world after the
    first pass of its loop, which then goes on as [off_loop]. *)
Definition off {A} (p : t) : M A :=
  fun w => PowerOff (off_pass p w).

Definition getTime (p : t) : Z := time p.

Definition freeze (time' : Z) (p : t) : t :=
  mk (pin p) (logic p) (time p) (timer p) time'.

Definition update (p : t) : M t :=
  if time p <=? 0 then off p
  else
    m <- millis ;;
    if wrap_ulong (m - timer p) >=? 1000 then
      m' <- millis ;;
      if freeze_time p >? 0
      then ret (mk (pin p) (logic p) (time p) m' (wrap_int (freeze_time p - 1)))
      else ret (mk (pin p) (logic p) (wrap_int (time p - 1)) m' (freeze_time p))
    else ret p.

(** The relay is driven to its ON level. *)
Definition energized (p : t) (w : World) : Prop :=
  pin_level (pin p) (gpio w) = Some (if logic p then HIGH else LOW).

Definition de_energized (p : t) (w : World) : Prop :=
  pin_level (pin p) (gpio w) = Some (if logic p then LOW else HIGH).

(** [n] calls of [update()] in a row. *)
Fixpoint updates (n : nat) (p : t) : M t :=
  match n with
  | O => ret p
  | S n' => p' <- update p ;; updates n' p'
  end.

End PowerTimer.

(* ================================================================== *)
(** * class Led *)
(* ================================================================== *)

Inductive LedState : Type := LedOff | LedOn | LedBlink.

Module Led.

Record t : Type := mk {
  pin : Z;
  onState : bool;
  state : LedState;
  isShining : bool;
  blinkInterval : Z;
  timer : Z
}.

Definition make (pin : Z) (onState initialState : bool) : M t :=
  digitalWrite pin initialState ;;;
  let shining := Bool.eqb onState initialState in
  ret (mk pin onState (if shining then LedOn else LedOff) shining 0 0).

Definition on (l : t) : M t :=
  digitalWrite (pin l) (onState l) ;;;
  ret (mk (pin l) (onState l) LedOn true (blinkInterval l) (timer l)).

Definition off (l : t) : M t :=
  digitalWrite (pin l) (if Bool.eqb (onState l) HIGH then LOW else HIGH) ;;;
  ret (mk (pin l) (onState l) LedOff false (blinkInterval l) (timer l)).

Definition set_state (st : LedState) (l : t) : t :=
  mk (pin l) (onState l) st (isShining l) (blinkInterval l) (timer l).

Definition blink (interval : Z) (l : t) : M t :=
  m <- millis ;;
  l' <- on (mk (pin l) (onState l) (state l) (isShining l) interval m) ;;
  ret (set_state LedBlink l').

Definition update (l : t) : M t :=
  match state l with
  | LedBlink =>
      m <- millis ;;
      if wrap_ulong (m - timer l) >? blinkInterval l then
        m' <- millis ;;
        let l1 := mk (pin l) (onState l) (state l) (isShining l)
                     (blinkInterval l) m' in
        l2 <- (if isShining l1 then off l1 else on l1) ;;
        ret (set_state LedBlink l2)
      else ret l
  | _ => ret l
  end.

End Led.

(* ================================================================== *)
(** * class Display *)
(* ================================================================== *)

Definition DISPLAY_UPDATE_TIME : Z := 200.

(** What the three callbacks registered at construction answer when the
    display asks (they read the globals [pt], [presetTimes] and
    [intervals], which no method of the display changes). *)
Record Callbacks : Type := mkCallbacks {
  time_callback : Z;
  index_callback : Z;
  interval_callback : Z
}.

Module Display.

Record t : Type := mk {
  tempTime : Z;   (* an int *)
  timer : Z;      (* update timer *)
  timerT : Z      (* temporary timer *)
}.

(** The constructor sets [timerT]; [tempTime] has its default member
    initialiser; [timer] keeps what the storage holds. *)
Definition make (mem : Z) : t := mk 0 mem 0.

(** The frame shows ["%02d:%02d"] of [time / 60] and [time % 60] and the
    glyph [uint16_t(index + 1) + 0x277F]. *)
Definition printTimeScreen (cb : Callbacks) (d : t) : M t :=
  m <- millis ;;
  let time := time_callback cb in
  let glyph := wrap_u16 (wrap_u16 (index_callback cb + 1) + 0x277F) in
  sendBuffer (TimeScreen (Z.quot time 60) (Z.rem time 60) glyph) ;;;
  ret (mk (tempTime d) m (timerT d)).

Definition printText (text : string) (d : t) : M t :=
  sendBuffer (TextScreen text) ;;;
  ret d.

Definition printInterval (cb : Callbacks) (d : t) : M t :=
  sendBuffer (IntervalScreen (interval_callback cb)) ;;;
  ret d.

Definition freeze (freezeTime : Z) (d : t) : M t :=
  m <- millis ;;
  ret (mk (wrap_int freezeTime) (timer d) m).

Definition update (cb : Callbacks) (d : t) : M t :=
  m <- millis ;;
  if wrap_ulong (m - timer d) <? DISPLAY_UPDATE_TIME then ret d
  else
    if tempTime d =? 0 then printTimeScreen cb d
    else
      m' <- millis ;;
      if wrap_ulong (m' - timerT d) >? wrap_ulong (tempTime d) then
        d' <- printTimeScreen cb (mk 0 (timer d) (timerT d)) ;;
        printTimeScreen cb d'
      else ret d.

(** [bool doFreeze() { while(tempTime) { feedWatchdog(); update(); } }]
    with at most [fuel] passes.  The body has no [return]: when
    [tempTime] is found zero, control flows off the end of a function
    declared [bool], and the behaviour is undefined from there on.  The
    function has no defined return, so no outcome of it is [Ret]. *)
Fixpoint doFreeze (fuel : nat) (cb : Callbacks) (d : t) : M t :=
  if tempTime d =? 0 then fun w => Undefined w
  else
    match fuel with
    | O => fun w => Spin w
    | S fuel' =>
        feedWatchdog ;;;
        d' <- update cb d ;;
        doFreeze fuel' cb d'
    end.

End Display.

(* ================================================================== *)
(** * EEPROM and its checksum *)
(* ================================================================== *)

Definition crc_table : list Z :=
  [ 0x00000000; 0x1db71064; 0x3b6e20c8; 0x26d930ac;
    0x76dc4190; 0x6b6b51f4; 0x4db26158; 0x5005713c;
    0xedb88320; 0xf00f9344; 0xd6d6a3e8; 0xcb61b38c;
    0x9b64c2b0; 0x86d3d2d4; 0xa00ae278; 0xbdbdf21c ].

(** [EEPROM[a]] read as a [uint8_t]. *)
Definition EEPROM_read (e : Z -> Z) (a : Z) : Z := wrap_u8 (e a).

Definition EEPROM_write (a v : Z) (e : Z -> Z) : Z -> Z :=
  fun x => if x =? a then wrap_u8 v else e x.

(** One pass of the body of the [for] loop of [crcCompute]. *)
Definition crc_step (crc byte : Z) : Z :=
  let crc1 :=
    wrap_ulong (Z.lxor (nth (Z.to_nat (Z.land (Z.lxor crc byte) 0x0f)) crc_table 0)
                       (Z.shiftr crc 4)) in
  let crc2 :=
    wrap_ulong (Z.lxor (nth (Z.to_nat (Z.land (Z.lxor crc1 (Z.shiftr byte 4)) 0x0f))
                            crc_table 0)
                       (Z.shiftr crc1 4)) in
  wrap_ulong (Z.lnot crc2).

(** The loop from [index] on, [n] passes to go. *)
Fixpoint crc_loop (e : Z -> Z) (n : nat) (index crc : Z) : Z :=
  match n with
  | O => crc
  | S n' => crc_loop e n' (index + 1) (crc_step crc (EEPROM_read e index))
  end.

Definition crcCompute (length : Z) : M Z :=
  fun w => Ret (crc_loop (EEPROM w) (Z.to_nat length) 0 (wrap_ulong (Z.lnot 0))) w.

(** Object representations (little endian). *)
Definition int_bytes (z : Z) : list Z :=
  [ wrap_u8 (wrap_u16 z); wrap_u8 (wrap_u16 z / 256) ].

Definition ulong_bytes (z : Z) : list Z :=
  [ wrap_u8 z; wrap_u8 (z / 256); wrap_u8 (z / 65536); wrap_u8 (z / 16777216) ].

Fixpoint ints_of_bytes (n : nat) (bs : list Z) : list Z :=
  match n, bs with
  | S n', b0 :: b1 :: rest => wrap_int (b0 + 256 * b1) :: ints_of_bytes n' rest
  | _, _ => []
  end.

Definition ulong_of_bytes (bs : list Z) : Z :=
  nth 0 bs 0 + 256 * nth 1 bs 0 + 65536 * nth 2 bs 0 + 16777216 * nth 3 bs 0.

(** [SettingsArray<int, SIZE>] in memory: the array, then the index. *)
Definition settings_bytes {SIZE} (s : SettingsArray Z SIZE) : list Z :=
  flat_map int_bytes (data s) ++ int_bytes (index s).

Definition settings_of_bytes {SIZE} (bs : list Z) : SettingsArray Z SIZE :=
  mkSettings (ints_of_bytes (Z.to_nat SIZE) bs)
             (nth 0 (ints_of_bytes 1 (skipn (2 * Z.to_nat SIZE) bs)) 0).

(** [sizeof(SettingsArray<int, SIZE>)]: [SIZE] two-byte ints and the
    two-byte index, without padding (AVR aligns to one byte). *)
Definition sizeof_settings (SIZE : Z) : Z := 2 * SIZE + 2.

Fixpoint write_bytes (a : Z) (bs : list Z) (e : Z -> Z) : Z -> Z :=
  match bs with
  | [] => e
  | b :: rest => write_bytes (a + 1) rest (EEPROM_write a b e)
  end.

Fixpoint read_bytes (e : Z -> Z) (a : Z) (n : nat) : list Z :=
  match n with
  | O => []
  | S n' => EEPROM_read e a :: read_bytes e (a + 1) n'
  end.

(** [EEPROM.put(a, object)] and [EEPROM.get(a, object)] on the bytes of
    the object. *)
Definition EEPROM_put (a : Z) (bs : list Z) : M unit :=
  fun w => Ret tt (set_EEPROM (write_bytes a bs (EEPROM w)) w).

Definition EEPROM_get (a : Z) (n : Z) : M (list Z) :=
  fun w => Ret (read_bytes (EEPROM w) a (Z.to_nat n)) w.

(* ================================================================== *)
(** * The sketch: globals, setup() and loop() *)
(* ================================================================== *)

Definition CLOCK_FREEZE_TIME : Z := 3.
Definition SECURE_START_TIME : Z := 2000.
Definition ITEMS_OF_PRESETTIMES : Z := 4.
Definition ITEMS_OF_INTERVALS : Z := 2.

(** The globals of the sketch that the program itself owns. *)
Record Sys : Type := mkSys {
  presetTimes : SettingsArray Z ITEMS_OF_PRESETTIMES;
  intervals : SettingsArray Z ITEMS_OF_INTERVALS;
  led1 : Led.t;
  pt : PowerTimer.t;
  display : Display.t;
  timer : Z;
  button_ready : bool
}.

Definition set_presetTimes (x : SettingsArray Z ITEMS_OF_PRESETTIMES) (s : Sys) : Sys :=
  mkSys x (intervals s) (led1 s) (pt s) (display s) (timer s) (button_ready s).
Definition set_intervals (x : SettingsArray Z ITEMS_OF_INTERVALS) (s : Sys) : Sys :=
  mkSys (presetTimes s) x (led1 s) (pt s) (display s) (timer s) (button_ready s).
Definition set_led1 (x : Led.t) (s : Sys) : Sys :=
  mkSys (presetTimes s) (intervals s) x (pt s) (display s) (timer s) (button_ready s).
Definition set_pt (x : PowerTimer.t) (s : Sys) : Sys :=
  mkSys (presetTimes s) (intervals s) (led1 s) x (display s) (timer s) (button_ready s).
Definition set_display (x : Display.t) (s : Sys) : Sys :=
  mkSys (presetTimes s) (intervals s) (led1 s) (pt s) x (timer s) (button_ready s).
Definition set_timer (x : Z) (s : Sys) : Sys :=
  mkSys (presetTimes s) (intervals s) (led1 s) (pt s) (display s) x (button_ready s).
Definition set_button_ready (x : bool) (s : Sys) : Sys :=
  mkSys (presetTimes s) (intervals s) (led1 s) (pt s) (display s) (timer s) x.

(** [getTimeCB], [getIndexCB], [getIntervalCB] *)
Definition callbacks (s : Sys) : Callbacks :=
  mkCallbacks (PowerTimer.getTime (pt s))
              (Settings.currentIndex (presetTimes s))
              (Settings.current 0 (intervals s)).

(** What the four [RealButton] objects (a library outside the sketch)
    answer at each place where one pass of [loop()] asks them. *)
Record Buttons : Type := mkButtons {
  on_pressed : bool;        (* buttonOn.pressed(), arming the latch *)
  on_onClick : bool;        (* buttonOn.onClick() *)
  on_onLong : bool;         (* buttonOn.onLong() *)
  plus_onPress : bool;      (* buttonPlus.onPress() *)
  minus_onPress : bool;     (* buttonMinus.onPress() *)
  mode_onClick : bool;      (* buttonMode.onClick() *)
  on_pressed_mode : bool;   (* buttonOn.pressed(), beside the mode click *)
  mode_onLong : bool        (* buttonMode.onLong() *)
}.

Section Sketch.
Variables PIN_SUPPLY PIN_LED1 : Z.

(** The globals after static initialisation and the constructors of
    [led1], [pt] and [display], in the order of their definitions. *)
Definition boot : M Sys :=
  l <- Led.make PIN_LED1 HIGH LOW ;;
  p <- PowerTimer.make PIN_SUPPLY true 0 ;;
  ret (mkSys (mkSettings [0; 0; 0; 0] 0) (mkSettings [0; 0] 0)
             l p (Display.make 0) 0 false).

Definition saveToEEPROM (s : Sys) : M Sys :=
  let presets := Settings.setCurrent (PowerTimer.getTime (pt s)) (presetTimes s) in
  EEPROM_put 0 (settings_bytes presets) ;;;
  crc <- crcCompute (sizeof_settings ITEMS_OF_PRESETTIMES) ;;
  EEPROM_put (sizeof_settings ITEMS_OF_PRESETTIMES) (ulong_bytes crc) ;;;
  ret (set_presetTimes presets s).

Definition loadFromEEPROM (s : Sys) : M (bool * Sys) :=
  image <- EEPROM_get 0 (sizeof_settings ITEMS_OF_PRESETTIMES) ;;
  saved <- EEPROM_get (sizeof_settings ITEMS_OF_PRESETTIMES) 4 ;;
  crc <- crcCompute (sizeof_settings ITEMS_OF_PRESETTIMES) ;;
  ret (ulong_of_bytes saved =? crc,
       set_presetTimes (settings_of_bytes image) s).

(** The body of [if (!loadFromEEPROM()) { ... }] in [setup()]. *)
Definition factory_reset (fuel : nat) (s : Sys) : M Sys :=
  let p0 := Settings.set 0 60 (presetTimes s) in
  let p1 := Settings.set 1 300 p0 in
  let p2 := Settings.set 2 600 p1 in
  let p3 := Settings.set 3 1800 p2 in
  let s1 := set_presetTimes (snd (Settings.setIndex 0 p3)) s in
  d1 <- Display.printText "Er EPR" (display s1) ;;
  d2 <- Display.freeze 2000 d1 ;;
  d3 <- Display.doFreeze fuel (callbacks s1) d2 ;;
  ret (set_display d3 s1).

(** [setup()].  The watchdog period, [pinMode], [u8g2.begin()] and the
    calls into the button library touch nothing that is modelled. *)
Definition setup (fuel : nat) (s : Sys) : M Sys :=
  digitalWrite PIN_SUPPLY LOW ;;;
  m <- millis ;;
  let s := set_timer m s in
  r <- loadFromEEPROM s ;;
  s <- (if fst r then ret (snd r) else factory_reset fuel (snd r)) ;;
  let i0 := Settings.set 0 1 (intervals s) in
  let s := set_intervals (Settings.set 1 5 i0) s in
  l <- Led.blink 200 (led1 s) ;;
  let s := set_led1 l s in
  m' <- millis ;;
  (if wrap_ulong (m' - timer s) <? SECURE_START_TIME then delay_ds 1 else ret tt) ;;;
  p <- PowerTimer.start (Settings.current 0 (presetTimes s)) (pt s) ;;
  ret (set_pt (PowerTimer.freeze 5 p) s).

(** The branches of the dispatch chain of [loop()]. *)
Definition next_preset (s : Sys) : M Sys :=
  let s := set_button_ready false s in
  let s := set_presetTimes (snd (Settings.next true (presetTimes s))) s in
  p <- PowerTimer.start (Settings.current 0 (presetTimes s)) (pt s) ;;
  let s := set_pt (PowerTimer.freeze 5 p) s in
  d <- Display.printTimeScreen (callbacks s) (display s) ;;
  ret (set_display d s).

Definition relay_off (s : Sys) : M Sys :=
  d <- Display.printText "OFF" (display s) ;;
  d' <- Display.freeze 2000 d ;;
  PowerTimer.off (pt s).

Definition time_plus (s : Sys) : M Sys :=
  let interval := wrap_int (Settings.current 0 (intervals s) * 60) in
  let t := PowerTimer.getTime (pt s) in
  let t := wrap_int (wrap_int (Z.quot t interval + 1) * interval) in
  p <- (if t <? 90 * 60 then PowerTimer.start t (pt s) else ret (pt s)) ;;
  let s := set_pt p s in
  d <- Display.printTimeScreen (callbacks s) (display s) ;;
  ret (set_pt (PowerTimer.freeze 5 p) (set_display d s)).

Definition time_minus (s : Sys) : M Sys :=
  let interval := wrap_int (Settings.current 0 (intervals s) * 60) in
  let t := PowerTimer.getTime (pt s) in
  let t := wrap_int (Z.quot (wrap_int (t - 1)) interval * interval) in
  p <- (if t >? 0 then PowerTimer.start t (pt s) else ret (pt s)) ;;
  let s := set_pt p s in
  d <- Display.printTimeScreen (callbacks s) (display s) ;;
  ret (set_pt (PowerTimer.freeze 5 p) (set_display d s)).

Definition change_interval (s : Sys) : M Sys :=
  let s := set_intervals (snd (Settings.next true (intervals s))) s in
  d <- Display.freeze 2000 (display s) ;;
  d' <- Display.printInterval (callbacks s) d ;;
  ret (set_pt (PowerTimer.freeze 5 (pt s)) (set_display d' s)).

Definition save_settings (s : Sys) : M Sys :=
  s <- saveToEEPROM s ;;
  d <- Display.printText "SAVED" (display s) ;;
  ret (set_pt (PowerTimer.freeze 5 (pt s)) (set_display d s)).

(** [if (!buttonOn.pressed() && !button_ready) { button_ready = true;
    buttonOn.start(); }] ([start()] belongs to the button library). *)
Definition arm_latch (b : Buttons) (s : Sys) : Sys :=
  if negb (on_pressed b) && negb (button_ready s)
  then set_button_ready true s
  else s.

(** The [if / else if] chain: the first branch whose guard holds. *)
Definition dispatch (b : Buttons) (s : Sys) : M Sys :=
  if on_onClick b then next_preset s
  else if on_onLong b && button_ready s then relay_off s
  else if plus_onPress b then time_plus s
  else if minus_onPress b then time_minus s
  else if mode_onClick b && negb (on_pressed_mode b) then change_interval s
  else if mode_onLong b then save_settings s
  else ret s.

(** One pass of [loop()]. *)
Definition loop (b : Buttons) (s : Sys) : M Sys :=
  s <- dispatch b (arm_latch b s) ;;
  l <- Led.update (led1 s) ;;
  let s := set_led1 l s in
  p <- PowerTimer.update (pt s) ;;
  let s := set_pt p s in
  d <- Display.update (callbacks s) (display s) ;;
  feedWatchdog ;;;
  ret (set_display d s).

(** The passes of [loop()] that the Arduino core makes one after the
    other, the buttons answering [bs]. *)
Fixpoint run (bs : list Buttons) (s : Sys) : M Sys :=
  match bs with
  | [] => ret s
  | b :: rest => s' <- loop b s ;; run rest s'
  end.

End Sketch.

(** The latch [button_ready] after a pass of [loop()], from the latch
    before it and the answers of the buttons (stated for the proofs;
    [loop_latch] below shows that this is what the code computes). *)
Definition latch_next (ready : bool) (b : Buttons) : bool :=
  if on_onClick b then false else ready || negb (on_pressed b).

Ltac int_range := unfold in_int, INT_MIN, INT_MAX in *; lia.

(** Closed comparisons of numbers, settled by evaluation. *)
Ltac closed := vm_compute; repeat split; first [reflexivity | discriminate].

(* ================================================================== *)
(** * Predicates and helpers for the further properties *)
(* ================================================================== *)

(** The level last written to the LED pin is the one [isShining] tells. *)
Definition led_drives_pin (l : Led.t) (w : World) : Prop :=
  pin_level (Led.pin l) (gpio w)
  = Some (if Led.isShining l then Led.onState l else negb (Led.onState l)).

(** The steady states agree with [isShining]. *)
Definition led_state_agrees (l : Led.t) : Prop :=
  match Led.state l with
  | LedOn => Led.isShining l = true
  | LedOff => Led.isShining l = false
  | LedBlink => True
  end.

(** [n] calls of [Display::update()] in a row. *)
Fixpoint display_updates (n : nat) (cb : Callbacks) (d : Display.t) : M Display.t :=
  match n with
  | O => ret d
  | S n' => d' <- Display.update cb d ;; display_updates n' cb d'
  end.

(** One of the two table steps of [crc_step] (a nibble of the byte). *)
Definition crc_nibble (crc n : Z) : Z :=
  wrap_ulong (Z.lxor (nth (Z.to_nat (Z.land (Z.lxor crc n) 0x0f)) crc_table 0)
                     (Z.shiftr crc 4)).

(** What the sketch relies on between two passes of [loop()]: both
    stores have their arrays and a valid index, the intervals are the
    ones [setup()] wrote, every preset and the remaining time lie in
    [0, 90 min). *)
Definition sketch_invariant (s : Sys) : Prop :=
  length (data (presetTimes s)) = 4%nat
  /\ 0 <= index (presetTimes s) < ITEMS_OF_PRESETTIMES
  /\ Forall (fun x => 0 <= x < 90 * 60) (data (presetTimes s))
  /\ data (intervals s) = [1; 5]
  /\ 0 <= index (intervals s) < ITEMS_OF_INTERVALS
  /\ 0 <= PowerTimer.time (pt s) < 90 * 60.

(** What a returning step of the sketch keeps: the invariant, the
    wiring of the relay and of the LED, and the relay energized if it
    was (the LED being on another pin). *)
Definition pass_keeps (s : Sys) (w : World) (s' : Sys) (w' : World) : Prop :=
  (sketch_invariant s -> sketch_invariant s')
  /\ PowerTimer.pin (pt s') = PowerTimer.pin (pt s)
  /\ PowerTimer.logic (pt s') = PowerTimer.logic (pt s)
  /\ Led.pin (led1 s') = Led.pin (led1 s)
  /\ (Led.pin (led1 s) <> PowerTimer.pin (pt s) ->
      PowerTimer.energized (pt s) w -> PowerTimer.energized (pt s') w').

(** Reading a field of an updated record of globals. *)
Ltac sys_simpl :=
  cbn [presetTimes intervals led1 pt display timer button_ready
       set_pt set_display set_presetTimes set_intervals set_led1 set_timer
       set_button_ready PowerTimer.freeze PowerTimer.pin PowerTimer.logic
       PowerTimer.time PowerTimer.freeze_time PowerTimer.timer].

(* ################################################################## *)
(** * Properties *)
(* ################################################################## *)

(** ** Machine integers *)

Lemma wrap_int_id z : in_int z -> wrap_int z = z.
Proof.
  unfold in_int, wrap_int, INT_MIN, INT_MAX. intros H.
  rewrite Z.mod_small; lia.
Qed.

Lemma wrap_ulong_range z : 0 <= wrap_ulong z < 4294967296.
Proof. unfold wrap_ulong. apply Z.mod_pos_bound. lia. Qed.

Lemma wrap_ulong_id z : 0 <= z < 4294967296 -> wrap_ulong z = z.
Proof. unfold wrap_ulong. intros H. apply Z.mod_small. exact H. Qed.

(** ** SettingsArray: moving the index *)

Section SettingsFacts.
Context {T : Type} {SIZE : Z}.
Implicit Type s : SettingsArray T SIZE.

Lemma settings_eta s : mkSettings (data s) (index s) = s.
Proof. destruct s; reflexivity. Qed.

Lemma next_cyclic s :
  SIZE <= INT_MAX -> 0 <= index s < SIZE ->
  Settings.next true s = (true, mkSettings (data s) ((index s + 1) mod SIZE)).
Proof.
  unfold INT_MAX, Settings.next. intros HS Hi.
  rewrite wrap_int_id by (unfold in_int, INT_MIN, INT_MAX; lia).
  destruct (Z.geb_spec (index s + 1) SIZE) as [Hge | Hlt].
  - replace (index s + 1) with SIZE by lia.
    rewrite Z.mod_same by lia. reflexivity.
  - rewrite Z.mod_small by lia. reflexivity.
Qed.

Lemma prev_cyclic s :
  SIZE <= INT_MAX -> 0 <= index s < SIZE ->
  Settings.prev true s = (true, mkSettings (data s) ((index s - 1) mod SIZE)).
Proof.
  unfold INT_MAX, Settings.prev. intros HS Hi.
  rewrite !wrap_int_id by (unfold in_int, INT_MIN, INT_MAX; lia).
  destruct (Z.ltb_spec (index s - 1) 0) as [Hlt | Hge].
  - replace (index s - 1) with (-1 + 1 * SIZE - SIZE + 0) by lia.
    replace (-1 + 1 * SIZE - SIZE + 0) with (SIZE - 1 + (-1) * SIZE) by lia.
    rewrite Z.mod_add by lia. rewrite Z.mod_small by lia. reflexivity.
  - rewrite Z.mod_small by lia. reflexivity.
Qed.

Lemma next_cyclic_iter s (k : nat) :
  SIZE <= INT_MAX -> 0 <= index s < SIZE ->
  Nat.iter k (fun x => snd (Settings.next true x)) s
  = mkSettings (data s) ((index s + Z.of_nat k) mod SIZE).
Proof.
  intros HS Hi. induction k as [| k IH].
  - simpl. rewrite Z.add_0_r, Z.mod_small by exact Hi. symmetry. apply settings_eta.
  - rewrite Nat.iter_succ, IH.
    rewrite next_cyclic; [| exact HS |].
    + simpl. f_equal. rewrite Zplus_mod_idemp_l. f_equal. lia.
    + simpl. apply Z.mod_pos_bound. lia.
Qed.

Lemma prev_cyclic_iter s (k : nat) :
  SIZE <= INT_MAX -> 0 <= index s < SIZE ->
  Nat.iter k (fun x => snd (Settings.prev true x)) s
  = mkSettings (data s) ((index s - Z.of_nat k) mod SIZE).
Proof.
  intros HS Hi. induction k as [| k IH].
  - simpl. rewrite Z.sub_0_r, Z.mod_small by exact Hi. symmetry. apply settings_eta.
  - rewrite Nat.iter_succ, IH.
    rewrite prev_cyclic; [| exact HS |].
    + simpl. f_equal. rewrite Zminus_mod_idemp_l. f_equal. lia.
    + simpl. apply Z.mod_pos_bound. lia.
Qed.

End SettingsFacts.

(** C5.  For every capacity [SIZE] and every valid starting index:
    [SIZE] cyclic advances in one direction ([next(true)] or
    [prev(true)]) bring the store back to where it started; a non-cyclic
    advance at the boundary of its direction returns [false] and leaves
    the store as it is, and everywhere else it returns [true] and moves
    the index by one. *)
Theorem C5_advance (T : Type) (SIZE : Z) (s : SettingsArray T SIZE) :
  SIZE <= INT_MAX ->
  0 <= index s < SIZE ->
  Nat.iter (Z.to_nat SIZE) (fun x => snd (Settings.next true x)) s = s
  /\ Nat.iter (Z.to_nat SIZE) (fun x => snd (Settings.prev true x)) s = s
  /\ (index s = SIZE - 1 -> Settings.next false s = (false, s))
  /\ (index s < SIZE - 1 ->
      Settings.next false s = (true, mkSettings (data s) (index s + 1)))
  /\ (index s = 0 -> Settings.prev false s = (false, s))
  /\ (0 < index s ->
      Settings.prev false s = (true, mkSettings (data s) (index s - 1))).
Proof.
  intros HS Hi.
  assert (Hint : forall z, -1 <= z <= SIZE -> wrap_int z = z).
  { intros z Hz. apply wrap_int_id. unfold in_int, INT_MIN, INT_MAX in *. lia. }
  repeat split.
  - rewrite next_cyclic_iter by assumption.
    rewrite Z2Nat.id by lia.
    replace (index s + SIZE) with (index s + 1 * SIZE) by lia.
    rewrite Z.mod_add, Z.mod_small by lia. apply settings_eta.
  - rewrite prev_cyclic_iter by assumption.
    rewrite Z2Nat.id by lia.
    replace (index s - SIZE) with (index s + (-1) * SIZE) by lia.
    rewrite Z.mod_add, Z.mod_small by lia. apply settings_eta.
  - intros Hb. unfold Settings.next. rewrite Hint by lia.
    destruct (Z.geb_spec (index s + 1) SIZE); [reflexivity | lia].
  - intros Hb. unfold Settings.next. rewrite Hint by lia.
    destruct (Z.geb_spec (index s + 1) SIZE); [lia | reflexivity].
  - intros Hb. unfold Settings.prev. rewrite Hint by lia.
    destruct (Z.ltb_spec (index s - 1) 0); [reflexivity | lia].
  - intros Hb. unfold Settings.prev. rewrite Hint by lia.
    destruct (Z.ltb_spec (index s - 1) 0); [lia | reflexivity].
Qed.

Lemma C5_advance_witness :
  let s : SettingsArray Z 4 := mkSettings [60; 300; 600; 1800] 3 in
  4 <= INT_MAX
  /\ 0 <= index s < 4
  /\ Nat.iter 4 (fun x => snd (Settings.next true x)) s = s
  /\ Settings.next false s = (false, s)
  /\ Settings.prev false s = (true, mkSettings [60; 300; 600; 1800] 2).
Proof.
  intros s.
  destruct (C5_advance Z 4 s) as (Hn & _ & Hnb & _ & _ & Hp).
  - unfold INT_MAX. lia.
  - simpl. lia.
  - split; [unfold INT_MAX; lia |]. split; [simpl; lia |].
    split; [exact Hn |]. split.
    + apply Hnb. reflexivity.
    + apply Hp. simpl. lia.
Defined.

(** ** PowerTimer: counting down *)

Lemma wrap_ulong_sub a b :
  wrap_ulong (wrap_ulong a - wrap_ulong b) = wrap_ulong (a - b).
Proof. unfold wrap_ulong. symmetry. apply Zminus_mod. Qed.

Lemma off_pass_de_energized p w :
  PowerTimer.de_energized p (PowerTimer.off_pass p w).
Proof.
  unfold PowerTimer.de_energized, PowerTimer.off_pass. simpl.
  rewrite Z.eqb_refl. reflexivity.
Qed.

(** Once inside [off()] the relay is driven to its OFF level at every
    pass of the loop. *)
Lemma off_loop_de_energized p w n :
  PowerTimer.de_energized p (PowerTimer.off_loop p n (PowerTimer.off_pass p w)).
Proof.
  destruct n as [| n]; unfold PowerTimer.off_loop.
  - apply off_pass_de_energized.
  - rewrite Nat.iter_succ. apply off_pass_de_energized.
Qed.

(** [update()] when the time is up. *)
Lemma update_expired p w :
  PowerTimer.time p <= 0 ->
  PowerTimer.update p w = PowerOff (PowerTimer.off_pass p w).
Proof.
  intros H. unfold PowerTimer.update.
  destruct (Z.leb_spec (PowerTimer.time p) 0); [reflexivity | lia].
Qed.

(** [update()] when a second has gone by and no freeze is pending. *)
Lemma update_tick p w :
  0 < PowerTimer.time p <= INT_MAX ->
  PowerTimer.freeze_time p <= 0 ->
  1000 <= wrap_ulong (wrap_ulong (clock w (reads w)) - PowerTimer.timer p) ->
  PowerTimer.update p w
  = Ret (PowerTimer.mk (PowerTimer.pin p) (PowerTimer.logic p)
           (PowerTimer.time p - 1)
           (wrap_ulong (clock w (S (reads w))))
           (PowerTimer.freeze_time p))
        (set_reads (S (S (reads w))) w).
Proof.
  intros Ht Hf He. unfold PowerTimer.update, bind, millis, ret. simpl.
  destruct (Z.leb_spec (PowerTimer.time p) 0); [lia |].
  destruct (Z.geb_spec (wrap_ulong (wrap_ulong (clock w (reads w)) - PowerTimer.timer p)) 1000);
    [| lia].
  destruct (Z.gtb_spec (PowerTimer.freeze_time p) 0); [lia |].
  rewrite wrap_int_id by (unfold in_int, INT_MIN, INT_MAX in *; lia).
  reflexivity.
Qed.

(** [update()] when a second has gone by during a freeze. *)
Lemma update_tick_frozen p w :
  0 < PowerTimer.time p ->
  0 < PowerTimer.freeze_time p <= INT_MAX ->
  1000 <= wrap_ulong (wrap_ulong (clock w (reads w)) - PowerTimer.timer p) ->
  PowerTimer.update p w
  = Ret (PowerTimer.mk (PowerTimer.pin p) (PowerTimer.logic p)
           (PowerTimer.time p)
           (wrap_ulong (clock w (S (reads w))))
           (PowerTimer.freeze_time p - 1))
        (set_reads (S (S (reads w))) w).
Proof.
  intros Ht Hf He. unfold PowerTimer.update, bind, millis, ret. simpl.
  destruct (Z.leb_spec (PowerTimer.time p) 0); [lia |].
  destruct (Z.geb_spec (wrap_ulong (wrap_ulong (clock w (reads w)) - PowerTimer.timer p)) 1000);
    [| lia].
  destruct (Z.gtb_spec (PowerTimer.freeze_time p) 0); [| lia].
  rewrite wrap_int_id by (unfold in_int, INT_MIN, INT_MAX in *; lia).
  reflexivity.
Qed.

(** [n] ticks in a row: each call finds, at its first reading of the
    clock, a second or more gone by since the reading that stamped
    [timer] (the one of [start()] for the first call, the second
    reading of the call before for the others).  Nothing is asked of the
    second reading of a call. *)
Lemma updates_ticks (n : nat) : forall p w j,
  Z.of_nat n <= PowerTimer.time p <= INT_MAX ->
  PowerTimer.freeze_time p <= 0 ->
  reads w = S j ->
  PowerTimer.timer p = wrap_ulong (clock w j) ->
  (forall i, (i < n)%nat ->
     1000 <= wrap_ulong (clock w (S (j + 2 * i)) - clock w (j + 2 * i))) ->
  PowerTimer.updates n p w
  = Ret (PowerTimer.mk (PowerTimer.pin p) (PowerTimer.logic p)
           (PowerTimer.time p - Z.of_nat n)
           (wrap_ulong (clock w (j + 2 * n)))
           (PowerTimer.freeze_time p))
        (set_reads (S (j + 2 * n)) w).
Proof.
  induction n as [| n IH]; intros p w j Ht Hf Hr Htm Hclk.
  - simpl. rewrite Z.sub_0_r, Nat.add_0_r, <- Htm, <- Hr.
    destruct p, w; reflexivity.
  - cbn [PowerTimer.updates]. unfold bind.
    rewrite update_tick; [| lia | lia |].
    + rewrite (IH _ _ (S (S j)));
        cbn [PowerTimer.pin PowerTimer.logic PowerTimer.time PowerTimer.timer
             PowerTimer.freeze_time set_reads clock reads gpio oled EEPROM wdr].
      * replace (j + 2 * S n)%nat with (S (S j) + 2 * n)%nat by lia.
        replace (PowerTimer.time p - Z.of_nat (S n))
          with (PowerTimer.time p - 1 - Z.of_nat n) by lia.
        reflexivity.
      * lia.
      * exact Hf.
      * rewrite Hr. reflexivity.
      * rewrite Hr. reflexivity.
      * intros i Hi. specialize (Hclk (S i) ltac:(lia)).
        replace (S (S j) + 2 * i)%nat with (j + 2 * S i)%nat by lia.
        exact Hclk.
    + rewrite Hr, Htm, wrap_ulong_sub. specialize (Hclk 0%nat ltac:(lia)).
      rewrite Nat.add_0_r in Hclk. exact Hclk.
Qed.

Lemma start_eq T p w :
  PowerTimer.start T p w
  = Ret (PowerTimer.mk (PowerTimer.pin p) (PowerTimer.logic p) T
           (wrap_ulong (clock w (reads w))) (PowerTimer.freeze_time p))
        (set_gpio ((PowerTimer.pin p, if PowerTimer.logic p then HIGH else LOW)
                     :: gpio w)
           (set_reads (S (reads w)) w)).
Proof. reflexivity. Qed.

(** C1.  For every [T > 0]: after [start(T)] with no freeze pending, [T]
    calls of [update()] that each see a one-second tick (at its first
    reading of the clock a call finds 1000 ms or more gone by since the
    reading that stamped the tick reference: the one of [start()] for
    the first call, the second reading of the call before for the
    others; the second reading of a call may be anything, the same
    instant included) return with the remaining time at 0, the relay
    energized all the way and the remaining time one less after each of
    them; the next [update()] enters [off()]: it does not return,
    nothing after it runs, and every pass of the loop of [off()] drives
    the relay to its OFF level. *)
Theorem C1_countdown_to_off (p : PowerTimer.t) (T : Z) (w : World) :
  0 < T <= INT_MAX ->
  PowerTimer.freeze_time p <= 0 ->
  (forall i, (i < Z.to_nat T)%nat ->
     1000 <= wrap_ulong (clock w (S (reads w + 2 * i))
                         - clock w (reads w + 2 * i))) ->
  exists p1 w1 p2 w2 w3,
    PowerTimer.start T p w = Ret p1 w1
    /\ (forall n, (n <= Z.to_nat T)%nat ->
        exists pn wn,
          PowerTimer.updates n p1 w1 = Ret pn wn
          /\ PowerTimer.time pn = T - Z.of_nat n
          /\ PowerTimer.energized pn wn)
    /\ PowerTimer.updates (Z.to_nat T) p1 w1 = Ret p2 w2
    /\ PowerTimer.time p2 = 0
    /\ PowerTimer.pin p2 = PowerTimer.pin p
    /\ PowerTimer.logic p2 = PowerTimer.logic p
    /\ PowerTimer.update p2 w2 = PowerOff w3
    /\ (forall B (k : PowerTimer.t -> M B),
        (x <- PowerTimer.update p2 ;; k x) w2 = PowerOff w3)
    /\ (forall n, PowerTimer.de_energized p2 (PowerTimer.off_loop p2 n w3)).
Proof.
  intros HT Hf Hclk.
  rewrite start_eq.
  set (p1 := PowerTimer.mk _ _ T _ _).
  set (w1 := set_gpio _ _).
  assert (Hrun : forall n, (n <= Z.to_nat T)%nat ->
            PowerTimer.updates n p1 w1
            = Ret (PowerTimer.mk (PowerTimer.pin p) (PowerTimer.logic p)
                     (T - Z.of_nat n)
                     (wrap_ulong (clock w (reads w + 2 * n)))
                     (PowerTimer.freeze_time p))
                  (set_reads (S (reads w + 2 * n)) w1)).
  { intros n Hn.
    apply (updates_ticks n p1 w1 (reads w)); subst p1 w1; simpl;
      try reflexivity; try assumption; try lia.
    intros i Hi. apply Hclk. lia. }
  eexists p1, w1, _, _, _.
  split; [reflexivity |].
  split.
  { intros n Hn. eexists _, _. split; [apply Hrun; exact Hn |].
    split; [reflexivity |].
    unfold PowerTimer.energized. subst w1. simpl.
    rewrite Z.eqb_refl. reflexivity. }
  split; [apply Hrun; lia |].
  split; [simpl; lia |].
  split; [reflexivity |]. split; [reflexivity |].
  assert (Hoff : forall q v, PowerTimer.time q <= 0 ->
            PowerTimer.update q v = PowerOff (PowerTimer.off_pass q v))
    by (intros; apply update_expired; assumption).
  split; [apply Hoff; simpl; lia |].
  split.
  - intros B k. unfold bind. rewrite Hoff by (simpl; lia). reflexivity.
  - intros n. apply off_loop_de_energized.
Qed.

Lemma C1_countdown_to_off_witness :
  let p := PowerTimer.mk 5 true 0 0 0 in
  let w := mkWorld (fun k => 1000 * Z.of_nat (Nat.div2 (S k))) 0 [] []
                   (fun _ => 0) 0 in
  0 < 3 <= INT_MAX
  /\ PowerTimer.freeze_time p <= 0
  /\ exists w3,
       (p1 <- PowerTimer.start 3 p ;;
        p2 <- PowerTimer.updates 3 p1 ;;
        PowerTimer.update p2) w = PowerOff w3
       /\ pin_level 5 (gpio w3) = Some LOW.
Proof.
  intros p w.
  split; [unfold INT_MAX; lia |]. split; [simpl; lia |].
  destruct (C1_countdown_to_off p 3 w)
    as (p1 & w1 & p2 & w2 & w3 & Hs & _ & Hu & _ & Hpin & Hlogic & Ho & _ & Hd).
  - unfold INT_MAX; lia.
  - simpl; lia.
  - intros i Hi. change (Z.to_nat 3) with 3%nat in Hi.
    destruct i as [| [| [| i]]]; [closed | closed | closed | lia].
  - exists w3. split.
    + unfold bind. rewrite Hs. change (Z.to_nat 3) with 3%nat in Hu.
      rewrite Hu. exact Ho.
    + specialize (Hd 0%nat). unfold PowerTimer.de_energized in Hd.
      rewrite Hpin, Hlogic in Hd. exact Hd.
Defined.

(** ** PowerTimer: start() and the freeze counter *)

(** C2 as amended.  For every timer state and every [s]: after
    [start(s)] the remaining time is [s], the relay is energized, the
    tick reference is the clock reading just taken, and the freeze
    counter is what it was before: [start()] does not touch it.  At the
    first tick after that the remaining time goes down by one when the
    freeze counter was not positive, and the freeze counter goes down
    instead when it was. *)
Theorem C2_start_keeps_freeze (p : PowerTimer.t) (s : Z) (w : World) :
  exists p' w',
    PowerTimer.start s p w = Ret p' w'
    /\ PowerTimer.time p' = s
    /\ PowerTimer.freeze_time p' = PowerTimer.freeze_time p
    /\ PowerTimer.timer p' = wrap_ulong (clock w (reads w))
    /\ PowerTimer.energized p' w'
    /\ forall v,
         0 < s <= INT_MAX ->
         1000 <= wrap_ulong (wrap_ulong (clock v (reads v)) - PowerTimer.timer p') ->
         exists p'' v',
           PowerTimer.update p' v = Ret p'' v'
           /\ (PowerTimer.freeze_time p <= 0 ->
               PowerTimer.time p'' = s - 1
               /\ PowerTimer.freeze_time p'' = PowerTimer.freeze_time p)
           /\ (0 < PowerTimer.freeze_time p <= INT_MAX ->
               PowerTimer.time p'' = s
               /\ PowerTimer.freeze_time p'' = PowerTimer.freeze_time p - 1).
Proof.
  rewrite start_eq. eexists _, _. split; [reflexivity |].
  repeat (split; [reflexivity |]).
  split.
  { unfold PowerTimer.energized. simpl. rewrite Z.eqb_refl. reflexivity. }
  intros v Hs He.
  destruct (Z_le_gt_dec (PowerTimer.freeze_time p) 0) as [Hf | Hf].
  - rewrite update_tick by (simpl; first [exact He | lia]).
    eexists _, _. split; [reflexivity |]. simpl. split; [auto | lia].
  - destruct (Z_le_gt_dec (PowerTimer.freeze_time p) INT_MAX) as [Hm | Hm].
    + rewrite update_tick_frozen by (simpl; first [exact He | lia]).
      eexists _, _. split; [reflexivity |]. simpl. split; [lia | auto].
    + unfold PowerTimer.update, bind, millis, ret. simpl.
      destruct (Z.leb_spec s 0); [lia |].
      match goal with |- context [if ?c then _ else _] => destruct c end;
        [| eexists _, _; split; [reflexivity | split; lia]].
      destruct (Z.gtb_spec (PowerTimer.freeze_time p) 0); [| lia].
      eexists _, _. split; [reflexivity | split; lia].
Qed.

Lemma C2_start_keeps_freeze_witness :
  let p := PowerTimer.mk 5 true 40 0 5 in
  let w := mkWorld (fun k => 1000 * Z.of_nat k) 0 [] [] (fun _ => 0) 0 in
  0 < 10 <= INT_MAX
  /\ exists p' w' p'' w'',
       PowerTimer.start 10 p w = Ret p' w'
       /\ PowerTimer.update p' w' = Ret p'' w''
       /\ PowerTimer.time p'' = 10
       /\ PowerTimer.freeze_time p'' = 4.
Proof.
  intros p w. split; [unfold INT_MAX; lia |].
  destruct (C2_start_keeps_freeze p 10 w)
    as (p' & w' & Hs & _ & _ & Htm & _ & Hup).
  destruct (Hup w') as (p'' & w'' & Hu & _ & Hfz).
  - unfold INT_MAX; lia.
  - rewrite Htm. inversion Hs. subst w. cbn [clock reads set_gpio set_reads].
    change (Z.of_nat 0) with 0. change (Z.of_nat 1) with 1.
    rewrite wrap_ulong_sub, wrap_ulong_id; lia.
  - exists p', w', p'', w''. repeat split; try assumption; apply Hfz;
      unfold INT_MAX; simpl; lia.
Defined.

(** C2 as stated fails: with a freeze of 5 s pending, [start(10)]
    leaves the freeze counter at 5, and the tick that follows takes the
    second from the freeze counter, not from the remaining time. *)
Lemma C2_counterexample :
  let p := PowerTimer.mk 5 true 40 0 5 in
  let w := mkWorld (fun k => 1000 * Z.of_nat k) 0 [] [] (fun _ => 0) 0 in
  exists p' w' p'' w'',
    PowerTimer.start 10 p w = Ret p' w'
    /\ PowerTimer.freeze_time p' = 5
    /\ PowerTimer.freeze_time p' <> 0
    /\ PowerTimer.update p' w' = Ret p'' w''
    /\ PowerTimer.time p'' = 10
    /\ PowerTimer.freeze_time p'' = 4.
Proof.
  intros p w. eexists _, _, _, _.
  split; [reflexivity |].
  split; [reflexivity |].
  split; [simpl; discriminate |].
  split; [vm_compute; reflexivity |].
  split; reflexivity.
Qed.

(** ** EEPROM: bytes written are the bytes read *)

Lemma wrap_u8_idem z : wrap_u8 (wrap_u8 z) = wrap_u8 z.
Proof. unfold wrap_u8. apply Z.mod_mod. lia. Qed.

Lemma write_bytes_outside bs : forall a e x,
  x < a \/ a + Z.of_nat (length bs) <= x ->
  write_bytes a bs e x = e x.
Proof.
  induction bs as [| b bs IH]; intros a e x Hx; [reflexivity |].
  cbn [write_bytes]. rewrite IH by (cbn [length] in Hx; lia).
  unfold EEPROM_write. destruct (Z.eqb_spec x a); [| reflexivity].
  cbn [length] in Hx. lia.
Qed.

Lemma read_bytes_ext e e' n : forall a,
  (forall x, a <= x < a + Z.of_nat n -> e x = e' x) ->
  read_bytes e a n = read_bytes e' a n.
Proof.
  induction n as [| n IH]; intros a H; [reflexivity |].
  cbn [read_bytes]. unfold EEPROM_read. rewrite (H a) by lia.
  f_equal. apply IH. intros x Hx. apply H. lia.
Qed.

Lemma read_bytes_written bs : forall a e,
  read_bytes (write_bytes a bs e) a (length bs) = map wrap_u8 bs.
Proof.
  induction bs as [| b bs IH]; intros a e; [reflexivity |].
  cbn [write_bytes length read_bytes map]. f_equal.
  - unfold EEPROM_read. rewrite write_bytes_outside by lia.
    unfold EEPROM_write. rewrite Z.eqb_refl. apply wrap_u8_idem.
  - apply IH.
Qed.

Lemma crc_loop_ext e e' n : forall i c,
  (forall x, i <= x < i + Z.of_nat n -> e x = e' x) ->
  crc_loop e n i c = crc_loop e' n i c.
Proof.
  induction n as [| n IH]; intros i c H; [reflexivity |].
  cbn [crc_loop]. unfold EEPROM_read. rewrite (H i) by lia.
  apply IH. intros x Hx. apply H. lia.
Qed.

Lemma crc_loop_range e n : forall i c,
  0 <= c < 4294967296 -> 0 <= crc_loop e n i c < 4294967296.
Proof.
  induction n as [| n IH]; intros i c Hc; [exact Hc |].
  cbn [crc_loop]. apply IH. unfold crc_step. apply wrap_ulong_range.
Qed.

Lemma int_bytes_roundtrip z :
  in_int z ->
  wrap_int (wrap_u8 (wrap_u8 (wrap_u16 z))
            + 256 * wrap_u8 (wrap_u8 (wrap_u16 z / 256))) = z.
Proof.
  unfold in_int, INT_MIN, INT_MAX, wrap_int, wrap_u8, wrap_u16. intros H.
  rewrite !Z.mod_mod by lia.
  assert (Hu : 0 <= z mod 65536 < 65536) by (apply Z.mod_pos_bound; lia).
  assert (Hq : (z mod 65536 / 256) mod 256 = z mod 65536 / 256).
  { apply Z.mod_small. split.
    - apply Z.div_pos; lia.
    - apply Z.div_lt_upper_bound; lia. }
  rewrite Hq.
  rewrite (Z.add_comm (_ mod 256)), <- Z.div_mod by lia.
  destruct (Z_lt_ge_dec z 0) as [Hneg | Hpos].
  - replace (z mod 65536) with (z + 65536).
    + replace (z + 65536 + 32768) with (z + 32768 + 1 * 65536) by lia.
      rewrite Z.mod_add, Z.mod_small by lia. lia.
    + replace (z + 65536) with ((z + 65536) mod 65536) by (apply Z.mod_small; lia).
      replace (z + 65536) with (z + 1 * 65536) by lia.
      rewrite Z.mod_add by lia. reflexivity.
  - rewrite (Z.mod_small z) by lia. rewrite Z.mod_small by lia. lia.
Qed.

Lemma ulong_bytes_roundtrip c :
  0 <= c < 4294967296 ->
  ulong_of_bytes (map wrap_u8 (ulong_bytes c)) = c.
Proof.
  intros Hc. unfold ulong_of_bytes, ulong_bytes. cbn [map nth].
  rewrite !wrap_u8_idem. unfold wrap_u8.
  pose proof (Z.div_mod c 256 ltac:(lia)) as E0.
  pose proof (Z.div_mod (c / 256) 256 ltac:(lia)) as E1.
  pose proof (Z.div_mod (c / 256 / 256) 256 ltac:(lia)) as E2.
  rewrite !Z.div_div in E1, E2 by lia. rewrite !Z.div_div in E2 by lia.
  change (256 * 256) with 65536 in *. change (65536 * 256) with 16777216 in *.
  assert (H3 : (c / 16777216) mod 256 = c / 16777216).
  { apply Z.mod_small. split.
    - apply Z.div_pos; lia.
    - apply Z.div_lt_upper_bound; lia. }
  rewrite H3. lia.
Qed.

Lemma list_set_length {T} (v : T) l : forall n,
  length (list_set n v l) = length l.
Proof.
  induction l as [| h l IH]; intros n; destruct n; cbn [list_set length];
    try reflexivity.
  rewrite IH. reflexivity.
Qed.

Lemma list_set_Forall {T} (P : T -> Prop) (v : T) l : forall n,
  P v -> Forall P l -> Forall P (list_set n v l).
Proof.
  induction l as [| h l IH]; intros n Hv Hl; destruct n; cbn [list_set];
    try constructor; inversion Hl; subst; auto.
Qed.

Lemma settings_bytes_roundtrip (ps : SettingsArray Z ITEMS_OF_PRESETTIMES) :
  length (data ps) = 4%nat ->
  Forall in_int (data ps) ->
  in_int (index ps) ->
  settings_of_bytes (map wrap_u8 (settings_bytes ps)) = ps.
Proof.
  destruct ps as [d i]. cbn [data index]. intros Hlen Hd Hi.
  destruct d as [| a [| b [| c [| d [| ? ?]]]]]; try discriminate Hlen.
  inversion Hd as [| ? ? Ha Hd1]; subst.
  inversion Hd1 as [| ? ? Hb Hd2]; subst.
  inversion Hd2 as [| ? ? Hc Hd3]; subst.
  inversion Hd3 as [| ? ? Hd' _]; subst.
  unfold settings_of_bytes, settings_bytes, int_bytes.
  cbn [data index flat_map app map].
  change (Z.to_nat ITEMS_OF_PRESETTIMES) with 4%nat.
  cbn [ints_of_bytes Nat.mul Nat.add skipn nth].
  rewrite !int_bytes_roundtrip by assumption.
  reflexivity.
Qed.

Lemma settings_bytes_length (ps : SettingsArray Z ITEMS_OF_PRESETTIMES) :
  length (data ps) = 4%nat -> length (settings_bytes ps) = 10%nat.
Proof.
  destruct ps as [d i]. cbn [data]. intros Hlen.
  destruct d as [| a [| b [| c [| d [| ? ?]]]]]; try discriminate Hlen.
  reflexivity.
Qed.

(** C4.  For every content of the preset store (four [int]s and a valid
    index) and every remaining time: [saveToEEPROM()] returns, and a
    [loadFromEEPROM()] that finds the fourteen cells it wrote as they
    were left reports a matching checksum and reads back the very store
    that was saved (the store after [setCurrent(pt.getTime())]),
    whatever the store in memory held before the load. *)
Theorem C4_save_load_roundtrip (s : Sys) (w : World) :
  length (data (presetTimes s)) = 4%nat ->
  Forall in_int (data (presetTimes s)) ->
  0 <= index (presetTimes s) < ITEMS_OF_PRESETTIMES ->
  in_int (PowerTimer.getTime (pt s)) ->
  exists s1 w1,
    saveToEEPROM s w = Ret s1 w1
    /\ presetTimes s1
       = Settings.setCurrent (PowerTimer.getTime (pt s)) (presetTimes s)
    /\ forall (s2 : Sys) (w2 : World),
         (forall a, 0 <= a < 14 -> EEPROM w2 a = EEPROM w1 a) ->
         loadFromEEPROM s2 w2
         = Ret (true, set_presetTimes (presetTimes s1) s2) w2.
Proof.
  intros Hlen Hd Hi Ht.
  set (ps := Settings.setCurrent (PowerTimer.getTime (pt s)) (presetTimes s)).
  assert (Hlen' : length (data ps) = 4%nat).
  { subst ps. cbn [Settings.setCurrent data]. rewrite list_set_length. exact Hlen. }
  assert (Hd' : Forall in_int (data ps)).
  { subst ps. cbn [Settings.setCurrent data]. apply list_set_Forall; assumption. }
  assert (Hi' : in_int (index ps)).
  { subst ps. cbn [Settings.setCurrent index].
    unfold in_int, INT_MIN, INT_MAX, ITEMS_OF_PRESETTIMES in *. lia. }
  unfold saveToEEPROM, loadFromEEPROM, bind, EEPROM_put, EEPROM_get, crcCompute, ret.
  fold ps. cbn [EEPROM set_EEPROM].
  change (sizeof_settings ITEMS_OF_PRESETTIMES) with 10.
  change (Z.to_nat 10) with 10%nat. change (Z.to_nat 4) with 4%nat.
  set (init := wrap_ulong (Z.lnot 0)).
  set (e1 := write_bytes 0 (settings_bytes ps) (EEPROM w)).
  set (c := crc_loop e1 10 0 init).
  set (e2 := write_bytes 10 (ulong_bytes c) e1).
  eexists _, _. split; [reflexivity |]. split; [reflexivity |].
  intros s2 w2 Hsame. cbn [presetTimes set_presetTimes].
  assert (Hc : 0 <= c < 4294967296).
  { subst c. apply crc_loop_range. subst init. apply wrap_ulong_range. }
  assert (Himg : read_bytes (EEPROM w2) 0 10 = map wrap_u8 (settings_bytes ps)).
  { rewrite (read_bytes_ext _ e1).
    - subst e1. rewrite <- (settings_bytes_length ps Hlen').
      apply read_bytes_written.
    - intros x Hx. rewrite Hsame by lia. cbn [EEPROM]. subst e2.
      apply write_bytes_outside. lia. }
  assert (Hcrc : read_bytes (EEPROM w2) 10 4 = map wrap_u8 (ulong_bytes c)).
  { rewrite (read_bytes_ext _ e2).
    - subst e2. apply (read_bytes_written (ulong_bytes c)).
    - intros x Hx. rewrite Hsame by lia. reflexivity. }
  assert (Hsum : crc_loop (EEPROM w2) 10 0 init = c).
  { subst c. apply crc_loop_ext. intros x Hx.
    rewrite Hsame by lia. cbn [EEPROM]. subst e2.
    apply write_bytes_outside. lia. }
  rewrite Himg, Hcrc, Hsum, ulong_bytes_roundtrip by exact Hc.
  rewrite settings_bytes_roundtrip by assumption.
  rewrite Z.eqb_refl. reflexivity.
Qed.

Lemma C4_save_load_roundtrip_witness :
  let s := mkSys (mkSettings [60; 300; 600; 1800] 1) (mkSettings [1; 5] 0)
                 (Led.mk 6 true LedBlink true 200 0)
                 (PowerTimer.mk 5 true 420 0 0) (Display.mk 0 0 0) 0 true in
  let w := mkWorld (fun k => Z.of_nat k) 0 [] [] (fun _ => 255) 0 in
  length (data (presetTimes s)) = 4%nat
  /\ 0 <= index (presetTimes s) < ITEMS_OF_PRESETTIMES
  /\ exists s1 w1,
       saveToEEPROM s w = Ret s1 w1
       /\ data (presetTimes s1) = [60; 420; 600; 1800]
       /\ loadFromEEPROM s w1 = Ret (true, s1) w1.
Proof.
  intros s w. split; [reflexivity |].
  split; [unfold ITEMS_OF_PRESETTIMES; simpl; lia |].
  destruct (C4_save_load_roundtrip s w) as (s1 & w1 & Hsave & Hps & Hload).
  - reflexivity.
  - repeat constructor; unfold in_int, INT_MIN, INT_MAX; lia.
  - unfold ITEMS_OF_PRESETTIMES; simpl; lia.
  - unfold in_int, INT_MIN, INT_MAX; simpl; lia.
  - exists s1, w1. split; [exact Hsave |]. split.
    + rewrite Hps. reflexivity.
    + rewrite (Hload s w1) by reflexivity.
      inversion Hsave. reflexivity.
Defined.

(** ** The plus and minus buttons *)

Lemma round_up_next_multiple t i :
  0 <= t -> 0 < i ->
  let r := (Z.quot t i + 1) * i in
  r mod i = 0 /\ t < r <= t + i.
Proof.
  intros Ht Hi r. subst r. rewrite Z.quot_div_nonneg by lia.
  split.
  - apply Z.mod_mul. lia.
  - pose proof (Z.div_mod t i ltac:(lia)) as E.
    pose proof (Z.mod_pos_bound t i Hi) as B. nia.
Qed.

Lemma round_down_previous_multiple t i :
  1 <= t -> 0 < i ->
  let r := Z.quot (t - 1) i * i in
  r mod i = 0 /\ r < t <= r + i.
Proof.
  intros Ht Hi r. subst r. rewrite Z.quot_div_nonneg by lia.
  split.
  - apply Z.mod_mul. lia.
  - pose proof (Z.div_mod (t - 1) i ltac:(lia)) as E.
    pose proof (Z.mod_pos_bound (t - 1) i Hi) as B. nia.
Qed.

(** C6 as amended.  A pass of the dispatch chain that reaches the plus
    button (no click and no armed long press of the primary button)
    with the interval [m] minutes and the remaining time [t >= 0]
    seconds: the rounded value [r] is the next multiple of [60 * m]
    above [t]; when [r] is below 90 minutes the countdown is restarted
    with it ([start(r)]: time [r], tick reference reset, relay
    energized); otherwise the press is rejected: the remaining time
    stays [t], the tick reference is untouched and the relay pin is not
    written.  A remaining time below 90 minutes so stays below 90
    minutes.  Either way the time screen is painted and the freeze is
    set to 5 s. *)
Theorem C6_plus_press (b : Buttons) (s : Sys) (w : World) :
  on_onClick b = false ->
  on_onLong b && button_ready s = false ->
  plus_onPress b = true ->
  0 < Settings.current 0 (intervals s) <= 546 ->
  0 <= PowerTimer.getTime (pt s) ->
  PowerTimer.getTime (pt s) + Settings.current 0 (intervals s) * 60 <= INT_MAX ->
  let i := Settings.current 0 (intervals s) * 60 in
  let t := PowerTimer.getTime (pt s) in
  let r := (Z.quot t i + 1) * i in
  (r mod i = 0 /\ t < r <= t + i)
  /\ exists s' w',
       dispatch b s w = Ret s' w'
       /\ (t < 90 * 60 -> PowerTimer.time (pt s') < 90 * 60)
       /\ PowerTimer.freeze_time (pt s') = 5
       /\ (r < 90 * 60 ->
           PowerTimer.time (pt s') = r
           /\ PowerTimer.timer (pt s') = wrap_ulong (clock w (reads w))
           /\ PowerTimer.energized (pt s') w')
       /\ (90 * 60 <= r ->
           PowerTimer.time (pt s') = t
           /\ PowerTimer.timer (pt s') = PowerTimer.timer (pt s)
           /\ gpio w' = gpio w)
       /\ exists glyph,
            oled w' = TimeScreen (Z.quot (PowerTimer.time (pt s')) 60)
                                 (Z.rem (PowerTimer.time (pt s')) 60) glyph
                      :: oled w.
Proof.
  intros Hclick Hlong Hplus Hm Ht Hmax i t r.
  assert (Hr : r mod i = 0 /\ t < r <= t + i)
    by (apply round_up_next_multiple; subst i t; lia).
  split; [exact Hr |].
  unfold dispatch. rewrite Hclick, Hlong, Hplus.
  unfold time_plus. fold i. fold t.
  assert (Hq : 0 <= Z.quot t i) by (apply Z.quot_pos; subst i t; lia).
  assert (Hq' : Z.quot t i <= t).
  { rewrite Z.quot_div_nonneg by (subst i t; lia).
    apply Z.div_le_upper_bound; subst i t; nia. }
  rewrite (wrap_int_id i) by (subst i t; int_range).
  rewrite (wrap_int_id (Z.quot t i + 1)) by (subst t; int_range).
  fold r. rewrite (wrap_int_id r) by (subst i t; int_range).
  unfold bind, ret.
  destruct (Z.ltb_spec r (90 * 60)) as [Hlt | Hge].
  - rewrite start_eq. unfold Display.printTimeScreen, bind, ret, millis, sendBuffer.
    eexists _, _. split; [reflexivity |].
    cbn [pt set_pt set_display PowerTimer.time PowerTimer.freeze_time
         PowerTimer.freeze PowerTimer.timer PowerTimer.pin PowerTimer.logic].
    split; [intros _; exact Hlt |]. split; [reflexivity |].
    split.
    + intros _. split; [reflexivity |]. split; [reflexivity |].
      unfold PowerTimer.energized. simpl. rewrite Z.eqb_refl. reflexivity.
    + split; [lia |]. eexists. reflexivity.
  - unfold Display.printTimeScreen, bind, ret, millis, sendBuffer.
    eexists _, _. split; [reflexivity |].
    cbn [pt set_pt set_display PowerTimer.time PowerTimer.freeze_time
         PowerTimer.freeze PowerTimer.timer PowerTimer.pin PowerTimer.logic].
    split; [intros H; exact H |]. split; [reflexivity |].
    split; [lia |].
    split; [intros _; repeat split; reflexivity |]. eexists. reflexivity.
Qed.

Lemma C6_plus_press_witness :
  let b := mkButtons false false false true false false false false in
  let s := mkSys (mkSettings [60; 300; 600; 1800] 0) (mkSettings [1; 5] 0)
                 (Led.mk 6 true LedBlink true 200 0)
                 (PowerTimer.mk 5 true 125 0 0) (Display.mk 0 0 0) 0 true in
  let w := mkWorld (fun k => 7000 + Z.of_nat k) 0 [] [] (fun _ => 255) 0 in
  0 < Settings.current 0 (intervals s) <= 546
  /\ 0 <= PowerTimer.getTime (pt s)
  /\ exists s' w',
       dispatch b s w = Ret s' w'
       /\ PowerTimer.time (pt s') = 180
       /\ PowerTimer.timer (pt s') = 7000
       /\ PowerTimer.energized (pt s') w'.
Proof.
  intros b s w.
  split; [closed |]. split; [closed |].
  destruct (C6_plus_press b s w) as (_ & s' & w' & Hd & _ & _ & Hr & _);
    try reflexivity; try closed.
  destruct Hr as (Ht & Htm & He); [closed |].
  exists s', w'. split; [exact Hd |]. split; [exact Ht |].
  split; [rewrite Htm; reflexivity | exact He].
Defined.

(** C6 as stated fails: at 5399 s with the 1-minute interval the rounded
    value is 5400 s, which is not below 90 minutes; the press is
    rejected, the remaining time stays 5399 s (neither rounded nor
    clamped) and the countdown is not restarted. *)
Lemma C6_counterexample :
  let b := mkButtons false false false true false false false false in
  let s := mkSys (mkSettings [60; 300; 600; 1800] 0) (mkSettings [1; 5] 0)
                 (Led.mk 6 true LedBlink true 200 0)
                 (PowerTimer.mk 5 true 5399 1234 0) (Display.mk 0 0 0) 0 true in
  let w := mkWorld (fun k => 7000 + Z.of_nat k) 0 [] [] (fun _ => 255) 0 in
  exists s' w',
    dispatch b s w = Ret s' w'
    /\ PowerTimer.time (pt s') = 5399
    /\ 5399 mod 60 <> 0
    /\ PowerTimer.timer (pt s') = 1234
    /\ gpio w' = [].
Proof.
  intros b s w. eexists _, _.
  split; [vm_compute; reflexivity |].
  repeat split; try reflexivity. vm_compute. discriminate.
Qed.

(** C7.  A pass of the dispatch chain that reaches the minus button
    with the interval [m] minutes and the remaining time [t >= 0]
    seconds: for [t >= 1] the rounded value [r] is the previous multiple
    of [60 * m] below [t]; when [r <= 0] the request is rejected and the
    countdown is left alone (remaining time [t], tick reference
    untouched, no write to the relay pin), otherwise the countdown is
    restarted with [r]; either way the time screen is painted and the
    freeze is set to 5 s. *)
Theorem C7_minus_press (b : Buttons) (s : Sys) (w : World) :
  on_onClick b = false ->
  on_onLong b && button_ready s = false ->
  plus_onPress b = false ->
  minus_onPress b = true ->
  0 < Settings.current 0 (intervals s) <= 546 ->
  0 <= PowerTimer.getTime (pt s) <= INT_MAX ->
  let i := Settings.current 0 (intervals s) * 60 in
  let t := PowerTimer.getTime (pt s) in
  let r := Z.quot (t - 1) i * i in
  (1 <= t -> r mod i = 0 /\ r < t <= r + i)
  /\ exists s' w',
       dispatch b s w = Ret s' w'
       /\ PowerTimer.freeze_time (pt s') = 5
       /\ (r <= 0 ->
           PowerTimer.time (pt s') = t
           /\ PowerTimer.timer (pt s') = PowerTimer.timer (pt s)
           /\ gpio w' = gpio w)
       /\ (0 < r ->
           PowerTimer.time (pt s') = r
           /\ PowerTimer.timer (pt s') = wrap_ulong (clock w (reads w))
           /\ PowerTimer.energized (pt s') w')
       /\ exists glyph,
            oled w' = TimeScreen (Z.quot (PowerTimer.time (pt s')) 60)
                                 (Z.rem (PowerTimer.time (pt s')) 60) glyph
                      :: oled w.
Proof.
  intros Hclick Hlong Hplus Hminus Hm Ht i t r.
  split.
  { intros H1. apply round_down_previous_multiple; subst i t; lia. }
  unfold dispatch. rewrite Hclick, Hlong, Hplus, Hminus.
  unfold time_minus. fold i. fold t.
  assert (Hi : 0 < i <= INT_MAX) by (subst i; int_range).
  assert (Hrr : -1 <= r <= t).
  { subst r. destruct (Z_le_gt_dec t 0) as [H0 | H1].
    - replace t with 0 by (subst t; lia). simpl (0 - 1).
      assert (E : Z.quot (-1) i = 0).
      { change (-1) with (- (1)). rewrite Z.quot_opp_l by lia.
        rewrite Z.quot_small by (subst i; lia). reflexivity. }
      rewrite E. lia.
    - pose proof (round_down_previous_multiple t i ltac:(lia) ltac:(lia)) as [_ B].
      rewrite Z.quot_div_nonneg by lia.
      assert (0 <= (t - 1) / i) by (apply Z.div_pos; lia).
      rewrite Z.quot_div_nonneg in B by lia. nia. }
  rewrite (wrap_int_id i) by int_range.
  rewrite (wrap_int_id (t - 1)) by (subst t; int_range).
  fold r. rewrite (wrap_int_id r) by (subst t; int_range).
  unfold bind, ret.
  destruct (Z.gtb_spec r 0) as [Hgt | Hle].
  - rewrite start_eq. unfold Display.printTimeScreen, bind, ret, millis, sendBuffer.
    eexists _, _. split; [reflexivity |].
    cbn [pt set_pt set_display PowerTimer.time PowerTimer.freeze_time
         PowerTimer.freeze PowerTimer.timer PowerTimer.pin PowerTimer.logic].
    split; [reflexivity |]. split; [lia |].
    split.
    + intros _. split; [reflexivity |]. split; [reflexivity |].
      unfold PowerTimer.energized. simpl. rewrite Z.eqb_refl. reflexivity.
    + eexists. reflexivity.
  - unfold Display.printTimeScreen, bind, ret, millis, sendBuffer.
    eexists _, _. split; [reflexivity |].
    cbn [pt set_pt set_display PowerTimer.time PowerTimer.freeze_time
         PowerTimer.freeze PowerTimer.timer PowerTimer.pin PowerTimer.logic].
    split; [reflexivity |].
    split; [intros _; repeat split; reflexivity |].
    split; [lia |]. eexists. reflexivity.
Qed.

Lemma C7_minus_press_witness :
  let b := mkButtons false false false false true false false false in
  let s := mkSys (mkSettings [60; 300; 600; 1800] 0) (mkSettings [1; 5] 0)
                 (Led.mk 6 true LedBlink true 200 0)
                 (PowerTimer.mk 5 true 125 0 0) (Display.mk 0 0 0) 0 true in
  let w := mkWorld (fun k => 7000 + Z.of_nat k) 0 [] [] (fun _ => 255) 0 in
  0 < Settings.current 0 (intervals s) <= 546
  /\ 0 <= PowerTimer.getTime (pt s) <= INT_MAX
  /\ exists s' w',
       dispatch b s w = Ret s' w'
       /\ PowerTimer.time (pt s') = 120.
Proof.
  intros b s w.
  split; [closed |]. split; [closed |].
  destruct (C7_minus_press b s w) as (_ & s' & w' & Hd & _ & _ & Hr & _);
    try reflexivity; try closed.
  destruct Hr as (Ht & _); [closed |].
  exists s', w'. split; [exact Hd | exact Ht].
Defined.

(** ** The latch of the primary button *)

Lemma next_preset_ret s w :
  exists s' w', next_preset s w = Ret s' w' /\ button_ready s' = false.
Proof.
  unfold next_preset, bind, ret. rewrite start_eq.
  unfold Display.printTimeScreen, bind, ret, millis, sendBuffer.
  eexists _, _. split; reflexivity.
Qed.

Lemma relay_off_never_returns s w :
  exists w', relay_off s w = PowerOff w'.
Proof.
  unfold relay_off, bind, ret, Display.printText, Display.freeze, bind, ret,
    sendBuffer, millis, PowerTimer.off.
  eexists. reflexivity.
Qed.

Lemma time_plus_ret s w :
  exists s' w', time_plus s w = Ret s' w' /\ button_ready s' = button_ready s.
Proof.
  unfold time_plus, bind, ret.
  match goal with |- context [if ?c then _ else _] => destruct c end;
    [rewrite start_eq |];
    unfold Display.printTimeScreen, bind, ret, millis, sendBuffer;
    eexists _, _; split; reflexivity.
Qed.

Lemma time_minus_ret s w :
  exists s' w', time_minus s w = Ret s' w' /\ button_ready s' = button_ready s.
Proof.
  unfold time_minus, bind, ret.
  match goal with |- context [if ?c then _ else _] => destruct c end;
    [rewrite start_eq |];
    unfold Display.printTimeScreen, bind, ret, millis, sendBuffer;
    eexists _, _; split; reflexivity.
Qed.

Lemma change_interval_ret s w :
  exists s' w', change_interval s w = Ret s' w' /\ button_ready s' = button_ready s.
Proof.
  unfold change_interval, bind, ret, Display.freeze, Display.printInterval,
    bind, ret, millis, sendBuffer.
  eexists _, _. split; reflexivity.
Qed.

Lemma save_settings_ret s w :
  exists s' w', save_settings s w = Ret s' w' /\ button_ready s' = button_ready s.
Proof.
  unfold save_settings, saveToEEPROM, bind, ret, EEPROM_put, crcCompute,
    Display.printText, bind, ret, sendBuffer.
  eexists _, _. split; reflexivity.
Qed.

(** What the dispatch chain does to the latch, and when it powers off. *)
Lemma dispatch_cases b s w :
  (exists s' w', dispatch b s w = Ret s' w'
                 /\ button_ready s' = if on_onClick b then false else button_ready s)
  \/ (exists w', dispatch b s w = PowerOff w'
                 /\ on_onClick b = false /\ on_onLong b = true
                 /\ button_ready s = true).
Proof.
  unfold dispatch.
  destruct (on_onClick b).
  { left. apply next_preset_ret. }
  destruct (on_onLong b) eqn:Hlong, (button_ready s) eqn:Hready; cbn [andb].
  { right. destruct (relay_off_never_returns s w) as [w' H].
    exists w'. auto. }
  all: left.
  all: destruct (plus_onPress b);
    [destruct (time_plus_ret s w) as (s' & w' & H & E);
     exists s', w'; split; [exact H | rewrite E; exact Hready] |].
  all: destruct (minus_onPress b);
    [destruct (time_minus_ret s w) as (s' & w' & H & E);
     exists s', w'; split; [exact H | rewrite E; exact Hready] |].
  all: destruct (mode_onClick b && negb (on_pressed_mode b));
    [destruct (change_interval_ret s w) as (s' & w' & H & E);
     exists s', w'; split; [exact H | rewrite E; exact Hready] |].
  all: destruct (mode_onLong b);
    [destruct (save_settings_ret s w) as (s' & w' & H & E);
     exists s', w'; split; [exact H | rewrite E; exact Hready] |].
  all: exists s, w; split; [reflexivity | exact Hready].
Qed.

Lemma arm_latch_ready b s :
  button_ready (arm_latch b s) = button_ready s || negb (on_pressed b).
Proof.
  unfold arm_latch.
  destruct (on_pressed b); destruct (button_ready s) eqn:E; cbn [negb andb orb];
    try rewrite E; reflexivity.
Qed.

(** The latch after a pass of [loop()] that returns. *)
Lemma loop_latch b s w s' w' :
  loop b s w = Ret s' w' ->
  button_ready s' = latch_next (button_ready s) b.
Proof.
  unfold loop, bind, latch_next.
  destruct (dispatch_cases b (arm_latch b s) w)
    as [(s1 & w1 & Hd & Hr) | (w1 & Hd & _)]; rewrite Hd; [| discriminate].
  destruct (Led.update (led1 s1) w1) as [l w2 | w2 | w2 | w2]; try discriminate.
  destruct (PowerTimer.update _ w2) as [p w3 | w3 | w3 | w3]; try discriminate.
  destruct (Display.update _ _ w3) as [d w4 | w4 | w4 | w4]; try discriminate.
  unfold feedWatchdog, ret. intros H. inversion H; subst.
  cbn [button_ready set_display set_pt set_led1].
  rewrite Hr, arm_latch_ready. reflexivity.
Qed.

Lemma run_latch bs : forall s w s' w',
  run bs s w = Ret s' w' ->
  button_ready s' = fold_left latch_next bs (button_ready s).
Proof.
  induction bs as [| b bs IH]; intros s w s' w' H.
  - inversion H. reflexivity.
  - cbn [run] in H. unfold bind in H.
    destruct (loop b s w) as [s1 w1 | w1 | w1 | w1] eqn:Hl; try discriminate.
    cbn [fold_left]. rewrite <- (loop_latch _ _ _ _ _ Hl).
    apply (IH _ _ _ _ H).
Qed.

(** An armed latch goes back to a pass in which the button was seen
    released, with no click in that pass or after it. *)
Lemma latch_armed_since_release bs : forall r0,
  fold_left latch_next bs r0 = true ->
  (r0 = true /\ Forall (fun x => on_onClick x = false) bs)
  \/ exists pre r post,
       bs = pre ++ r :: post
       /\ on_pressed r = false
       /\ Forall (fun x => on_onClick x = false) (r :: post).
Proof.
  induction bs as [| b bs IH]; intros r0 H.
  - left. split; [exact H | constructor].
  - cbn [fold_left] in H. destruct (IH _ H) as [[Hb Hrest] | (pre & r & post & E & Hp & Hc)].
    + unfold latch_next in Hb.
      destruct (on_onClick b) eqn:Hclick; [discriminate |].
      destruct r0.
      * left. split; [reflexivity | constructor; assumption].
      * right. exists [], b, bs. split; [reflexivity |].
        split; [| constructor; assumption].
        destruct (on_pressed b); [discriminate | reflexivity].
    + right. exists (b :: pre), r, post. rewrite E. auto.
Qed.

(** C8 as amended.  (1) When the dispatch chain of a pass takes the
    power-off branch, the pass saw no click, saw the long press, and
    the latch was armed.  (2) The latch goes from cleared to armed only
    in a pass that sees the primary button released.  (3) A pass with a
    click leaves the latch cleared.  (4) Hence, from any state with the
    latch cleared (as at boot, or after a click), whatever the buttons
    answer in the passes that follow: if a pass takes the power-off
    branch, then that pass or one before it saw the button released,
    and no pass from that one on saw a click.  Seeing the button
    released is all that is asked for; a press before it is not. *)
Theorem C8_off_needs_release :
  (forall b s w w',
     dispatch b (arm_latch b s) w = PowerOff w' ->
     on_onClick b = false /\ on_onLong b = true
     /\ button_ready (arm_latch b s) = true)
  /\ (forall b s,
        button_ready s = false ->
        button_ready (arm_latch b s) = true ->
        on_pressed b = false)
  /\ (forall b s w s' w',
        on_onClick b = true ->
        loop b s w = Ret s' w' ->
        button_ready s' = false)
  /\ (forall bs b s w s' w' w'',
        button_ready s = false ->
        run bs s w = Ret s' w' ->
        dispatch b (arm_latch b s') w' = PowerOff w'' ->
        exists pre r post,
          bs ++ [b] = pre ++ r :: post
          /\ on_pressed r = false
          /\ Forall (fun x => on_onClick x = false) (r :: post)).
Proof.
  assert (Hoff : forall b s w w',
            dispatch b (arm_latch b s) w = PowerOff w' ->
            on_onClick b = false /\ on_onLong b = true
            /\ button_ready (arm_latch b s) = true).
  { intros b s w w' H.
    destruct (dispatch_cases b (arm_latch b s) w)
      as [(s1 & w1 & Hd & _) | (w1 & _ & Hc & Hl & Hr)].
    - rewrite Hd in H. discriminate.
    - auto. }
  split; [exact Hoff |].
  split.
  { intros b s Hs. rewrite arm_latch_ready, Hs.
    destruct (on_pressed b); [discriminate | reflexivity]. }
  split.
  { intros b s w s' w' Hc Hl. rewrite (loop_latch _ _ _ _ _ Hl).
    unfold latch_next. rewrite Hc. reflexivity. }
  intros bs b s w s' w' w'' Hs Hrun Hd.
  destruct (Hoff _ _ _ _ Hd) as (Hc & _ & Hr).
  assert (Hfold : fold_left latch_next (bs ++ [b]) false = true).
  { rewrite fold_left_app. cbn [fold_left]. rewrite <- Hs.
    rewrite <- (run_latch _ _ _ _ _ Hrun).
    unfold latch_next. rewrite Hc, <- arm_latch_ready. exact Hr. }
  destruct (latch_armed_since_release _ _ Hfold) as [[Hf _] | H];
    [discriminate | exact H].
Qed.

Lemma C8_off_needs_release_witness :
  let released := mkButtons false false false false false false false false in
  let held := mkButtons true false true false false false true false in
  let s := mkSys (mkSettings [60; 300; 600; 1800] 0) (mkSettings [1; 5] 0)
                 (Led.mk 6 true LedBlink true 200 0)
                 (PowerTimer.mk 5 true 60 0 5) (Display.mk 0 0 0) 0 false in
  let w := mkWorld (fun k => 10 * Z.of_nat k) 0 [] [] (fun _ => 255) 0 in
  button_ready s = false
  /\ exists s' w' w'',
       run [released] s w = Ret s' w'
       /\ dispatch held (arm_latch held s') w' = PowerOff w''
       /\ exists pre r post,
            [released] ++ [held] = pre ++ r :: post
            /\ on_pressed r = false
            /\ Forall (fun x => on_onClick x = false) (r :: post).
Proof.
  intros released held s w.
  split; [reflexivity |].
  eexists _, _, _.
  split; [vm_compute; reflexivity |].
  split; [vm_compute; reflexivity |].
  eapply (proj2 (proj2 (proj2 C8_off_needs_release)) [released] held s w).
  - reflexivity.
  - vm_compute; reflexivity.
  - vm_compute; reflexivity.
Defined.

(** C8 as stated fails: a full press-release cycle is not needed.
    From a cleared latch (boot), and again after a preset-switch click,
    one pass that sees the button released arms the latch, and the long
    press that follows powers off, no pass before it having seen the
    button pressed. *)
Lemma C8_counterexample :
  let released := mkButtons false false false false false false false false in
  let click := mkButtons false true false false false false false false in
  let held := mkButtons true false true false false false true false in
  let s := mkSys (mkSettings [60; 300; 600; 1800] 0) (mkSettings [1; 5] 0)
                 (Led.mk 6 true LedBlink true 200 0)
                 (PowerTimer.mk 5 true 60 0 5) (Display.mk 0 0 0) 0 false in
  let w := mkWorld (fun k => 10 * Z.of_nat k) 0 [] [] (fun _ => 255) 0 in
  (exists s' w' w'',
     run [released] s w = Ret s' w'
     /\ Forall (fun x => on_pressed x = false) [released]
     /\ dispatch held (arm_latch held s') w' = PowerOff w'')
  /\ (exists s' w' w'',
        run [click; released] s w = Ret s' w'
        /\ Forall (fun x => on_pressed x = false) [click; released]
        /\ dispatch held (arm_latch held s') w' = PowerOff w'').
Proof.
  intros released click held s w. split.
  - eexists _, _, _. split; [vm_compute; reflexivity |].
    split; [repeat constructor | vm_compute; reflexivity].
  - eexists _, _, _. split; [vm_compute; reflexivity |].
    split; [repeat constructor | vm_compute; reflexivity].
Qed.

(** ** Display: the repaint interval *)

Lemma printTimeScreen_eq cb d w :
  Display.printTimeScreen cb d w
  = Ret (Display.mk (Display.tempTime d) (wrap_ulong (clock w (reads w)))
           (Display.timerT d))
        (set_oled
           (TimeScreen (Z.quot (time_callback cb) 60) (Z.rem (time_callback cb) 60)
              (wrap_u16 (wrap_u16 (index_callback cb + 1) + 0x277F))
            :: oled w)
           (set_reads (S (reads w)) w)).
Proof. reflexivity. Qed.

(** [update()] inside the minimum repaint interval does nothing but
    read the clock. *)
Lemma update_rate_limited cb d w :
  wrap_ulong (wrap_ulong (clock w (reads w)) - Display.timer d) < DISPLAY_UPDATE_TIME ->
  Display.update cb d w = Ret d (set_reads (S (reads w)) w).
Proof.
  intros H. unfold Display.update, bind, millis.
  destruct (Z.ltb_spec (wrap_ulong (wrap_ulong (clock w (reads w)) - Display.timer d))
              DISPLAY_UPDATE_TIME); [reflexivity | lia].
Qed.

(** The four ways through [update()]. *)
Lemma update_cases cb d w :
  Display.update cb d w = Ret d (set_reads (S (reads w)) w)
  \/ Display.update cb d w = Ret d (set_reads (S (S (reads w))) w)
  \/ (exists f,
        Display.update cb d w
        = Ret (Display.mk (Display.tempTime d)
                 (wrap_ulong (clock w (S (reads w)))) (Display.timerT d))
              (set_oled (f :: oled w) (set_reads (S (S (reads w))) w)))
  \/ (exists f,
        Display.update cb d w
        = Ret (Display.mk 0 (wrap_ulong (clock w (S (S (S (reads w))))))
                 (Display.timerT d))
              (set_oled (f :: f :: oled w)
                 (set_reads (S (S (S (S (reads w))))) w))).
Proof.
  unfold Display.update, bind, millis.
  destruct (_ <? DISPLAY_UPDATE_TIME); [left; reflexivity |].
  destruct (Display.tempTime d =? 0).
  - right; right; left. rewrite printTimeScreen_eq. eexists. reflexivity.
  - cbn [reads set_reads clock].
    destruct (_ >? _).
    + right; right; right. rewrite printTimeScreen_eq. unfold bind.
      rewrite printTimeScreen_eq. eexists. reflexivity.
    + right; left. reflexivity.
Qed.

Lemma clock_monotone_window (c : nat -> Z) (a : nat) : forall n,
  (forall k, (a <= k < a + n)%nat -> c k <= c (S k)) ->
  forall j, (a <= j <= a + n)%nat -> c a <= c j /\ c j <= c (a + n)%nat.
Proof.
  induction n as [| n IH]; intros Hm j Hj.
  - replace j with a by lia. rewrite Nat.add_0_r. lia.
  - assert (Hn : forall k, (a <= k < a + n)%nat -> c k <= c (S k))
      by (intros k Hk; apply Hm; lia).
    assert (Hstep : c (a + n)%nat <= c (a + S n)%nat).
    { replace (a + S n)%nat with (S (a + n)) by lia. apply Hm. lia. }
    destruct (Nat.eq_dec j (a + S n)) as [-> | Hne].
    + destruct (IH Hn (a + n)%nat ltac:(lia)). lia.
    + destruct (IH Hn j ltac:(lia)). lia.
Qed.

(** C9 as amended.  (1) [update()] does nothing (same display state, no
    frame, only the clock is read) when less than 200 ms have gone by
    since the time stamp of the rate limiter, which is the time of the
    last time-screen paint.  (2) Of two [update()] calls in a row whose
    first clock readings are less than 200 ms apart, the clock not
    running backwards in between, at most one paints: when the first
    has painted, the second does nothing. *)
Theorem C9_update_rate_limit (cb cb' : Callbacks) (d : Display.t) (w : World) :
  (wrap_ulong (wrap_ulong (clock w (reads w)) - Display.timer d) < DISPLAY_UPDATE_TIME ->
   Display.update cb d w = Ret d (set_reads (S (reads w)) w))
  /\ exists d1 w1,
       Display.update cb d w = Ret d1 w1
       /\ ((forall k, (reads w <= k < reads w1)%nat -> clock w k <= clock w (S k)) ->
           clock w (reads w1) - clock w (reads w) < DISPLAY_UPDATE_TIME ->
           oled w1 <> oled w ->
           Display.update cb' d1 w1 = Ret d1 (set_reads (S (reads w1)) w1)).
Proof.
  split; [apply update_rate_limited |].
  assert (Hlim : forall j n d1 w1,
            (reads w <= j < reads w + n)%nat ->
            Display.timer d1 = wrap_ulong (clock w j) ->
            clock w1 = clock w -> reads w1 = (reads w + n)%nat ->
            (forall k, (reads w <= k < reads w1)%nat -> clock w k <= clock w (S k)) ->
            clock w (reads w1) - clock w (reads w) < DISPLAY_UPDATE_TIME ->
            Display.update cb' d1 w1 = Ret d1 (set_reads (S (reads w1)) w1)).
  { intros j n d1 w1 Hj Ht Hc Hr Hm Hs.
    apply update_rate_limited. rewrite Ht, Hc, wrap_ulong_sub.
    rewrite Hr in Hm, Hs |- *.
    destruct (clock_monotone_window (clock w) (reads w) n Hm j ltac:(lia)).
    unfold DISPLAY_UPDATE_TIME in *. rewrite wrap_ulong_id; lia. }
  destruct (update_cases cb d w) as [E | [E | [[f E] | [f E]]]]; rewrite E;
    eexists _, _; (split; [reflexivity |]); intros Hm Hs Hp.
  - exfalso. apply Hp. reflexivity.
  - exfalso. apply Hp. reflexivity.
  - apply (Hlim (S (reads w)) 2%nat); cbn [Display.timer clock reads set_oled set_reads];
      try reflexivity; try assumption; lia.
  - apply (Hlim (S (S (S (reads w)))) 4%nat);
      cbn [Display.timer clock reads set_oled set_reads];
      try reflexivity; try assumption; lia.
Qed.

Lemma C9_update_rate_limit_witness :
  let cb := mkCallbacks 125 0 1 in
  let w := mkWorld (fun k => 1000 + 10 * Z.of_nat k) 0 [] [] (fun _ => 255) 0 in
  (* a call 100 ms after the last time-screen paint *)
  Display.update cb (Display.mk 0 900 0) w
  = Ret (Display.mk 0 900 0) (set_reads 1 w)
  (* a call that paints, and one 20 ms after it *)
  /\ exists d1 w1,
       Display.update cb (Display.mk 0 0 0) w = Ret d1 w1
       /\ oled w1 = [TimeScreen 2 5 0x2780]
       /\ Display.update cb d1 w1 = Ret d1 (set_reads 3 w1).
Proof.
  intros cb w. split.
  - apply (proj1 (C9_update_rate_limit cb cb (Display.mk 0 900 0) w)). closed.
  - destruct (C9_update_rate_limit cb cb (Display.mk 0 0 0) w)
      as (_ & d1 & w1 & Hu & Hnext).
    exists d1, w1. split; [exact Hu |].
    assert (E : Ret d1 w1
                = Ret (Display.mk 0 1010 0)
                      (mkWorld (clock w) 2 [] [TimeScreen 2 5 0x2780] (EEPROM w) 0))
      by (rewrite <- Hu; reflexivity).
    inversion E; subst d1 w1. split; [reflexivity |].
    apply Hnext.
    + cbn [reads]. intros k Hk. unfold w. cbn [clock]. lia.
    + closed.
    + cbn [oled]. unfold w. cbn [oled]. discriminate.
Defined.

(** C9 as stated fails twice.  By design: a paint by [printText()]
    does not count for the rate limiter, so an [update()] at the very
    millisecond of that paint repaints (here it overwrites the text).
    By the way the expiry branch is written: the [update()] that sees
    the transient message expire calls [printTimeScreen()] twice, so
    two [update()] calls 10 ms apart send two frames. *)
Lemma C9_counterexample :
  let cb := mkCallbacks 125 0 1 in
  let w := mkWorld (fun _ => 1000) 0 [] [] (fun _ => 255) 0 in
  let w' := mkWorld (fun k => 3000 + 2 * Z.of_nat k) 0 [] [] (fun _ => 255) 0 in
  (exists d2 w2,
     (d1 <- Display.printText "SAVED" (Display.mk 0 0 0) ;; Display.update cb d1) w
     = Ret d2 w2
     /\ oled w2 = [TimeScreen 2 5 0x2780; TextScreen "SAVED"])
  /\ (exists d2 w2,
        (d1 <- Display.update cb (Display.mk 2000 0 0) ;; Display.update cb d1) w'
        = Ret d2 w2
        /\ clock w' 4 - clock w' 0 = 8
        /\ oled w2 = [TimeScreen 2 5 0x2780; TimeScreen 2 5 0x2780]).
Proof.
  intros cb w w'. split.
  - eexists _, _. split; [vm_compute; reflexivity | reflexivity].
  - eexists _, _. split; [vm_compute; reflexivity |]. split; reflexivity.
Qed.

(** ** Display: which paints move the time stamp *)

(** C10.  [printText()] and [printInterval()] send their frame and
    leave the display state, the time stamp of the rate limiter
    included, as it was, and they do not read the clock;
    [printTimeScreen()] sets the time stamp to the clock reading it
    takes.  So an [update()] right after [printText()] or
    [printInterval()] is judged on the old time stamp: when 200 ms or
    more have gone by since the last time-screen paint and no transient
    message is pending, it paints the time screen over the frame just
    sent. *)
Theorem C10_only_time_screen_stamps (cb : Callbacks) (d : Display.t) (w : World)
    (text : string) :
  Display.printText text d w = Ret d (set_oled (TextScreen text :: oled w) w)
  /\ Display.printInterval cb d w
     = Ret d (set_oled (IntervalScreen (interval_callback cb) :: oled w) w)
  /\ (exists d' w',
        Display.printTimeScreen cb d w = Ret d' w'
        /\ Display.timer d' = wrap_ulong (clock w (reads w))
        /\ Display.tempTime d' = Display.tempTime d
        /\ Display.timerT d' = Display.timerT d)
  /\ (DISPLAY_UPDATE_TIME
        <= wrap_ulong (wrap_ulong (clock w (reads w)) - Display.timer d) ->
      Display.tempTime d = 0 ->
      (exists d' w' f,
         (d1 <- Display.printText text d ;; Display.update cb d1) w = Ret d' w'
         /\ oled w' = f :: TextScreen text :: oled w)
      /\ (exists d' w' f,
            (d1 <- Display.printInterval cb d ;; Display.update cb d1) w = Ret d' w'
            /\ oled w' = f :: IntervalScreen (interval_callback cb) :: oled w)).
Proof.
  split; [reflexivity |]. split; [reflexivity |].
  split.
  { rewrite printTimeScreen_eq. eexists _, _. split; [reflexivity |]. auto. }
  intros He Ht.
  assert (Hup : forall w0,
            clock w0 = clock w -> reads w0 = reads w ->
            exists f,
              Display.update cb d w0
              = Ret (Display.mk (Display.tempTime d)
                       (wrap_ulong (clock w0 (S (reads w0)))) (Display.timerT d))
                    (set_oled (f :: oled w0) (set_reads (S (S (reads w0))) w0))).
  { intros w0 Hc Hr. unfold Display.update, bind, millis. rewrite Hc, Hr.
    destruct (Z.ltb_spec (wrap_ulong (wrap_ulong (clock w (reads w)) - Display.timer d))
                DISPLAY_UPDATE_TIME); [lia |].
    destruct (Z.eqb_spec (Display.tempTime d) 0) as [_ | Hne]; [| contradiction].
    rewrite printTimeScreen_eq.
    cbn [clock reads set_reads]. rewrite ?Hc, ?Hr. eexists. reflexivity. }
  split.
  - change ((d1 <- Display.printText text d ;; Display.update cb d1) w)
      with (Display.update cb d (set_oled (TextScreen text :: oled w) w)).
    destruct (Hup (set_oled (TextScreen text :: oled w) w)) as [f E];
      try reflexivity.
    rewrite E. eexists _, _, f. split; reflexivity.
  - change ((d1 <- Display.printInterval cb d ;; Display.update cb d1) w)
      with (Display.update cb d
              (set_oled (IntervalScreen (interval_callback cb) :: oled w) w)).
    destruct (Hup (set_oled (IntervalScreen (interval_callback cb) :: oled w) w))
      as [f E]; try reflexivity.
    rewrite E. eexists _, _, f. split; reflexivity.
Qed.

Lemma C10_only_time_screen_stamps_witness :
  let cb := mkCallbacks 125 0 1 in
  let d := Display.mk 0 0 0 in
  let w := mkWorld (fun _ => 1000) 0 [] [] (fun _ => 255) 0 in
  Display.tempTime d = 0
  /\ exists d' w' f,
       (d1 <- Display.printText "SAVED" d ;; Display.update cb d1) w = Ret d' w'
       /\ oled w' = f :: TextScreen "SAVED" :: oled w.
Proof.
  intros cb d w. split; [reflexivity |].
  apply (C10_only_time_screen_stamps cb d w "SAVED"); closed.
Defined.

(** ** Display: waiting for a transient message *)

Lemma clock_monotone (c : nat -> Z) :
  (forall k, c k <= c (S k)) -> forall a b, (a <= b)%nat -> c a <= c b.
Proof.
  intros Hm a b Hab. induction Hab as [| b Hab IH]; [lia |].
  specialize (Hm b). lia.
Qed.

(** Leaving the loop of [doFreeze()] is flowing off the end of it. *)
Lemma doFreeze_done fuel cb d w :
  Display.tempTime d = 0 -> Display.doFreeze fuel cb d w = Undefined w.
Proof.
  intros H. destruct fuel; cbn [Display.doFreeze]; rewrite H; reflexivity.
Qed.

(** [doFreeze()] has no defined return, whatever the clock does and
    however many passes it is given. *)
Lemma doFreeze_never_returns cb : forall fuel d w d' w',
  Display.doFreeze fuel cb d w <> Ret d' w'.
Proof.
  induction fuel as [| fuel IH]; intros d w d' w'; cbn [Display.doFreeze];
    destruct (Display.tempTime d =? 0); try discriminate.
  unfold bind, feedWatchdog.
  destruct (Display.update cb d _) as [d1 w1 | w1 | w1 | w1];
    [apply IH | discriminate | discriminate | discriminate].
Qed.

(** [update()] while a transient message is up. *)
Lemma update_transient cb d w :
  Display.tempTime d <> 0 ->
  let r1 := wrap_ulong (wrap_ulong (clock w (reads w)) - Display.timer d) in
  let r2 := wrap_ulong (wrap_ulong (clock w (S (reads w))) - Display.timerT d) in
  (r1 < DISPLAY_UPDATE_TIME
   /\ Display.update cb d w = Ret d (set_reads (S (reads w)) w))
  \/ (DISPLAY_UPDATE_TIME <= r1 /\ r2 <= wrap_ulong (Display.tempTime d)
      /\ Display.update cb d w = Ret d (set_reads (S (S (reads w))) w))
  \/ (DISPLAY_UPDATE_TIME <= r1 /\ wrap_ulong (Display.tempTime d) < r2
      /\ Display.update cb d w
         = Ret (Display.mk 0 (wrap_ulong (clock w (S (S (S (reads w))))))
                  (Display.timerT d))
               (set_oled
                  (let f := TimeScreen (Z.quot (time_callback cb) 60)
                                       (Z.rem (time_callback cb) 60)
                                       (wrap_u16 (wrap_u16 (index_callback cb + 1) + 0x277F))
                   in f :: f :: oled w)
                  (set_reads (S (S (S (S (reads w))))) w))).
Proof.
  intros Hne r1 r2. unfold Display.update, bind, millis.
  fold r1. destruct (Z.ltb_spec r1 DISPLAY_UPDATE_TIME) as [H1 | H1].
  { left. split; [exact H1 | reflexivity]. }
  destruct (Z.eqb_spec (Display.tempTime d) 0) as [E | _]; [contradiction |].
  cbn [clock reads set_reads]. fold r2.
  destruct (Z.gtb_spec r2 (wrap_ulong (Display.tempTime d))) as [H2 | H2].
  - right; right. split; [exact H1 |]. split; [lia |].
    rewrite printTimeScreen_eq. unfold bind. rewrite printTimeScreen_eq.
    reflexivity.
  - right; left. split; [exact H1 |]. split; [lia | reflexivity].
Qed.

(** The same for a message of 2000 ms on a display that has not
    painted a time screen yet, the millisecond counter not having
    wrapped at the two readings taken. *)
Lemma update_waiting cb d w :
  Display.tempTime d = 2000 ->
  Display.timer d = 0 ->
  0 <= Display.timerT d <= clock w (reads w) ->
  0 <= clock w (reads w) < 4294967296 ->
  clock w (reads w) <= clock w (S (reads w)) < 4294967296 ->
  (clock w (reads w) < 200
   /\ Display.update cb d w = Ret d (set_reads (S (reads w)) w))
  \/ (clock w (S (reads w)) <= Display.timerT d + 2000
      /\ Display.update cb d w = Ret d (set_reads (S (S (reads w))) w))
  \/ (200 <= clock w (reads w)
      /\ Display.timerT d + 2000 < clock w (S (reads w))
      /\ Display.update cb d w
         = Ret (Display.mk 0 (wrap_ulong (clock w (S (S (S (reads w))))))
                  (Display.timerT d))
               (set_oled
                  (let f := TimeScreen (Z.quot (time_callback cb) 60)
                                       (Z.rem (time_callback cb) 60)
                                       (wrap_u16 (wrap_u16 (index_callback cb + 1) + 0x277F))
                   in f :: f :: oled w)
                  (set_reads (S (S (S (S (reads w))))) w))).
Proof.
  intros Htemp Htimer HT B0 B1.
  assert (Hne : Display.tempTime d <> 0) by (rewrite Htemp; discriminate).
  pose proof (update_transient cb d w Hne) as H. cbv zeta in H.
  rewrite Htimer, Htemp, Z.sub_0_r in H.
  rewrite !(wrap_ulong_id (clock w (reads w))) in H by lia.
  rewrite (wrap_ulong_id (clock w (S (reads w)))) in H by lia.
  rewrite (wrap_ulong_id (clock w (S (reads w)) - Display.timerT d)) in H by lia.
  rewrite (wrap_ulong_id 2000) in H by lia.
  unfold DISPLAY_UPDATE_TIME in H.
  destruct H as [(H1 & E) | [(H1 & H2 & E) | (H1 & H2 & E)]].
  - left. split; [lia | exact E].
  - right; left. split; [lia | exact E].
  - right; right. split; [lia |]. split; [lia | exact E].
Qed.

(** The wait of [doFreeze()] for a message of 2000 ms put up at
    [timerT], on a display that has not painted a time screen yet
    ([timer = 0]): when the clock does not run backwards and reaches a
    reading [K] more than 2000 ms after [timerT], the millisecond
    counter not having wrapped by then, the loop is left, on a reading
    more than 2000 ms after [timerT], with the time screen painted
    (twice); and leaving the loop is where the behaviour becomes
    undefined. *)
Lemma doFreeze_waits cb d K : forall n fuel w,
  (K - reads w <= n)%nat -> (n < fuel)%nat ->
  (reads w <= S K)%nat ->
  Display.tempTime d = 2000 ->
  Display.timer d = 0 ->
  0 <= Display.timerT d <= clock w (reads w) ->
  (forall k, (k <= S (S K))%nat -> 0 <= clock w k < 4294967296) ->
  (forall k, clock w k <= clock w (S k)) ->
  Display.timerT d + 2000 < clock w K ->
  exists w' k,
    Display.doFreeze fuel cb d w = Undefined w'
    /\ (reads w < k)%nat
    /\ Display.timerT d + 2000 < clock w k
    /\ clock w' = clock w
    /\ reads w' = S (S (S k))
    /\ gpio w' = gpio w
    /\ EEPROM w' = EEPROM w
    /\ oled w'
       = (let f := TimeScreen (Z.quot (time_callback cb) 60)
                              (Z.rem (time_callback cb) 60)
                              (wrap_u16 (wrap_u16 (index_callback cb + 1) + 0x277F))
          in f :: f :: oled w).
Proof.
  induction n as [| n IH]; intros fuel w Hn Hfuel Hrd Htemp Htimer HT Hb Hm HK.
  all: destruct fuel as [| fuel]; [lia |].
  all: cbn [Display.doFreeze]; rewrite Htemp; cbn [Z.eqb].
  all: unfold bind, feedWatchdog.
  all: pose proof (clock_monotone _ Hm) as Hmono.
  all: pose proof (Hb (reads w) ltac:(lia)) as B0.
  all: pose proof (Hb (S (reads w)) ltac:(lia)) as B1.
  all: pose proof (Hm (reads w)) as M1.
  all: destruct (update_waiting cb d (set_wdr (S (wdr w)) w) Htemp Htimer HT B0
                   ltac:(cbn [clock reads set_wdr]; lia))
         as [(H1 & E) | [(H1 & E) | (H1 & H2 & E)]];
       rewrite E; clear E; cbn [clock reads set_wdr] in *.
  (* n = 0: the clock has reached K already *)
  - pose proof (Hmono K (reads w) ltac:(lia)). lia.
  - pose proof (Hmono K (S (reads w)) ltac:(lia)). lia.
  - rewrite doFreeze_done by reflexivity.
    eexists _, (S (reads w)). split; [reflexivity |].
    cbn [clock reads gpio EEPROM oled set_oled set_reads set_wdr].
    repeat split; try reflexivity; lia.
  (* n > 0 *)
  - assert (reads w < K)%nat.
    { destruct (Nat.lt_ge_cases (reads w) K) as [Hlt | Hge]; [exact Hlt |].
      pose proof (Hmono K (reads w) Hge). lia. }
    destruct (IH fuel (set_reads (S (reads w)) (set_wdr (S (wdr w)) w)))
      as (w' & k & E & Hk & Hlate & Hc & Hr & Hg & He & Ho);
      cbn [clock reads set_reads set_wdr]; try assumption; try lia.
    exists w', k. rewrite E. cbn [clock reads gpio EEPROM oled set_reads set_wdr] in *.
    repeat split; try assumption; lia.
  - assert (S (reads w) < K)%nat.
    { destruct (Nat.lt_ge_cases (S (reads w)) K) as [Hlt | Hge]; [exact Hlt |].
      pose proof (Hmono K (S (reads w)) Hge). lia. }
    destruct (IH fuel (set_reads (S (S (reads w))) (set_wdr (S (wdr w)) w)))
      as (w' & k & E & Hk & Hlate & Hc & Hr & Hg & He & Ho);
      cbn [clock reads set_reads set_wdr]; try assumption; try lia.
    { pose proof (Hmono (reads w) (S (S (reads w))) ltac:(lia)). lia. }
    exists w', k. rewrite E. cbn [clock reads gpio EEPROM oled set_reads set_wdr] in *.
    repeat split; try assumption; lia.
  - rewrite doFreeze_done by reflexivity.
    eexists _, (S (reads w)). split; [reflexivity |].
    cbn [clock reads gpio EEPROM oled set_oled set_reads set_wdr].
    repeat split; try reflexivity; lia.
Qed.

(** While every reading stays within the 2000 ms, the loop of
    [doFreeze()] is still running after any number of passes, each of
    which fed the watchdog and painted nothing. *)
Lemma doFreeze_still_waiting cb d : forall fuel w,
  Display.tempTime d = 2000 ->
  Display.timer d = 0 ->
  0 <= Display.timerT d <= clock w (reads w) ->
  (forall k, (k <= reads w + 2 * fuel)%nat -> 0 <= clock w k < 4294967296) ->
  (forall k, clock w k <= clock w (S k)) ->
  clock w (reads w + 2 * fuel) <= Display.timerT d + 2000 ->
  exists w',
    Display.doFreeze fuel cb d w = Spin w'
    /\ oled w' = oled w /\ gpio w' = gpio w /\ EEPROM w' = EEPROM w
    /\ wdr w' = (fuel + wdr w)%nat.
Proof.
  induction fuel as [| fuel IH]; intros w Htemp Htimer HT Hb Hm Hend;
    cbn [Display.doFreeze]; rewrite Htemp; cbn [Z.eqb].
  { exists w. repeat split; reflexivity. }
  unfold bind, feedWatchdog.
  pose proof (clock_monotone _ Hm) as Hmono.
  pose proof (Hb (reads w) ltac:(lia)) as B0.
  pose proof (Hb (S (reads w)) ltac:(lia)) as B1.
  pose proof (Hm (reads w)) as M1.
  pose proof (Hmono (S (reads w)) (reads w + 2 * S fuel)%nat ltac:(lia)) as M2.
  destruct (update_waiting cb d (set_wdr (S (wdr w)) w) Htemp Htimer HT B0
              ltac:(cbn [clock reads set_wdr]; lia))
    as [(H1 & E) | [(H1 & E) | (H1 & H2 & E)]];
    rewrite E; clear E; cbn [clock reads set_wdr] in *; [| | lia].
  - destruct (IH (set_reads (S (reads w)) (set_wdr (S (wdr w)) w)))
      as (w' & E & Ho & Hg & He & Hw);
      cbn [clock reads set_reads set_wdr]; try assumption; try lia.
    + intros k Hk. apply Hb. lia.
    + pose proof (Hmono (S (reads w) + 2 * fuel)%nat (reads w + 2 * S fuel)%nat
                    ltac:(lia)). lia.
    + exists w'. rewrite E.
      cbn [clock reads gpio oled EEPROM wdr set_reads set_wdr] in *.
      repeat split; try assumption; lia.
  - destruct (IH (set_reads (S (S (reads w))) (set_wdr (S (wdr w)) w)))
      as (w' & E & Ho & Hg & He & Hw);
      cbn [clock reads set_reads set_wdr]; try assumption; try lia.
    + pose proof (Hm (S (reads w))). lia.
    + intros k Hk. apply Hb. lia.
    + replace (S (S (reads w)) + 2 * fuel)%nat with (reads w + 2 * S fuel)%nat
        by lia.
      lia.
    + exists w'. rewrite E.
      cbn [clock reads gpio oled EEPROM wdr set_reads set_wdr] in *.
      repeat split; try assumption; lia.
Qed.

(** ** Start-up with a bad checksum *)

Lemma loadFromEEPROM_eq s w :
  loadFromEEPROM s w
  = Ret (ulong_of_bytes (read_bytes (EEPROM w) 10 4)
           =? crc_loop (EEPROM w) 10 0 (wrap_ulong (Z.lnot 0)),
         set_presetTimes (settings_of_bytes (read_bytes (EEPROM w) 0 10)) s) w.
Proof. reflexivity. Qed.

(** The verdict of [loadFromEEPROM()] depends on the EEPROM alone, and
    what it reads into the store is an array of four. *)
Lemma load_flag_world s w f s' :
  loadFromEEPROM s w = Ret (f, s') w ->
  forall s1 w1,
    EEPROM w1 = EEPROM w ->
    exists ps,
      loadFromEEPROM s1 w1 = Ret (f, set_presetTimes ps s1) w1
      /\ length (data ps) = 4%nat.
Proof.
  rewrite loadFromEEPROM_eq. intros H s1 w1 He.
  rewrite loadFromEEPROM_eq, He.
  assert (Hf : (ulong_of_bytes (read_bytes (EEPROM w) 10 4)
                =? crc_loop (EEPROM w) 10 0 (wrap_ulong (Z.lnot 0))) = f).
  { apply (f_equal (fun o => match o with Ret (a, _) _ => a | _ => f end)) in H.
    exact H. }
  rewrite Hf. eexists. split; reflexivity.
Qed.

Lemma reset_values (ps : SettingsArray Z ITEMS_OF_PRESETTIMES) :
  length (data ps) = 4%nat ->
  snd (Settings.setIndex 0
         (Settings.set 3 1800 (Settings.set 2 600
            (Settings.set 1 300 (Settings.set 0 60 ps)))))
  = mkSettings [60; 300; 600; 1800] 0.
Proof.
  destruct ps as [d i]. cbn [data]. intros Hlen.
  destruct d as [| a [| b [| c [| e [| ? ?]]]]]; try discriminate Hlen.
  reflexivity.
Qed.

(** The recovery branch of [setup()] never comes back to [setup()]:
    it ends in [doFreeze()]. *)
Lemma factory_reset_never_returns fuel s w s' w' :
  factory_reset fuel s w <> Ret s' w'.
Proof.
  unfold factory_reset.
  cbv beta iota zeta delta [bind ret Display.printText Display.freeze
                            sendBuffer millis].
  match goal with |- context [Display.doFreeze fuel ?cb ?d ?v] =>
    pose proof (doFreeze_never_returns cb fuel d v) as Hn;
    destruct (Display.doFreeze fuel cb d v) as [d3 w3 | w3 | w3 | w3]
  end; [exfalso; eapply Hn; reflexivity | discriminate ..].
Qed.

(** The recovery branch of [setup()], entered with a display that has
    painted nothing yet, on a clock that gets past the 2000 ms: the
    store is reset, the message is sent, the wait is sat out, and the
    exit from the wait is undefined. *)
Lemma factory_reset_undefined fuel s w K :
  length (data (presetTimes s)) = 4%nat ->
  display s = Display.make 0 ->
  (forall k, (k <= S (S K))%nat -> 0 <= clock w k < 4294967296) ->
  (forall k, clock w k <= clock w (S k)) ->
  clock w (reads w) + 2000 < clock w K ->
  (K < fuel)%nat ->
  exists w' k,
    factory_reset fuel s w = Undefined w'
    /\ (S (reads w) < k)%nat
    /\ clock w (reads w) + 2000 < clock w k
    /\ clock w' = clock w
    /\ reads w' = S (S (S k))
    /\ gpio w' = gpio w
    /\ EEPROM w' = EEPROM w
    /\ oled w'
       = (let f := TimeScreen (Z.quot (PowerTimer.time (pt s)) 60)
                              (Z.rem (PowerTimer.time (pt s)) 60) 0x2780
          in f :: f :: TextScreen "Er EPR" :: oled w).
Proof.
  intros Hlen Hd Hb Hm HK Hfuel.
  assert (Hrd : (reads w < K)%nat).
  { destruct (Nat.lt_ge_cases (reads w) K) as [Hlt | Hge]; [exact Hlt |].
    pose proof (clock_monotone _ Hm K (reads w) Hge). lia. }
  pose proof (Hb (reads w) ltac:(lia)) as B0.
  unfold factory_reset. rewrite (reset_values _ Hlen).
  cbv zeta. cbn [display set_presetTimes]. rewrite Hd.
  cbv beta iota zeta delta [bind ret Display.printText Display.freeze
                            Display.make sendBuffer millis].
  cbn [clock reads set_oled set_reads display set_presetTimes].
  rewrite (wrap_ulong_id (clock w (reads w))) by exact B0.
  change (wrap_int 2000) with 2000. cbn [Display.timer].
  set (cb := callbacks _).
  set (d2 := Display.mk 2000 0 (clock w (reads w))).
  set (w2 := set_reads _ _).
  destruct (doFreeze_waits cb d2 K K fuel w2)
    as (w' & k & E & Hk & Hlate & Hc & Hr & Hg & He & Ho);
    try assumption; try reflexivity; try lia.
  { subst w2. cbn [reads set_oled set_reads]. lia. }
  { subst d2 w2. cbn [clock reads set_oled set_reads Display.timerT].
    pose proof (Hm (reads w)). lia. }
  rewrite E. subst d2 w2 cb.
  cbn [clock reads gpio EEPROM oled set_oled set_reads Display.timerT] in *.
  exists w', k. split; [reflexivity |].
  repeat split; try assumption; lia.
Qed.

(** The same branch while the 2000 ms have not gone by: the message is
    on the screen, nothing else has been sent, and the wait goes on. *)
Lemma factory_reset_waiting fuel s w :
  length (data (presetTimes s)) = 4%nat ->
  display s = Display.make 0 ->
  (forall k, (k <= S (reads w) + 2 * fuel)%nat -> 0 <= clock w k < 4294967296) ->
  (forall k, clock w k <= clock w (S k)) ->
  clock w (S (reads w) + 2 * fuel) <= clock w (reads w) + 2000 ->
  exists w',
    factory_reset fuel s w = Spin w'
    /\ gpio w' = gpio w
    /\ EEPROM w' = EEPROM w
    /\ oled w' = TextScreen "Er EPR" :: oled w.
Proof.
  intros Hlen Hd Hb Hm Hend.
  pose proof (Hb (reads w) ltac:(lia)) as B0.
  unfold factory_reset. rewrite (reset_values _ Hlen).
  cbv zeta. cbn [display set_presetTimes]. rewrite Hd.
  cbv beta iota zeta delta [bind ret Display.printText Display.freeze
                            Display.make sendBuffer millis].
  cbn [clock reads set_oled set_reads display set_presetTimes].
  rewrite (wrap_ulong_id (clock w (reads w))) by exact B0.
  change (wrap_int 2000) with 2000. cbn [Display.timer].
  set (cb := callbacks _).
  set (d2 := Display.mk 2000 0 (clock w (reads w))).
  set (w2 := set_reads _ _).
  destruct (doFreeze_still_waiting cb d2 fuel w2)
    as (w' & E & Ho & Hg & He & _);
    try reflexivity;
    try (subst d2 w2; cbn [clock reads set_oled set_reads Display.timerT];
         first [assumption | pose proof (Hm (reads w)); lia]).
  rewrite E. subst d2 w2 cb.
  cbn [clock reads gpio EEPROM oled set_oled set_reads] in *.
  exists w'. split; [reflexivity |]. repeat split; assumption.
Qed.

(** C3.  Start-up (the constructors of the globals, then [setup()]) on
    an EEPROM whose checksum does not match.  The code writes the
    factory values into the store ([reset_values]), puts up ["Er EPR"]
    and then waits in [doFreeze()]; it was written to go on from there,
    but [doFreeze()] is declared [bool] and returns nothing, so start-up
    has no defined continuation:

    - whatever the clock does and however long the wait is allowed to
      run, [setup()] does not return;
    - while the clock stays within 2000 ms of the reading at which the
      message was put up, the wait is still going on, with ["Er EPR"]
      the only frame sent, the relay pin at LOW and the EEPROM as found;
    - on a clock that does not run backwards and gets past those
      2000 ms before the millisecond counter wraps, the wait is left on
      a reading more than 2000 ms after the message was put up, the time
      screen having been sent (twice) after ["Er EPR"]; the exit from
      the wait is undefined behaviour, reached with the relay pin still
      at LOW (the countdown was never started) and the EEPROM as found. *)
Theorem C3_mismatch_startup_undefined (PIN_SUPPLY PIN_LED1 : Z) (w : World) :
  (forall s, exists s', loadFromEEPROM s w = Ret (false, s') w) ->
  (forall fuel s' w',
     (s0 <- boot PIN_SUPPLY PIN_LED1 ;; setup PIN_SUPPLY fuel s0) w
     <> Ret s' w')
  /\ (forall fuel,
        (forall k, clock w k <= clock w (S k)) ->
        (forall k, (k <= S (S (reads w)) + 2 * fuel)%nat ->
                   0 <= clock w k < 4294967296) ->
        clock w (S (S (reads w)) + 2 * fuel) <= clock w (S (reads w)) + 2000 ->
        exists w',
          (s0 <- boot PIN_SUPPLY PIN_LED1 ;; setup PIN_SUPPLY fuel s0) w
          = Spin w'
          /\ oled w' = TextScreen "Er EPR" :: oled w
          /\ pin_level PIN_SUPPLY (gpio w') = Some LOW
          /\ EEPROM w' = EEPROM w)
  /\ (forall K fuel,
        (forall k, clock w k <= clock w (S k)) ->
        (forall k, (k <= S (S K))%nat -> 0 <= clock w k < 4294967296) ->
        clock w (S (reads w)) + 2000 < clock w K ->
        (K < fuel)%nat ->
        exists w' k,
          (s0 <- boot PIN_SUPPLY PIN_LED1 ;; setup PIN_SUPPLY fuel s0) w
          = Undefined w'
          /\ oled w' = TimeScreen 0 0 0x2780 :: TimeScreen 0 0 0x2780
                       :: TextScreen "Er EPR" :: oled w
          /\ (S (reads w) < k < reads w')%nat
          /\ clock w (S (reads w)) + 2000 < clock w k
          /\ pin_level PIN_SUPPLY (gpio w') = Some LOW
          /\ EEPROM w' = EEPROM w).
Proof.
  intros Hload.
  assert (Hpre : forall fuel, exists s1 w1,
            (s0 <- boot PIN_SUPPLY PIN_LED1 ;; setup PIN_SUPPLY fuel s0) w
            = (s <- factory_reset fuel s1 ;;
               (let i0 := Settings.set 0 1 (intervals s) in
                let s := set_intervals (Settings.set 1 5 i0) s in
                l <- Led.blink 200 (led1 s) ;;
                let s := set_led1 l s in
                m' <- millis ;;
                (if wrap_ulong (m' - timer s) <? SECURE_START_TIME
                 then delay_ds 1 else ret tt) ;;;
                p <- PowerTimer.start (Settings.current 0 (presetTimes s)) (pt s) ;;
                ret (set_pt (PowerTimer.freeze 5 p) s))) w1
            /\ length (data (presetTimes s1)) = 4%nat
            /\ display s1 = Display.make 0
            /\ PowerTimer.time (pt s1) = 0
            /\ clock w1 = clock w /\ reads w1 = S (reads w)
            /\ oled w1 = oled w /\ EEPROM w1 = EEPROM w
            /\ pin_level PIN_SUPPLY (gpio w1) = Some LOW).
  { intros fuel.
    cbv beta iota zeta delta [boot setup bind ret Led.make PowerTimer.make
                              digitalWrite millis].
    match goal with |- context [loadFromEEPROM ?s ?w1] =>
      destruct (Hload s) as [s' Hl];
      destruct (load_flag_world _ _ _ _ Hl s w1 eq_refl) as (ps & E & Hlen);
      rewrite E; clear E
    end.
    cbv beta iota zeta delta [fst snd].
    eexists _, _. split; [reflexivity |].
    cbn [presetTimes display pt set_presetTimes set_timer PowerTimer.time
         clock reads oled EEPROM gpio set_gpio set_reads pin_level].
    rewrite Z.eqb_refl. repeat split; try reflexivity. exact Hlen. }
  split; [| split].
  - intros fuel s' w'. destruct (Hpre fuel) as (s1 & w1 & E & _). rewrite E.
    unfold bind at 1.
    pose proof (factory_reset_never_returns fuel s1 w1) as Hn.
    destruct (factory_reset fuel s1 w1) as [s2 w2 | w2 | w2 | w2];
      [exfalso; eapply Hn; reflexivity | discriminate ..].
  - intros fuel Hm Hb Hend.
    destruct (Hpre fuel)
      as (s1 & w1 & E & Hlen & Hd & Ht & Hc & Hr & Ho & He & Hp).
    rewrite E. unfold bind at 1.
    destruct (factory_reset_waiting fuel s1 w1 Hlen Hd)
      as (w' & E' & Hg' & He' & Ho'); rewrite ?Hc, ?Hr; try assumption.
    rewrite E'. exists w'. split; [reflexivity |].
    rewrite Ho', Ho, Hg', He', He. repeat split; try reflexivity. exact Hp.
  - intros K fuel Hm Hb HK Hfuel.
    destruct (Hpre fuel)
      as (s1 & w1 & E & Hlen & Hd & Ht & Hc & Hr & Ho & He & Hp).
    rewrite E. unfold bind at 1.
    destruct (factory_reset_undefined fuel s1 w1 K Hlen Hd)
      as (w' & k & E' & Hk & Hlate & Hc' & Hr' & Hg' & He' & Ho');
      rewrite ?Hc, ?Hr; try assumption.
    rewrite E'. exists w', k. split; [reflexivity |].
    rewrite Ht in Ho'. change (Z.quot 0 60) with 0 in Ho'.
    change (Z.rem 0 60) with 0 in Ho'. cbv zeta in Ho'.
    rewrite Hc, Hr in *.
    rewrite Ho', Ho, Hg', He', He.
    repeat split; try reflexivity; try assumption; lia.
Qed.

Lemma C3_mismatch_startup_undefined_witness :
  let w := mkWorld (fun k => 100 * Z.of_nat k) 0 [] [] (fun _ => 255) 0 in
  (forall s, exists s', loadFromEEPROM s w = Ret (false, s') w)
  /\ (exists w', (s0 <- boot 5 6 ;; setup 5 31 s0) w = Undefined w'
                 /\ pin_level 5 (gpio w') = Some LOW)
  /\ forall s' w', (s0 <- boot 5 6 ;; setup 5 31 s0) w <> Ret s' w'.
Proof.
  intros w.
  assert (Hload : forall s, exists s', loadFromEEPROM s w = Ret (false, s') w).
  { intros s. eexists. rewrite loadFromEEPROM_eq.
    assert (E : (ulong_of_bytes (read_bytes (EEPROM w) 10 4)
                 =? crc_loop (EEPROM w) 10 0 (wrap_ulong (Z.lnot 0))) = false)
      by (vm_compute; reflexivity).
    rewrite E. reflexivity. }
  split; [exact Hload |].
  destruct (C3_mismatch_startup_undefined 5 6 w Hload) as (Hnever & _ & Hundef).
  split; [| apply Hnever].
  destruct (Hundef 30%nat 31%nat) as (w' & k & E & _ & _ & _ & Hp & _).
  - intros k. unfold w. cbn [clock]. lia.
  - intros k Hk. unfold w. cbn [clock]. lia.
  - closed.
  - lia.
  - exists w'. split; [exact E | exact Hp].
Defined.

(* ################################################################## *)
(** * Further properties of the code *)
(* ################################################################## *)

(** ** SettingsArray: the index stays inside the array *)

Lemma next_keeps_store (T : Type) (SIZE : Z) (s : SettingsArray T SIZE)
    (cyclic : bool) :
  SIZE <= INT_MAX ->
  0 <= index s < SIZE ->
  0 <= index (snd (Settings.next cyclic s)) < SIZE
  /\ data (snd (Settings.next cyclic s)) = data s.
Proof.
  intros HS Hi. unfold Settings.next.
  rewrite wrap_int_id by int_range.
  destruct (Z.geb_spec (index s + 1) SIZE), cyclic; cbn [snd index data];
    split; try reflexivity; lia.
Qed.

(** X1.  Whatever is asked of a store with a valid index ([next] or
    [prev], cyclic or not, or [setIndex(i)] with any [i]), the index
    stays inside the array and the elements are not touched;
    [setIndex(i)] succeeds exactly when [0 <= i < SIZE], sets the index
    to [i] then, and leaves the store as it is otherwise. *)
Theorem settings_index_stays_valid (T : Type) (SIZE : Z)
    (s : SettingsArray T SIZE) (cyclic : bool) (i : Z) :
  SIZE <= INT_MAX ->
  0 <= index s < SIZE ->
  (0 <= index (snd (Settings.next cyclic s)) < SIZE
   /\ data (snd (Settings.next cyclic s)) = data s)
  /\ (0 <= index (snd (Settings.prev cyclic s)) < SIZE
      /\ data (snd (Settings.prev cyclic s)) = data s)
  /\ (0 <= index (snd (Settings.setIndex i s)) < SIZE
      /\ data (snd (Settings.setIndex i s)) = data s)
  /\ (fst (Settings.setIndex i s) = true <-> 0 <= i < SIZE)
  /\ (0 <= i < SIZE -> index (snd (Settings.setIndex i s)) = i)
  /\ (~ 0 <= i < SIZE -> snd (Settings.setIndex i s) = s).
Proof.
  intros HS Hi.
  assert (Hint : forall z, -1 <= z <= SIZE -> wrap_int z = z).
  { intros z Hz. apply wrap_int_id. int_range. }
  unfold Settings.next, Settings.prev, Settings.setIndex.
  rewrite !Hint by lia.
  destruct (Z.geb_spec (index s + 1) SIZE), (Z.ltb_spec (index s - 1) 0),
    (Z.ltb_spec i 0), (Z.geb_spec i SIZE), cyclic; cbn [orb fst snd index data];
    repeat split; intros; try reflexivity; try discriminate; try lia.
Qed.

Lemma settings_index_stays_valid_witness :
  let s : SettingsArray Z 4 := mkSettings [60; 300; 600; 1800] 3 in
  4 <= INT_MAX
  /\ 0 <= index s < 4
  /\ index (snd (Settings.next true s)) = 0
  /\ snd (Settings.setIndex 4 s) = s.
Proof.
  intros s.
  destruct (settings_index_stays_valid Z 4 s true 4) as (_ & _ & _ & _ & _ & H).
  - unfold INT_MAX. lia.
  - simpl. lia.
  - split; [unfold INT_MAX; lia |]. split; [simpl; lia |].
    split; [reflexivity |]. apply H. lia.
Defined.

(** X2.  [next(true)] and [prev(true)] undo each other on a store with
    a valid index, and a non-cyclic step that succeeded is undone by the
    non-cyclic step the other way. *)
Theorem settings_next_prev_inverse (T : Type) (SIZE : Z)
    (s : SettingsArray T SIZE) :
  SIZE <= INT_MAX ->
  0 <= index s < SIZE ->
  Settings.prev true (snd (Settings.next true s)) = (true, s)
  /\ Settings.next true (snd (Settings.prev true s)) = (true, s)
  /\ (fst (Settings.next false s) = true ->
      Settings.prev false (snd (Settings.next false s)) = (true, s))
  /\ (fst (Settings.prev false s) = true ->
      Settings.next false (snd (Settings.prev false s)) = (true, s)).
Proof.
  intros HS Hi.
  assert (Hint : forall z, -1 <= z <= SIZE -> wrap_int z = z).
  { intros z Hz. apply wrap_int_id. int_range. }
  assert (Hmod : 0 <= (index s + 1) mod SIZE < SIZE /\ 0 <= (index s - 1) mod SIZE < SIZE)
    by (split; apply Z.mod_pos_bound; lia).
  split.
  { rewrite next_cyclic by assumption. cbn [snd].
    rewrite prev_cyclic by (cbn [index]; tauto). cbn [data index].
    rewrite Zminus_mod_idemp_l. replace (index s + 1 - 1) with (index s) by lia.
    rewrite Z.mod_small by lia. rewrite settings_eta. reflexivity. }
  split.
  { rewrite prev_cyclic by assumption. cbn [snd].
    rewrite next_cyclic by (cbn [index]; tauto). cbn [data index].
    rewrite Zplus_mod_idemp_l. replace (index s - 1 + 1) with (index s) by lia.
    rewrite Z.mod_small by lia. rewrite settings_eta. reflexivity. }
  unfold Settings.next, Settings.prev.
  rewrite (Hint (index s + 1)), (Hint (index s - 1)) by lia.
  split.
  - destruct (Z.geb_spec (index s + 1) SIZE); cbn [fst snd index data];
      [intros Hf; discriminate Hf |]. intros _. rewrite Hint by lia.
    destruct (Z.ltb_spec (index s + 1 - 1) 0); [lia |].
    replace (index s + 1 - 1) with (index s) by lia.
    rewrite settings_eta. reflexivity.
  - destruct (Z.ltb_spec (index s - 1) 0); cbn [fst snd index data];
      [intros Hf; discriminate Hf |]. intros _. rewrite Hint by lia.
    destruct (Z.geb_spec (index s - 1 + 1) SIZE); [lia |].
    replace (index s - 1 + 1) with (index s) by lia.
    rewrite settings_eta. reflexivity.
Qed.

Lemma settings_next_prev_inverse_witness :
  let s : SettingsArray Z 2 := mkSettings [1; 5] 1 in
  2 <= INT_MAX
  /\ 0 <= index s < 2
  /\ Settings.prev true (snd (Settings.next true s)) = (true, s).
Proof.
  intros s.
  destruct (settings_next_prev_inverse Z 2 s) as (H & _).
  - unfold INT_MAX. lia.
  - simpl. lia.
  - split; [unfold INT_MAX; lia |]. split; [simpl; lia | exact H].
Defined.

(** ** SettingsArray: writing and reading an element *)

Lemma nth_list_set_same {T} (v d : T) l : forall n,
  (n < length l)%nat -> nth n (list_set n v l) d = v.
Proof.
  induction l as [| h l IH]; intros n Hn; cbn [length] in Hn; [lia |].
  destruct n; cbn [list_set nth]; [reflexivity | apply IH; lia].
Qed.

Lemma nth_list_set_other {T} (v d : T) l : forall n m,
  n <> m -> nth m (list_set n v l) d = nth m l d.
Proof.
  induction l as [| h l IH]; intros n m Hnm; destruct n, m;
    cbn [list_set nth]; try reflexivity; try congruence.
  apply IH. congruence.
Qed.

(** X3.  On a store whose array has [SIZE] elements and whose index is
    valid, [setCurrent(v)] followed by [current()] gives [v]; the write
    changes neither the index nor the length, and every other element
    reads as before.  The same for [s[i] = v] and [s[j]]. *)
Theorem settings_write_read (T : Type) (SIZE : Z) (s : SettingsArray T SIZE)
    (v dflt : T) (i : Z) :
  Z.of_nat (length (data s)) = SIZE ->
  0 <= index s < SIZE ->
  0 <= i < SIZE ->
  Settings.current dflt (Settings.setCurrent v s) = v
  /\ index (Settings.setCurrent v s) = index s
  /\ length (data (Settings.setCurrent v s)) = length (data s)
  /\ (forall j, 0 <= j -> j <> index s ->
      Settings.get dflt j (Settings.setCurrent v s) = Settings.get dflt j s)
  /\ Settings.get dflt i (Settings.set i v s) = v
  /\ index (Settings.set i v s) = index s
  /\ (forall j, 0 <= j -> j <> i ->
      Settings.get dflt j (Settings.set i v s) = Settings.get dflt j s).
Proof.
  intros Hlen Hi Hii.
  unfold Settings.current, Settings.setCurrent, Settings.get, Settings.set.
  cbn [data index].
  split; [apply nth_list_set_same; lia |].
  split; [reflexivity |].
  split; [apply list_set_length |].
  split; [intros j Hj Hne; apply nth_list_set_other; lia |].
  split; [apply nth_list_set_same; lia |].
  split; [reflexivity |].
  intros j Hj Hne. apply nth_list_set_other. lia.
Qed.

Lemma settings_write_read_witness :
  let s : SettingsArray Z 4 := mkSettings [60; 300; 600; 1800] 1 in
  Z.of_nat (length (data s)) = 4
  /\ 0 <= index s < 4
  /\ Settings.current 0 (Settings.setCurrent 420 s) = 420
  /\ Settings.get 0 2 (Settings.setCurrent 420 s) = 600.
Proof.
  intros s.
  destruct (settings_write_read Z 4 s 420 0 2) as (H1 & _ & _ & H2 & _).
  - reflexivity.
  - simpl. lia.
  - lia.
  - split; [reflexivity |]. split; [simpl; lia |].
    split; [exact H1 |]. rewrite H2 by (simpl; lia). reflexivity.
Defined.

(** ** PowerTimer: the freeze, and what update() never does *)

Lemma updates_app (a b : nat) : forall p w,
  PowerTimer.updates (a + b) p w
  = (p' <- PowerTimer.updates a p ;; PowerTimer.updates b p') w.
Proof.
  induction a as [| a IH]; intros p w; [reflexivity |].
  cbn [Nat.add PowerTimer.updates]. unfold bind.
  destruct (PowerTimer.update p w) as [p1 w1 | w1 | w1 | w1]; try reflexivity.
  rewrite IH. reflexivity.
Qed.

(** [n] ticks in a row during a freeze of at least [n] seconds. *)
Lemma updates_frozen_ticks (n : nat) : forall p w j,
  0 < PowerTimer.time p ->
  Z.of_nat n <= PowerTimer.freeze_time p <= INT_MAX ->
  reads w = S j ->
  PowerTimer.timer p = wrap_ulong (clock w j) ->
  (forall i, (i < n)%nat ->
     1000 <= wrap_ulong (clock w (S (j + 2 * i)) - clock w (j + 2 * i))) ->
  PowerTimer.updates n p w
  = Ret (PowerTimer.mk (PowerTimer.pin p) (PowerTimer.logic p)
           (PowerTimer.time p)
           (wrap_ulong (clock w (j + 2 * n)))
           (PowerTimer.freeze_time p - Z.of_nat n))
        (set_reads (S (j + 2 * n)) w).
Proof.
  induction n as [| n IH]; intros p w j Ht Hf Hr Htm Hclk.
  - simpl. rewrite Z.sub_0_r, Nat.add_0_r, <- Htm, <- Hr.
    destruct p, w; reflexivity.
  - cbn [PowerTimer.updates]. unfold bind.
    rewrite update_tick_frozen; [| lia | lia |].
    + rewrite (IH _ _ (S (S j)));
        cbn [PowerTimer.pin PowerTimer.logic PowerTimer.time PowerTimer.timer
             PowerTimer.freeze_time set_reads clock reads gpio oled EEPROM wdr].
      * replace (j + 2 * S n)%nat with (S (S j) + 2 * n)%nat by lia.
        replace (PowerTimer.freeze_time p - Z.of_nat (S n))
          with (PowerTimer.freeze_time p - 1 - Z.of_nat n) by lia.
        reflexivity.
      * exact Ht.
      * lia.
      * rewrite Hr. reflexivity.
      * rewrite Hr. reflexivity.
      * intros i Hi. specialize (Hclk (S i) ltac:(lia)).
        replace (S (S j) + 2 * i)%nat with (j + 2 * S i)%nat by lia.
        exact Hclk.
    + rewrite Hr, Htm, wrap_ulong_sub. specialize (Hclk 0%nat ltac:(lia)).
      rewrite Nat.add_0_r in Hclk. exact Hclk.
Qed.

(** X4.  [start(T)] followed by [freeze(F)], then calls of [update()]
    that each see a tick (at its first reading of the clock a call
    finds 1000 ms or more gone by since the reading that stamped the
    tick reference; the second reading of a call may be anything): the
    first [F] ticks are taken from the freeze counter and leave the
    remaining time at [T]; only then does the remaining time go down,
    one second a tick, so [F + n] ticks leave [T - n].  The relay stays
    energized all along. *)
Theorem freeze_delays_countdown (p : PowerTimer.t) (T F : Z) (m n : nat)
    (w : World) :
  0 < T <= INT_MAX ->
  0 <= F <= INT_MAX ->
  Z.of_nat m <= F ->
  Z.of_nat n <= T ->
  (forall i, (i < Z.to_nat F + n)%nat ->
     1000 <= wrap_ulong (clock w (S (reads w + 2 * i))
                         - clock w (reads w + 2 * i))) ->
  (exists p' w',
     (p1 <- PowerTimer.start T p ;;
      PowerTimer.updates m (PowerTimer.freeze F p1)) w = Ret p' w'
     /\ PowerTimer.time p' = T
     /\ PowerTimer.freeze_time p' = F - Z.of_nat m
     /\ PowerTimer.energized p' w')
  /\ (exists p' w',
        (p1 <- PowerTimer.start T p ;;
         PowerTimer.updates (Z.to_nat F + n) (PowerTimer.freeze F p1)) w
        = Ret p' w'
        /\ PowerTimer.time p' = T - Z.of_nat n
        /\ PowerTimer.freeze_time p' = 0
        /\ PowerTimer.energized p' w').
Proof.
  intros HT HF Hm Hn Hclk.
  unfold bind. rewrite start_eq.
  set (p1 := PowerTimer.freeze F _).
  set (w1 := set_gpio _ _).
  assert (Hfr : forall a, Z.of_nat a <= F ->
            PowerTimer.updates a p1 w1
            = Ret (PowerTimer.mk (PowerTimer.pin p) (PowerTimer.logic p) T
                     (wrap_ulong (clock w (reads w + 2 * a))) (F - Z.of_nat a))
                  (set_reads (S (reads w + 2 * a)) w1)).
  { intros a Ha.
    apply (updates_frozen_ticks a p1 w1 (reads w)); subst p1 w1; simpl;
      try reflexivity; try assumption; try lia.
    intros i Hi. apply Hclk. lia. }
  assert (Hen : forall q k, PowerTimer.pin q = PowerTimer.pin p ->
            PowerTimer.logic q = PowerTimer.logic p ->
            PowerTimer.energized q (set_reads k w1)).
  { intros q k Hp Hl. unfold PowerTimer.energized. subst w1. simpl.
    rewrite Hp, Hl, Z.eqb_refl. reflexivity. }
  split.
  - rewrite Hfr by exact Hm. eexists _, _. split; [reflexivity |].
    split; [reflexivity |]. split; [reflexivity |]. apply Hen; reflexivity.
  - rewrite updates_app. unfold bind. rewrite Hfr by lia.
    rewrite (updates_ticks n _ _ (reads w + 2 * Z.to_nat F)).
    2: cbn [PowerTimer.time]; lia.
    2: cbn [PowerTimer.freeze_time]; lia.
    2: reflexivity.
    2: reflexivity.
    2: { intros i Hi. subst w1. cbn [clock set_gpio set_reads].
         replace (reads w + 2 * Z.to_nat F + 2 * i)%nat
           with (reads w + 2 * (Z.to_nat F + i))%nat by lia.
         apply Hclk. lia. }
    eexists _, _. split; [reflexivity |].
    split; [reflexivity |]. split; [simpl; lia |].
    apply (Hen _ (S (reads w + 2 * Z.to_nat F + 2 * n))); reflexivity.
Qed.

Lemma freeze_delays_countdown_witness :
  let p := PowerTimer.mk 5 true 0 0 0 in
  let w := mkWorld (fun k => 1000 * Z.of_nat (Nat.div2 (S k))) 0 [] []
                   (fun _ => 0) 0 in
  0 < 60 <= INT_MAX
  /\ 0 <= 5 <= INT_MAX
  /\ exists p' w',
       (p1 <- PowerTimer.start 60 p ;;
        PowerTimer.updates (Z.to_nat 5 + 2) (PowerTimer.freeze 5 p1)) w = Ret p' w'
       /\ PowerTimer.time p' = 60 - Z.of_nat 2.
Proof.
  intros p w.
  split; [unfold INT_MAX; lia |]. split; [unfold INT_MAX; lia |].
  destruct (freeze_delays_countdown p 60 5 0 2 w)
    as (_ & p' & w' & H & Ht & _); try (unfold INT_MAX; simpl; lia).
  - intros i Hi. change (Z.to_nat 5 + 2)%nat with 7%nat in Hi.
    do 7 (destruct i as [| i]; [closed |]). lia.
  - exists p', w'. split; assumption.
Defined.

(** One [update()], whatever the clock says. *)
Lemma update_step p w :
  0 <= PowerTimer.time p <= INT_MAX ->
  (PowerTimer.time p = 0
   /\ PowerTimer.update p w = PowerOff (PowerTimer.off_pass p w))
  \/ exists p' w',
       PowerTimer.update p w = Ret p' w'
       /\ 0 < PowerTimer.time p
       /\ PowerTimer.pin p' = PowerTimer.pin p
       /\ PowerTimer.logic p' = PowerTimer.logic p
       /\ PowerTimer.time p - 1 <= PowerTimer.time p' <= PowerTimer.time p
       /\ gpio w' = gpio w /\ oled w' = oled w /\ EEPROM w' = EEPROM w
       /\ clock w' = clock w.
Proof.
  intros Ht. unfold PowerTimer.update.
  destruct (Z.leb_spec (PowerTimer.time p) 0) as [H0 | H0].
  { left. split; [lia | reflexivity]. }
  right. unfold bind, millis, ret.
  destruct (_ >=? 1000); [| eexists _, _; split; [reflexivity |];
                             cbn; repeat split; lia].
  destruct (_ >? 0); eexists _, _; (split; [reflexivity |]);
    cbn [PowerTimer.pin PowerTimer.logic PowerTimer.time gpio oled EEPROM clock
         set_reads];
    rewrite ?wrap_int_id by int_range; repeat split; lia.
Qed.

(** X5.  Any number of [update()] calls on a timer with a remaining
    time within [0, INT_MAX], whatever the clock reads: either all of
    them return, and then the remaining time has only gone down, by at
    most one a call and never below zero, and nothing was written to
    the relay pin, the display or the EEPROM; or one of them found the
    remaining time at zero and entered [off()], with the relay driven
    to its OFF level.  No call spins. *)
Theorem updates_only_count_down (n : nat) : forall (p : PowerTimer.t) (w : World),
  0 <= PowerTimer.time p <= INT_MAX ->
  match PowerTimer.updates n p w with
  | Ret p' w' =>
      0 <= PowerTimer.time p' <= PowerTimer.time p
      /\ PowerTimer.time p - Z.of_nat n <= PowerTimer.time p'
      /\ PowerTimer.pin p' = PowerTimer.pin p
      /\ PowerTimer.logic p' = PowerTimer.logic p
      /\ gpio w' = gpio w /\ oled w' = oled w /\ EEPROM w' = EEPROM w
  | PowerOff w' => PowerTimer.de_energized p w'
  | Spin _ | Undefined _ => False
  end.
Proof.
  induction n as [| n IH]; intros p w Ht.
  - cbn. repeat split; lia.
  - cbn [PowerTimer.updates]. unfold bind.
    destruct (update_step p w Ht)
      as [(H0 & E) | (p1 & w1 & E & H0 & Hp & Hl & Ht1 & Hg & Ho & He & Hc)];
      rewrite E.
    + apply off_pass_de_energized.
    + specialize (IH p1 w1 ltac:(lia)).
      destruct (PowerTimer.updates n p1 w1) as [p2 w2 | w2 | w2 | w2].
      * destruct IH as (A & B & C & D & G1 & G2 & G3).
        repeat split; try lia; congruence.
      * unfold PowerTimer.de_energized in *. rewrite <- Hp, <- Hl. exact IH.
      * exact IH.
      * exact IH.
Qed.

Lemma updates_only_count_down_witness :
  let p := PowerTimer.mk 5 true 2 0 0 in
  let w := mkWorld (fun k => 700 * Z.of_nat k) 0 [(5, true)] [] (fun _ => 0) 0 in
  0 <= PowerTimer.time p <= INT_MAX
  /\ match PowerTimer.updates 4 p w with
     | Ret p' w' => 0 <= PowerTimer.time p' /\ gpio w' = gpio w
     | PowerOff w' => PowerTimer.de_energized p w'
     | Spin _ | Undefined _ => False
     end.
Proof.
  intros p w. split; [closed |].
  pose proof (updates_only_count_down 4 p w ltac:(closed)) as H.
  destruct (PowerTimer.updates 4 p w); [| exact H | exact H | exact H].
  destruct H as ((H1 & _) & _ & _ & _ & H2 & _). split; assumption.
Defined.

(** ** Led: the pin follows the state *)

(** X6.  The constructor, [on()], [off()], [blink()] and [update()]
    all leave the LED pin at the level that [isShining] tells (the ON
    level when shining, the other level when not), and the steady
    states [On] and [Off] in agreement with [isShining]; [update()]
    never changes the state, the pin or the ON level of the LED. *)
Theorem led_pin_follows_state (l : Led.t) (w : World) (pin interval : Z)
    (onState initialState : bool) :
  (exists l' w',
     Led.make pin onState initialState w = Ret l' w'
     /\ led_drives_pin l' w' /\ led_state_agrees l'
     /\ Led.state l' <> LedBlink)
  /\ (exists l' w',
        Led.on l w = Ret l' w'
        /\ led_drives_pin l' w' /\ Led.state l' = LedOn
        /\ Led.isShining l' = true)
  /\ (exists l' w',
        Led.off l w = Ret l' w'
        /\ led_drives_pin l' w' /\ Led.state l' = LedOff
        /\ Led.isShining l' = false)
  /\ (exists l' w',
        Led.blink interval l w = Ret l' w'
        /\ led_drives_pin l' w' /\ Led.state l' = LedBlink
        /\ Led.isShining l' = true
        /\ Led.blinkInterval l' = interval
        /\ Led.timer l' = wrap_ulong (clock w (reads w)))
  /\ (led_drives_pin l w -> led_state_agrees l ->
      exists l' w',
        Led.update l w = Ret l' w'
        /\ led_drives_pin l' w' /\ led_state_agrees l'
        /\ Led.state l' = Led.state l
        /\ Led.pin l' = Led.pin l /\ Led.onState l' = Led.onState l).
Proof.
  unfold led_drives_pin, led_state_agrees.
  split.
  { unfold Led.make, bind, digitalWrite, ret. eexists _, _.
    split; [reflexivity |]. cbn [Led.pin Led.isShining Led.onState Led.state
                                  gpio set_gpio pin_level].
    rewrite Z.eqb_refl. destruct onState, initialState; cbn;
      repeat split; try reflexivity; discriminate. }
  split.
  { unfold Led.on, bind, digitalWrite, ret. eexists _, _.
    split; [reflexivity |]. cbn. rewrite Z.eqb_refl. repeat split; auto. }
  split.
  { unfold Led.off, bind, digitalWrite, ret. eexists _, _.
    split; [reflexivity |]. cbn. rewrite Z.eqb_refl.
    destruct (Led.onState l); repeat split; auto. }
  split.
  { unfold Led.blink, Led.on, Led.set_state, bind, millis, digitalWrite, ret.
    eexists _, _. split; [reflexivity |]. cbn. rewrite Z.eqb_refl. repeat split; auto. }
  intros Hpin Hst. unfold Led.update.
  destruct (Led.state l) eqn:Es;
    try (exists l, w; rewrite Es; repeat split; assumption).
  unfold bind, millis, ret.
  destruct (_ >? _).
  - cbn [Led.isShining].
    destruct (Led.isShining l);
      unfold Led.on, Led.off, Led.set_state, bind, digitalWrite, ret;
      eexists _, _; (split; [reflexivity |]); cbn; rewrite Z.eqb_refl;
      destruct (Led.onState l); repeat split; auto.
  - exists l, (set_reads (S (reads w)) w). rewrite Es. repeat split; auto.
Qed.

Lemma led_pin_follows_state_witness :
  let l := Led.mk 6 true LedBlink true 200 0 in
  let w := mkWorld (fun k => 300 * Z.of_nat k + 300) 0 [(6, true)] [] (fun _ => 0) 0 in
  led_drives_pin l w
  /\ exists l' w',
       Led.update l w = Ret l' w'
       /\ led_drives_pin l' w'
       /\ Led.state l' = LedBlink.
Proof.
  intros l w.
  assert (H : led_drives_pin l w) by reflexivity.
  split; [exact H |].
  destruct (led_pin_follows_state l w 6 200 true false) as (_ & _ & _ & _ & Hu).
  destruct (Hu H I) as (l' & w' & E & Hp & _ & Hs & _).
  exists l', w'. repeat split; assumption.
Defined.

(** X7.  [Led::update()] does nothing at all in the steady states (it
    does not even read the clock); in [Blink] it does nothing but read
    the clock until more than [blinkInterval] ms have gone by since the
    last change of phase, and then it flips the LED (one write to the
    pin), restarts the phase at the clock reading it takes next, and
    stays in [Blink]. *)
Theorem led_update_cases (l : Led.t) (w : World) :
  (Led.state l <> LedBlink -> Led.update l w = Ret l w)
  /\ (Led.state l = LedBlink ->
      wrap_ulong (wrap_ulong (clock w (reads w)) - Led.timer l) <= Led.blinkInterval l ->
      Led.update l w = Ret l (set_reads (S (reads w)) w))
  /\ (Led.state l = LedBlink ->
      Led.blinkInterval l < wrap_ulong (wrap_ulong (clock w (reads w)) - Led.timer l) ->
      exists l' w',
        Led.update l w = Ret l' w'
        /\ Led.isShining l' = negb (Led.isShining l)
        /\ Led.state l' = LedBlink
        /\ Led.timer l' = wrap_ulong (clock w (S (reads w)))
        /\ Led.blinkInterval l' = Led.blinkInterval l
        /\ gpio w' = (Led.pin l, if Led.isShining l then negb (Led.onState l)
                                 else Led.onState l) :: gpio w
        /\ reads w' = S (S (reads w))).
Proof.
  unfold Led.update. split.
  { intros H. destruct (Led.state l); try reflexivity. contradiction. }
  split.
  { intros Es He. rewrite Es. unfold bind, millis, ret.
    destruct (Z.gtb_spec (wrap_ulong (wrap_ulong (clock w (reads w)) - Led.timer l))
                (Led.blinkInterval l)); [lia | reflexivity]. }
  intros Es He. rewrite Es. unfold bind, millis, ret.
  destruct (Z.gtb_spec (wrap_ulong (wrap_ulong (clock w (reads w)) - Led.timer l))
              (Led.blinkInterval l)); [| lia].
  cbn [Led.isShining].
  destruct (Led.isShining l);
    unfold Led.on, Led.off, Led.set_state, bind, digitalWrite, ret;
    eexists _, _; (split; [reflexivity |]); cbn;
    destruct (Led.onState l); auto 10.
Qed.

Lemma led_update_cases_witness :
  let l := Led.mk 6 true LedBlink true 200 0 in
  let w := mkWorld (fun k => 300 * Z.of_nat k + 300) 0 [(6, true)] [] (fun _ => 0) 0 in
  Led.state l = LedBlink
  /\ exists l' w',
       Led.update l w = Ret l' w'
       /\ Led.isShining l' = false
       /\ pin_level 6 (gpio w') = Some false.
Proof.
  intros l w. split; [reflexivity |].
  destruct (led_update_cases l w) as (_ & _ & H).
  destruct H as (l' & w' & E & Hs & _ & _ & _ & Hg & _); [reflexivity | closed |].
  exists l', w'. split; [exact E |]. split; [exact Hs |]. rewrite Hg. reflexivity.
Defined.

(** ** Display: a transient message and the wait for it *)

(** [update()] while a transient message is up, the stamps of the
    display lying in the past and the millisecond counter not having
    wrapped at the two readings taken. *)
Lemma update_pending cb d w :
  0 < Display.tempTime d <= INT_MAX ->
  0 <= Display.timer d <= clock w (reads w) ->
  0 <= Display.timerT d <= clock w (reads w) ->
  clock w (reads w) < 4294967296 ->
  clock w (reads w) <= clock w (S (reads w)) < 4294967296 ->
  (clock w (reads w) < Display.timer d + 200
   /\ Display.update cb d w = Ret d (set_reads (S (reads w)) w))
  \/ (clock w (S (reads w)) <= Display.timerT d + Display.tempTime d
      /\ Display.update cb d w = Ret d (set_reads (S (S (reads w))) w))
  \/ (Display.timer d + 200 <= clock w (reads w)
      /\ Display.timerT d + Display.tempTime d < clock w (S (reads w))
      /\ Display.update cb d w
         = Ret (Display.mk 0 (wrap_ulong (clock w (S (S (S (reads w))))))
                  (Display.timerT d))
               (set_oled
                  (let f := TimeScreen (Z.quot (time_callback cb) 60)
                                       (Z.rem (time_callback cb) 60)
                                       (wrap_u16 (wrap_u16 (index_callback cb + 1) + 0x277F))
                   in f :: f :: oled w)
                  (set_reads (S (S (S (S (reads w))))) w))).
Proof.
  intros Htemp Htimer HT B0 B1.
  assert (Hne : Display.tempTime d <> 0) by lia.
  pose proof (update_transient cb d w Hne) as H. cbv zeta in H.
  rewrite (wrap_ulong_id (clock w (reads w))) in H by lia.
  rewrite (wrap_ulong_id (clock w (S (reads w)))) in H by lia.
  rewrite (wrap_ulong_id (clock w (reads w) - Display.timer d)) in H by lia.
  rewrite (wrap_ulong_id (clock w (S (reads w)) - Display.timerT d)) in H by lia.
  rewrite (wrap_ulong_id (Display.tempTime d)) in H by int_range.
  unfold DISPLAY_UPDATE_TIME in H.
  destruct H as [(H1 & E) | [(H1 & H2 & E) | (H1 & H2 & E)]].
  - left. split; [lia | exact E].
  - right; left. split; [lia | exact E].
  - right; right. split; [lia |]. split; [lia | exact E].
Qed.

Lemma display_updates_pending cb d TT (n : nat) : forall w,
  0 < Display.tempTime d <= INT_MAX ->
  Display.timerT d = TT ->
  0 <= Display.timer d <= clock w (reads w) ->
  0 <= TT <= clock w (reads w) ->
  (forall k, (k <= reads w + 2 * n)%nat -> clock w k < 4294967296) ->
  (forall k, clock w k <= clock w (S k)) ->
  clock w (reads w + 2 * n) <= TT + Display.tempTime d ->
  exists w',
    display_updates n cb d w = Ret d w'
    /\ oled w' = oled w /\ gpio w' = gpio w /\ EEPROM w' = EEPROM w
    /\ clock w' = clock w
    /\ (reads w <= reads w' <= reads w + 2 * n)%nat.
Proof.
  induction n as [| n IH]; intros w Htemp HTT Htimer HT Hb Hm Hend.
  { exists w. repeat split; try reflexivity; lia. }
  cbn [display_updates]. unfold bind.
  pose proof (clock_monotone _ Hm) as Hmono.
  pose proof (Hb (reads w) ltac:(lia)) as B0.
  pose proof (Hb (S (reads w)) ltac:(lia)) as B1.
  pose proof (Hm (reads w)) as M1.
  pose proof (Hmono (S (reads w)) (reads w + 2 * S n)%nat ltac:(lia)) as M2.
  destruct (update_pending cb d w Htemp Htimer ltac:(lia) B0 ltac:(lia))
    as [(H1 & E) | [(H1 & E) | (H1 & H2 & E)]]; rewrite E; clear E; [| | lia].
  - destruct (IH (set_reads (S (reads w)) w)) as (w' & E & Ho & Hg & He & Hc & Hr);
      cbn [clock reads set_reads]; try assumption; try lia.
    + intros k Hk. apply Hb. lia.
    + pose proof (Hmono (S (reads w) + 2 * n)%nat (reads w + 2 * S n)%nat ltac:(lia)).
      lia.
    + exists w'. rewrite E. cbn [clock reads gpio oled EEPROM set_reads] in *.
      repeat split; try assumption; lia.
  - destruct (IH (set_reads (S (S (reads w))) w)) as (w' & E & Ho & Hg & He & Hc & Hr);
      cbn [clock reads set_reads]; try assumption; try lia.
    + pose proof (Hm (S (reads w))). lia.
    + pose proof (Hm (S (reads w))). lia.
    + intros k Hk. apply Hb. lia.
    + replace (S (S (reads w)) + 2 * n)%nat with (reads w + 2 * S n)%nat by lia.
      lia.
    + exists w'. rewrite E. cbn [clock reads gpio oled EEPROM set_reads] in *.
      repeat split; try assumption; lia.
Qed.

(** X8.  After [freeze(D)], [0 < D <= INT_MAX], no [update()] paints
    while the clock reads no more than [D] ms past the reading taken by
    [freeze()]: [n] calls in a row whose readings all lie within those
    [D] ms leave the display state, the frames sent and the pins as they
    were (the clock not running backwards, the counter not wrapped, the
    time stamp of the last time-screen paint in the past). *)
Theorem transient_message_stays_up (cb : Callbacks) (d : Display.t) (D : Z)
    (n : nat) (w : World) :
  0 < D <= INT_MAX ->
  0 <= Display.timer d <= clock w (reads w) ->
  (forall k, (k <= S (reads w) + 2 * n)%nat -> clock w k < 4294967296) ->
  (forall k, clock w k <= clock w (S k)) ->
  clock w (S (reads w) + 2 * n) <= clock w (reads w) + D ->
  exists w',
    (d1 <- Display.freeze D d ;; display_updates n cb d1) w
    = Ret (Display.mk D (Display.timer d) (clock w (reads w))) w'
    /\ oled w' = oled w /\ gpio w' = gpio w.
Proof.
  intros HD Htimer Hb Hm Hend.
  cbv beta iota delta [bind Display.freeze millis ret].
  rewrite (wrap_int_id D) by int_range.
  rewrite (wrap_ulong_id (clock w (reads w)))
    by (split; [lia | apply Hb; lia]).
  destruct (display_updates_pending cb
              (Display.mk D (Display.timer d) (clock w (reads w)))
              (clock w (reads w)) n (set_reads (S (reads w)) w))
    as (w' & E & Ho & Hg & _);
    cbn [Display.tempTime Display.timer Display.timerT clock reads set_reads];
    try assumption; try reflexivity; try lia.
  - pose proof (Hm (reads w)). lia.
  - pose proof (Hm (reads w)). lia.
  - exists w'. rewrite E. auto.
Qed.

Lemma transient_message_stays_up_witness :
  let cb := mkCallbacks 125 0 1 in
  let d := Display.mk 0 0 0 in
  let w := mkWorld (fun k => 1000 + 100 * Z.of_nat k) 0 [] [] (fun _ => 0) 0 in
  0 < 2000 <= INT_MAX
  /\ exists w',
       (d1 <- Display.freeze 2000 d ;; display_updates 9 cb d1) w
       = Ret (Display.mk 2000 0 1000) w'
       /\ oled w' = [].
Proof.
  intros cb d w. split; [closed |].
  destruct (transient_message_stays_up cb d 2000 9 w) as (w' & E & Ho & _).
  - closed.
  - closed.
  - intros k Hk. unfold w in *. cbn [clock reads] in *. lia.
  - intros k. unfold w. cbn [clock]. lia.
  - closed.
  - exists w'. split; [exact E | exact Ho].
Defined.




(** ** The checksum: one corrupted byte always shows *)

Lemma crc_step_nibbles crc byte :
  crc_step crc byte
  = wrap_ulong (Z.lnot (crc_nibble (crc_nibble crc byte) (Z.shiftr byte 4))).
Proof. reflexivity. Qed.

Lemma land_lxor_distr a b c :
  Z.land (Z.lxor a b) c = Z.lxor (Z.land a c) (Z.land b c).
Proof.
  apply Z.bits_inj'. intros k Hk.
  rewrite !Z.land_spec, !Z.lxor_spec, !Z.land_spec.
  destruct (Z.testbit a k), (Z.testbit b k), (Z.testbit c k); reflexivity.
Qed.

Lemma lxor_cancel_l a b c : Z.lxor a b = Z.lxor a c -> b = c.
Proof.
  intros H.
  assert (E : Z.lxor a (Z.lxor a b) = Z.lxor a (Z.lxor a c)) by (rewrite H; reflexivity).
  rewrite <- !Z.lxor_assoc, Z.lxor_nilpotent, !Z.lxor_0_l in E. exact E.
Qed.

Lemma lxor_bound n a b :
  0 <= n -> 0 <= a < 2 ^ n -> 0 <= b < 2 ^ n -> 0 <= Z.lxor a b < 2 ^ n.
Proof.
  intros Hn Ha Hb.
  assert (H0 : 0 <= Z.lxor a b) by (apply Z.lxor_nonneg; lia).
  split; [exact H0 |].
  destruct (Z.eq_dec a 0) as [-> | Ha0]; [rewrite Z.lxor_0_l; lia |].
  destruct (Z.eq_dec b 0) as [-> | Hb0]; [rewrite Z.lxor_0_r; lia |].
  destruct (Z.eq_dec (Z.lxor a b) 0) as [-> | Hx0]; [lia |].
  apply Z.log2_lt_pow2; [lia |].
  pose proof (Z.log2_lxor a b ltac:(lia) ltac:(lia)).
  assert (Z.log2 a < n) by (apply Z.log2_lt_pow2; lia).
  assert (Z.log2 b < n) by (apply Z.log2_lt_pow2; lia).
  lia.
Qed.

Lemma nibble_index_range x : 0 <= Z.land x 0x0f < 16.
Proof.
  change 0x0f with (Z.ones 4). rewrite Z.land_ones by lia.
  change (2 ^ 4) with 16. apply Z.mod_pos_bound. lia.
Qed.

Lemma index_cases i :
  0 <= i < 16 ->
  i = 0 \/ i = 1 \/ i = 2 \/ i = 3 \/ i = 4 \/ i = 5 \/ i = 6 \/ i = 7 \/
  i = 8 \/ i = 9 \/ i = 10 \/ i = 11 \/ i = 12 \/ i = 13 \/ i = 14 \/ i = 15.
Proof. lia. Qed.

Ltac each_index H :=
  destruct (index_cases _ H) as
    [-> | [-> | [-> | [-> | [-> | [-> | [-> | [-> |
    [-> | [-> | [-> | [-> | [-> | [-> | [-> | ->]]]]]]]]]]]]]]].

(** The entries of the table are 32 bits wide and differ in their top
    nibbles. *)
Lemma crc_table_range i :
  0 <= i < 16 -> 0 <= nth (Z.to_nat i) crc_table 0 < 4294967296.
Proof. intros H. each_index H; vm_compute; split; congruence. Qed.

Lemma crc_table_top i j :
  0 <= i < 16 -> 0 <= j < 16 ->
  Z.shiftr (nth (Z.to_nat i) crc_table 0) 28
  = Z.shiftr (nth (Z.to_nat j) crc_table 0) 28 ->
  i = j.
Proof.
  intros Hi Hj. each_index Hi; each_index Hj; vm_compute; congruence.
Qed.

(** What a nibble step gives away: the table entry used and the crc
    it came from. *)
Lemma crc_nibble_decode c n :
  0 <= c < 4294967296 ->
  let t := nth (Z.to_nat (Z.land (Z.lxor c n) 0x0f)) crc_table 0 in
  0 <= crc_nibble c n < 4294967296
  /\ Z.shiftr (crc_nibble c n) 28 = Z.shiftr t 28
  /\ Z.lxor t (crc_nibble c n) = Z.shiftr c 4.
Proof.
  intros Hc t.
  pose proof (crc_table_range _ (nibble_index_range (Z.lxor c n))) as Ht.
  fold t in Ht.
  assert (Hh : 0 <= Z.shiftr c 4 < 2 ^ 28).
  { rewrite Z.shiftr_div_pow2 by lia. change (2 ^ 4) with 16.
    change (2 ^ 28) with 268435456. split.
    - apply Z.div_pos; lia.
    - apply Z.div_lt_upper_bound; lia. }
  assert (Hx : 0 <= Z.lxor t (Z.shiftr c 4) < 2 ^ 32).
  { apply lxor_bound; [lia | change (2 ^ 32) with 4294967296; lia |].
    change (2 ^ 32) with 4294967296. change (2 ^ 28) with 268435456 in Hh. lia. }
  unfold crc_nibble. fold t.
  rewrite wrap_ulong_id by (change (2 ^ 32) with 4294967296 in Hx; exact Hx).
  split; [change (2 ^ 32) with 4294967296 in Hx; exact Hx |].
  split.
  - rewrite Z.shiftr_lxor, Z.shiftr_shiftr by lia.
    assert (E : Z.shiftr c (4 + 28) = 0).
    { rewrite Z.shiftr_div_pow2 by lia. apply Z.div_small.
      change (2 ^ (4 + 28)) with 4294967296. lia. }
    rewrite E, Z.lxor_0_r. reflexivity.
  - rewrite <- Z.lxor_assoc, Z.lxor_nilpotent, Z.lxor_0_l. reflexivity.
Qed.

Lemma nibbles_make_number c c' :
  Z.shiftr c 4 = Z.shiftr c' 4 -> Z.land c 0x0f = Z.land c' 0x0f -> c = c'.
Proof.
  change 0x0f with (Z.ones 4). rewrite !Z.land_ones, !Z.shiftr_div_pow2 by lia.
  change (2 ^ 4) with 16. intros Hq Hr.
  rewrite (Z.div_mod c 16), (Z.div_mod c' 16) by lia. rewrite Hq, Hr. reflexivity.
Qed.

(** A nibble step is one to one in the crc... *)
Lemma crc_nibble_inj_crc c c' n :
  0 <= c < 4294967296 -> 0 <= c' < 4294967296 ->
  crc_nibble c n = crc_nibble c' n -> c = c'.
Proof.
  intros Hc Hc' E.
  destruct (crc_nibble_decode c n Hc) as (_ & Htop & Hh).
  destruct (crc_nibble_decode c' n Hc') as (_ & Htop' & Hh').
  rewrite E in Htop, Hh. rewrite Htop' in Htop.
  apply crc_table_top in Htop; try apply nibble_index_range.
  rewrite <- Htop in Hh. rewrite Hh' in Hh.
  apply nibbles_make_number; [symmetry; exact Hh |].
  rewrite !land_lxor_distr in Htop.
  rewrite (Z.lxor_comm (Z.land c' 15)), (Z.lxor_comm (Z.land c 15)) in Htop.
  apply lxor_cancel_l in Htop. symmetry. exact Htop.
Qed.

(** ... and, the crc fixed, in the nibble. *)
Lemma crc_nibble_inj_nibble c n n' :
  0 <= c < 4294967296 ->
  crc_nibble c n = crc_nibble c n' -> Z.land n 0x0f = Z.land n' 0x0f.
Proof.
  intros Hc E.
  destruct (crc_nibble_decode c n Hc) as (_ & Htop & _).
  destruct (crc_nibble_decode c n' Hc) as (_ & Htop' & _).
  rewrite E, Htop' in Htop.
  apply crc_table_top in Htop; try apply nibble_index_range.
  rewrite !land_lxor_distr in Htop. apply lxor_cancel_l in Htop.
  symmetry. exact Htop.
Qed.

Lemma crc_nibble_range c n : 0 <= crc_nibble c n < 4294967296.
Proof. unfold crc_nibble. apply wrap_ulong_range. Qed.

Lemma lnot_inj_ulong x y :
  0 <= x < 4294967296 -> 0 <= y < 4294967296 ->
  wrap_ulong (Z.lnot x) = wrap_ulong (Z.lnot y) -> x = y.
Proof.
  intros Hx Hy. unfold wrap_ulong, Z.lnot.
  replace (Z.pred (- x)) with (4294967295 - x + (-1) * 4294967296) by lia.
  replace (Z.pred (- y)) with (4294967295 - y + (-1) * 4294967296) by lia.
  rewrite !Z.mod_add, !Z.mod_small by lia. lia.
Qed.

Lemma crc_step_inj_crc c c' b :
  0 <= c < 4294967296 -> 0 <= c' < 4294967296 ->
  crc_step c b = crc_step c' b -> c = c'.
Proof.
  intros Hc Hc'. rewrite !crc_step_nibbles. intros E.
  apply lnot_inj_ulong in E; try apply crc_nibble_range.
  apply crc_nibble_inj_crc in E; try apply crc_nibble_range.
  apply crc_nibble_inj_crc in E; assumption.
Qed.

Lemma crc_step_inj_byte c b b' :
  0 <= c < 4294967296 -> 0 <= b < 256 -> 0 <= b' < 256 ->
  crc_step c b = crc_step c b' -> b = b'.
Proof.
  intros Hc Hb Hb'. rewrite !crc_step_nibbles. intros E.
  apply lnot_inj_ulong in E; try apply crc_nibble_range.
  pose proof (crc_nibble_range c b) as R1.
  pose proof (crc_nibble_range c b') as R1'.
  destruct (crc_nibble_decode _ (Z.shiftr b 4) R1) as (_ & Htop2 & Hh2).
  destruct (crc_nibble_decode _ (Z.shiftr b' 4) R1') as (_ & Htop2' & Hh2').
  rewrite E in Htop2, Hh2. rewrite Htop2' in Htop2.
  apply crc_table_top in Htop2; try apply nibble_index_range.
  rewrite Htop2 in Hh2'. rewrite Hh2 in Hh2'.
  (* the first steps agree above their low nibbles, so in their top nibbles *)
  assert (H28 : Z.shiftr (crc_nibble c b) 28 = Z.shiftr (crc_nibble c b') 28).
  { change 28 with (4 + 24). rewrite <- !Z.shiftr_shiftr by lia.
    rewrite Hh2'. reflexivity. }
  destruct (crc_nibble_decode c b Hc) as (_ & Htop1 & Hh1).
  destruct (crc_nibble_decode c b' Hc) as (_ & Htop1' & Hh1').
  rewrite Htop1, Htop1' in H28.
  apply crc_table_top in H28; try apply nibble_index_range.
  assert (Hlow : Z.land b 0x0f = Z.land b' 0x0f).
  { rewrite !land_lxor_distr in H28. apply lxor_cancel_l in H28. exact H28. }
  assert (E1 : crc_nibble c b = crc_nibble c b').
  { rewrite <- H28 in Hh1'. rewrite <- Hh1 in Hh1'.
    apply lxor_cancel_l in Hh1'. symmetry. exact Hh1'. }
  rewrite <- E1 in Htop2.
  rewrite !land_lxor_distr in Htop2. apply lxor_cancel_l in Htop2.
  apply nibbles_make_number; [| exact Hlow].
  assert (Hs : forall x, 0 <= x < 256 -> Z.land (Z.shiftr x 4) 0x0f = Z.shiftr x 4).
  { intros x Hx. change 0x0f with (Z.ones 4). rewrite Z.land_ones by lia.
    rewrite Z.shiftr_div_pow2 by lia. change (2 ^ 4) with 16.
    apply Z.mod_small. split; [apply Z.div_pos; lia |].
    apply Z.div_lt_upper_bound; lia. }
  rewrite !Hs in Htop2 by assumption. symmetry. exact Htop2.
Qed.

Lemma EEPROM_read_range e a : 0 <= EEPROM_read e a < 256.
Proof. unfold EEPROM_read, wrap_u8. apply Z.mod_pos_bound. lia. Qed.

Lemma crc_loop_ext_read e e' n : forall i c,
  (forall x, i <= x < i + Z.of_nat n -> EEPROM_read e x = EEPROM_read e' x) ->
  crc_loop e n i c = crc_loop e' n i c.
Proof.
  induction n as [| n IH]; intros i c H; [reflexivity |].
  cbn [crc_loop]. rewrite (H i) by lia.
  apply IH. intros x Hx. apply H. lia.
Qed.

Lemma read_bytes_ext_read e e' n : forall a,
  (forall x, a <= x < a + Z.of_nat n -> EEPROM_read e x = EEPROM_read e' x) ->
  read_bytes e a n = read_bytes e' a n.
Proof.
  induction n as [| n IH]; intros a H; [reflexivity |].
  cbn [read_bytes]. rewrite (H a) by lia.
  f_equal. apply IH. intros x Hx. apply H. lia.
Qed.

Lemma crc_loop_inj e n : forall i c c',
  0 <= c < 4294967296 -> 0 <= c' < 4294967296 ->
  crc_loop e n i c = crc_loop e n i c' -> c = c'.
Proof.
  induction n as [| n IH]; intros i c c' Hc Hc' E; [exact E |].
  cbn [crc_loop] in E.
  apply IH in E; try (unfold crc_step; apply wrap_ulong_range).
  apply crc_step_inj_crc in E; assumption.
Qed.

Lemma crc_loop_detects e e' k n : forall i c,
  0 <= c < 4294967296 ->
  i <= k < i + Z.of_nat n ->
  (forall x, i <= x < i + Z.of_nat n -> x <> k ->
             EEPROM_read e x = EEPROM_read e' x) ->
  EEPROM_read e k <> EEPROM_read e' k ->
  crc_loop e n i c <> crc_loop e' n i c.
Proof.
  induction n as [| n IH]; intros i c Hc Hk Hsame Hdiff; [lia |].
  cbn [crc_loop].
  destruct (Z.eq_dec i k) as [-> | Hne].
  - rewrite (crc_loop_ext_read e e' n) by (intros x Hx; apply Hsame; lia).
    intros E. apply crc_loop_inj in E;
      try (unfold crc_step; apply wrap_ulong_range).
    apply crc_step_inj_byte in E; try apply EEPROM_read_range; auto.
  - rewrite (Hsame i) by lia.
    apply IH; try assumption; try lia.
    + unfold crc_step; apply wrap_ulong_range.
    + intros x Hx Hxk. apply Hsame; lia.
Qed.

(** X10.  Two EEPROM contents that read the same in the first [length]
    cells but for one cell get different checksums from
    [crcCompute(length)]: a corruption confined to one byte of the
    image never goes unnoticed. *)
Theorem crc_detects_one_byte (length k : Z) (w w' : World) :
  0 <= k < length ->
  (forall a, 0 <= a < length -> a <> k ->
             EEPROM_read (EEPROM w) a = EEPROM_read (EEPROM w') a) ->
  EEPROM_read (EEPROM w) k <> EEPROM_read (EEPROM w') k ->
  exists c c',
    crcCompute length w = Ret c w
    /\ crcCompute length w' = Ret c' w'
    /\ c <> c'.
Proof.
  intros Hk Hsame Hdiff. unfold crcCompute. eexists _, _.
  split; [reflexivity |]. split; [reflexivity |].
  apply (crc_loop_detects _ _ k); try assumption.
  - apply wrap_ulong_range.
  - rewrite Z2Nat.id by lia. lia.
  - intros x Hx. apply Hsame. rewrite Z2Nat.id in Hx by lia. lia.
Qed.

Lemma crc_detects_one_byte_witness :
  let w := mkWorld (fun _ => 0) 0 [] [] (fun a => a) 0 in
  let w' := mkWorld (fun _ => 0) 0 [] [] (fun a => if a =? 3 then 7 else a) 0 in
  0 <= 3 < 10
  /\ exists c c',
       crcCompute 10 w = Ret c w /\ crcCompute 10 w' = Ret c' w' /\ c <> c'.
Proof.
  intros w w'. split; [lia |].
  apply (crc_detects_one_byte 10 3 w w').
  - lia.
  - intros a Ha Hne. unfold w, w', EEPROM_read. cbn [EEPROM].
    destruct (Z.eqb_spec a 3); [contradiction | reflexivity].
  - closed.
Defined.

Lemma saveToEEPROM_eq s w :
  saveToEEPROM s w
  = Ret (set_presetTimes
           (Settings.setCurrent (PowerTimer.getTime (pt s)) (presetTimes s)) s)
        (set_EEPROM
           (let e1 := write_bytes 0
                        (settings_bytes
                           (Settings.setCurrent (PowerTimer.getTime (pt s))
                              (presetTimes s)))
                        (EEPROM w) in
            write_bytes 10
              (ulong_bytes (crc_loop e1 10 0 (wrap_ulong (Z.lnot 0)))) e1)
           w).
Proof. reflexivity. Qed.

(** X11.  After [saveToEEPROM()], whatever the store held: if exactly
    one of the fourteen cells written (image or checksum) reads
    differently when [loadFromEEPROM()] runs, the load reports a
    mismatch. *)
Theorem load_detects_one_corrupted_cell (s s1 s2 : Sys) (w w1 w2 : World) (k : Z) :
  saveToEEPROM s w = Ret s1 w1 ->
  0 <= k < 14 ->
  (forall a, 0 <= a < 14 -> a <> k ->
             EEPROM_read (EEPROM w2) a = EEPROM_read (EEPROM w1) a) ->
  EEPROM_read (EEPROM w2) k <> EEPROM_read (EEPROM w1) k ->
  exists s', loadFromEEPROM s2 w2 = Ret (false, s') w2.
Proof.
  rewrite saveToEEPROM_eq. intros Hsave Hk Hsame Hdiff.
  apply (f_equal (fun o => match o with Ret _ v => EEPROM v | _ => EEPROM w end))
    in Hsave.
  cbv beta iota zeta in Hsave. cbn [EEPROM set_EEPROM] in Hsave.
  set (init := wrap_ulong (Z.lnot 0)) in *.
  set (e1 := write_bytes 0 _ (EEPROM w)) in *.
  set (c := crc_loop e1 10 0 init) in *.
  assert (Hc : 0 <= c < 4294967296).
  { subst c. apply crc_loop_range. subst init. apply wrap_ulong_range. }
  assert (Hsum : crc_loop (EEPROM w1) 10 0 init = c).
  { rewrite <- Hsave. subst c. apply crc_loop_ext. intros x Hx.
    apply write_bytes_outside. cbn [length ulong_bytes]. lia. }
  assert (Hsaved : ulong_of_bytes (read_bytes (EEPROM w1) 10 4) = c).
  { rewrite <- Hsave. rewrite (read_bytes_written (ulong_bytes c)).
    apply ulong_bytes_roundtrip. exact Hc. }
  rewrite loadFromEEPROM_eq. fold init. eexists.
  assert (Hflag : (ulong_of_bytes (read_bytes (EEPROM w2) 10 4)
                   =? crc_loop (EEPROM w2) 10 0 init) = false);
    [| rewrite Hflag; reflexivity].
  apply Z.eqb_neq.
  destruct (Z_lt_ge_dec k 10) as [Himg | Hcrc].
  - (* a byte of the image *)
    rewrite (read_bytes_ext_read _ (EEPROM w1)) by (intros x Hx; apply Hsame; lia).
    rewrite Hsaved, <- Hsum.
    intros E. symmetry in E. revert E.
    apply (crc_loop_detects _ _ k); try assumption; try lia.
    + subst init. apply wrap_ulong_range.
    + intros x Hx Hne. apply Hsame; lia.
  - (* a byte of the stored checksum *)
    rewrite (crc_loop_ext_read _ (EEPROM w1)) by (intros x Hx; apply Hsame; lia).
    rewrite Hsum, <- Hsaved.
    cbn [read_bytes]. unfold ulong_of_bytes. cbn [nth].
    pose proof (EEPROM_read_range (EEPROM w1) 10).
    pose proof (EEPROM_read_range (EEPROM w1) (10 + 1)).
    pose proof (EEPROM_read_range (EEPROM w1) (10 + 1 + 1)).
    pose proof (EEPROM_read_range (EEPROM w1) (10 + 1 + 1 + 1)).
    pose proof (EEPROM_read_range (EEPROM w2) 10).
    pose proof (EEPROM_read_range (EEPROM w2) (10 + 1)).
    pose proof (EEPROM_read_range (EEPROM w2) (10 + 1 + 1)).
    pose proof (EEPROM_read_range (EEPROM w2) (10 + 1 + 1 + 1)).
    assert (Hk4 : k = 10 \/ k = 10 + 1 \/ k = 10 + 1 + 1 \/ k = 10 + 1 + 1 + 1) by lia.
    destruct Hk4 as [-> | [-> | [-> | ->]]].
    all: pose proof (fun a H1 H2 => Hsame a H1 H2) as Hs.
    all: try pose proof (Hs 10 ltac:(lia) ltac:(lia)).
    all: try pose proof (Hs (10 + 1) ltac:(lia) ltac:(lia)).
    all: try pose proof (Hs (10 + 1 + 1) ltac:(lia) ltac:(lia)).
    all: try pose proof (Hs (10 + 1 + 1 + 1) ltac:(lia) ltac:(lia)).
    all: lia.
Qed.

Lemma load_detects_one_corrupted_cell_witness :
  let s := mkSys (mkSettings [60; 300; 600; 1800] 1) (mkSettings [1; 5] 0)
                 (Led.mk 6 true LedBlink true 200 0)
                 (PowerTimer.mk 5 true 420 0 0) (Display.mk 0 0 0) 0 true in
  let w := mkWorld (fun k => Z.of_nat k) 0 [] [] (fun _ => 255) 0 in
  exists s1 w1 s',
    saveToEEPROM s w = Ret s1 w1
    /\ loadFromEEPROM s
         (set_EEPROM (fun a => if a =? 2 then EEPROM w1 2 + 1 else EEPROM w1 a) w1)
       = Ret (false, s')
           (set_EEPROM (fun a => if a =? 2 then EEPROM w1 2 + 1 else EEPROM w1 a) w1).
Proof.
  intros s w.
  eexists _, _. 
  assert (Hs : saveToEEPROM s w = Ret _ _) by apply saveToEEPROM_eq.
  match type of Hs with _ = Ret ?s1 ?w1 =>
    destruct (load_detects_one_corrupted_cell s s1 s w w1
                (set_EEPROM (fun a => if a =? 2 then EEPROM w1 2 + 1 else EEPROM w1 a) w1)
                2 Hs) as [s' H]
  end.
  - lia.
  - intros a Ha Hne. cbn [EEPROM set_EEPROM]. unfold EEPROM_read.
    destruct (Z.eqb_spec a 2); [contradiction | reflexivity].
  - closed.
  - exists s'. split; [exact Hs | exact H].
Defined.

(** ** The sketch: what every pass keeps *)

Lemma Ret_inj {A} (a a' : A) (w w' : World) :
  Ret a w = Ret a' w' -> a = a' /\ w = w'.
Proof. intros H. injection H. auto. Qed.

Lemma Forall_nth_in {T} (P : T -> Prop) l d n :
  Forall P l -> (n < length l)%nat -> P (nth n l d).
Proof.
  intros HF. revert n. induction HF as [| x l Hx HF IH]; intros n Hn;
    cbn [length] in Hn; [lia |].
  destruct n; cbn [nth]; [exact Hx | apply IH; lia].
Qed.

Lemma interval_seconds s :
  sketch_invariant s ->
  wrap_int (Settings.current 0 (intervals s) * 60) = 60
  \/ wrap_int (Settings.current 0 (intervals s) * 60) = 300.
Proof.
  intros (_ & _ & _ & Hd & Hi & _). unfold Settings.current. rewrite Hd.
  pose proof (eq_refl : ITEMS_OF_INTERVALS = 2) as H2.
  assert (E : index (intervals s) = 0 \/ index (intervals s) = 1) by lia.
  destruct E as [-> | ->]; [left | right]; reflexivity.
Qed.

Lemma pass_keeps_refl s w : pass_keeps s w s w.
Proof. unfold pass_keeps. auto. Qed.

Lemma pass_keeps_trans s w s1 w1 s2 w2 :
  pass_keeps s w s1 w1 -> pass_keeps s1 w1 s2 w2 -> pass_keeps s w s2 w2.
Proof.
  unfold pass_keeps. intros (A1 & B1 & C1 & D1 & E1) (A2 & B2 & C2 & D2 & E2).
  split; [auto |]. split; [congruence |]. split; [congruence |].
  split; [congruence |].
  intros Hne He. apply E2; [congruence | auto].
Qed.

Lemma energized_after_start (p : PowerTimer.t) g w :
  gpio w = (PowerTimer.pin p, if PowerTimer.logic p then HIGH else LOW) :: g ->
  PowerTimer.energized p w.
Proof.
  intros H. unfold PowerTimer.energized. rewrite H. cbn [pin_level].
  rewrite Z.eqb_refl. reflexivity.
Qed.

Lemma next_preset_keeps s w s' w' :
  next_preset s w = Ret s' w' -> pass_keeps s w s' w'.
Proof.
  unfold next_preset, bind, ret. rewrite start_eq.
  unfold Display.printTimeScreen, bind, ret, millis, sendBuffer.
  intros H. apply Ret_inj in H. destruct H as [<- <-].
  unfold pass_keeps.
  cbn [presetTimes intervals led1 pt set_pt set_display set_presetTimes
       set_button_ready PowerTimer.freeze PowerTimer.pin PowerTimer.logic
       PowerTimer.time].
  split.
  - intros (Hlen & Hi & HF & Hd & Hii & Ht). unfold sketch_invariant.
    sys_simpl.
    pose proof (next_keeps_store Z ITEMS_OF_PRESETTIMES (presetTimes s)
                  true ltac:(unfold ITEMS_OF_PRESETTIMES, INT_MAX; lia) Hi)
      as (Hi' & Hd').
    rewrite Hd'. repeat split; try assumption; try lia.
    + unfold Settings.current. rewrite Hd'.
      apply (Forall_nth_in _ _ 0 _ HF).
      pose proof (eq_refl : ITEMS_OF_PRESETTIMES = 4). lia.
    + unfold Settings.current. rewrite Hd'.
      apply (Forall_nth_in _ _ 0 _ HF).
      pose proof (eq_refl : ITEMS_OF_PRESETTIMES = 4). lia.
  - repeat split; try reflexivity. intros _ _.
    eapply energized_after_start; reflexivity.
Qed.

Lemma time_plus_keeps s w s' w' :
  sketch_invariant s ->
  time_plus s w = Ret s' w' -> pass_keeps s w s' w'.
Proof.
  intros Hinv. pose proof Hinv as (Hlen & Hi & HF & Hd & Hii & Ht).
  unfold time_plus.
  set (i := wrap_int (Settings.current 0 (intervals s) * 60)).
  assert (Hi60 : i = 60 \/ i = 300) by (apply interval_seconds; exact Hinv).
  unfold PowerTimer.getTime.
  set (t := PowerTimer.time (pt s)) in *.
  assert (Hr : let r := (Z.quot t i + 1) * i in r mod i = 0 /\ t < r <= t + i)
    by (apply round_up_next_multiple; lia).
  cbv zeta in Hr.
  assert (Hq : 0 <= Z.quot t i <= t).
  { rewrite Z.quot_div_nonneg by lia. split; [apply Z.div_pos; lia |].
    apply Z.div_le_upper_bound; nia. }
  rewrite (wrap_int_id (Z.quot t i + 1)) by int_range.
  rewrite (wrap_int_id ((Z.quot t i + 1) * i)) by int_range.
  unfold bind, ret.
  destruct (Z.ltb_spec ((Z.quot t i + 1) * i) (90 * 60)) as [Hlt | Hge];
    [rewrite start_eq |];
    unfold Display.printTimeScreen, bind, ret, millis, sendBuffer;
    intros H; apply Ret_inj in H; destruct H as [<- <-]; unfold pass_keeps, sketch_invariant;
    cbn [presetTimes intervals led1 pt set_pt set_display PowerTimer.freeze
         PowerTimer.pin PowerTimer.logic PowerTimer.time].
  - repeat split; try assumption; try reflexivity; try lia.
    intros _ _. eapply energized_after_start; reflexivity.
  - repeat split; try assumption; try reflexivity; try lia.
    intros _ He. exact He.
Qed.

Lemma time_minus_keeps s w s' w' :
  sketch_invariant s ->
  time_minus s w = Ret s' w' -> pass_keeps s w s' w'.
Proof.
  intros Hinv. pose proof Hinv as (Hlen & Hi & HF & Hd & Hii & Ht).
  unfold time_minus.
  set (i := wrap_int (Settings.current 0 (intervals s) * 60)).
  assert (Hi60 : i = 60 \/ i = 300) by (apply interval_seconds; exact Hinv).
  unfold PowerTimer.getTime.
  set (t := PowerTimer.time (pt s)) in *.
  rewrite (wrap_int_id (t - 1)) by int_range.
  assert (Hr : -1 <= Z.quot (t - 1) i * i <= t).
  { destruct (Z_le_gt_dec t 0) as [H0 | H1].
    - replace t with 0 by lia. simpl (0 - 1).
      assert (E : Z.quot (-1) i = 0).
      { change (-1) with (- (1)). rewrite Z.quot_opp_l by lia.
        rewrite Z.quot_small by lia. reflexivity. }
      rewrite E. lia.
    - pose proof (round_down_previous_multiple t i ltac:(lia) ltac:(lia)) as [_ B].
      rewrite Z.quot_div_nonneg in * by lia.
      assert (0 <= (t - 1) / i) by (apply Z.div_pos; lia). nia. }
  rewrite (wrap_int_id (Z.quot (t - 1) i * i)) by int_range.
  unfold bind, ret.
  destruct (Z.gtb_spec (Z.quot (t - 1) i * i) 0) as [Hgt | Hle];
    [rewrite start_eq |];
    unfold Display.printTimeScreen, bind, ret, millis, sendBuffer;
    intros H; apply Ret_inj in H; destruct H as [<- <-]; unfold pass_keeps, sketch_invariant;
    cbn [presetTimes intervals led1 pt set_pt set_display PowerTimer.freeze
         PowerTimer.pin PowerTimer.logic PowerTimer.time].
  - repeat split; try assumption; try reflexivity; try lia.
    intros _ _. eapply energized_after_start; reflexivity.
  - repeat split; try assumption; try reflexivity; try lia.
    intros _ He. exact He.
Qed.

Lemma change_interval_keeps s w s' w' :
  change_interval s w = Ret s' w' -> pass_keeps s w s' w'.
Proof.
  unfold change_interval, bind, ret, Display.freeze, Display.printInterval,
    bind, ret, millis, sendBuffer.
  intros H. apply Ret_inj in H. destruct H as [<- <-]. unfold pass_keeps, sketch_invariant.
  cbn [presetTimes intervals led1 pt set_pt set_display set_intervals
       PowerTimer.freeze PowerTimer.pin PowerTimer.logic PowerTimer.time].
  split.
  - intros (Hlen & Hi & HF & Hd & Hii & Ht).
    pose proof (next_keeps_store Z ITEMS_OF_INTERVALS (intervals s)
                  true ltac:(unfold ITEMS_OF_INTERVALS, INT_MAX; lia) Hii)
      as (Hi' & Hd').
    rewrite Hd'. repeat split; try assumption; lia.
  - repeat split; try reflexivity. intros _ He. exact He.
Qed.

Lemma save_settings_keeps s w s' w' :
  save_settings s w = Ret s' w' -> pass_keeps s w s' w'.
Proof.
  unfold save_settings, bind. rewrite saveToEEPROM_eq.
  unfold Display.printText, bind, ret, sendBuffer.
  intros H. apply Ret_inj in H. destruct H as [<- <-]. unfold pass_keeps, sketch_invariant.
  cbn [presetTimes intervals led1 pt display set_pt set_display set_presetTimes
       PowerTimer.freeze PowerTimer.pin PowerTimer.logic PowerTimer.time
       Settings.setCurrent data index].
  split.
  - intros (Hlen & Hi & HF & Hd & Hii & Ht).
    rewrite list_set_length.
    repeat split; try assumption; try lia.
    apply list_set_Forall; assumption.
  - repeat split; try reflexivity. intros _ He. exact He.
Qed.

(** The dispatch chain, when it returns. *)
Lemma dispatch_keeps b s w s' w' :
  sketch_invariant s ->
  dispatch b s w = Ret s' w' -> pass_keeps s w s' w'.
Proof.
  intros Hinv. unfold dispatch.
  destruct (on_onClick b); [apply next_preset_keeps |].
  destruct (on_onLong b && button_ready s).
  { destruct (relay_off_never_returns s w) as [v E]. rewrite E. discriminate. }
  destruct (plus_onPress b); [apply time_plus_keeps; exact Hinv |].
  destruct (minus_onPress b); [apply time_minus_keeps; exact Hinv |].
  destruct (mode_onClick b && negb (on_pressed_mode b));
    [apply change_interval_keeps |].
  destruct (mode_onLong b); [apply save_settings_keeps |].
  intros H. apply Ret_inj in H. destruct H as [<- <-]. apply pass_keeps_refl.
Qed.

Lemma led_update_effect l w :
  exists l' w',
    Led.update l w = Ret l' w'
    /\ Led.pin l' = Led.pin l
    /\ (forall q, q <> Led.pin l -> pin_level q (gpio w') = pin_level q (gpio w))
    /\ oled w' = oled w /\ EEPROM w' = EEPROM w /\ clock w' = clock w.
Proof.
  unfold Led.update.
  destruct (Led.state l); try solve [exists l, w; repeat split; auto].
  unfold bind, millis, ret.
  destruct (_ >? _).
  2: { exists l, (set_reads (S (reads w)) w). repeat split; auto. }
  cbn [Led.isShining].
  destruct (Led.isShining l);
    unfold Led.on, Led.off, Led.set_state, bind, digitalWrite, ret;
    eexists _, _; (split; [reflexivity |]);
    cbn [Led.pin gpio oled EEPROM clock set_gpio set_reads pin_level];
    (split; [reflexivity |]); (split; [| repeat split; reflexivity]);
    intros q Hq; destruct (Z.eqb_spec (Led.pin l) q); congruence.
Qed.

Lemma display_update_effect cb d w :
  exists d' w',
    Display.update cb d w = Ret d' w'
    /\ gpio w' = gpio w /\ EEPROM w' = EEPROM w.
Proof.
  destruct (update_cases cb d w) as [E | [E | [[f E] | [f E]]]]; rewrite E;
    eexists _, _; split; try reflexivity; split; reflexivity.
Qed.

Lemma arm_latch_keeps b s w : pass_keeps s w (arm_latch b s) w.
Proof.
  unfold arm_latch.
  destruct (negb (on_pressed b) && negb (button_ready s));
    [| apply pass_keeps_refl].
  unfold pass_keeps, sketch_invariant. sys_simpl. auto.
Qed.

Lemma dispatch_power_off b s w w' :
  dispatch b s w = PowerOff w' -> PowerTimer.de_energized (pt s) w'.
Proof.
  unfold dispatch.
  destruct (on_onClick b).
  { destruct (next_preset_ret s w) as (? & ? & E & _). rewrite E. discriminate. }
  destruct (on_onLong b && button_ready s).
  { unfold relay_off, bind, Display.printText, Display.freeze, bind, ret,
      sendBuffer, millis, PowerTimer.off.
    intros H. injection H as <-. apply off_pass_de_energized. }
  destruct (plus_onPress b).
  { destruct (time_plus_ret s w) as (? & ? & E & _). rewrite E. discriminate. }
  destruct (minus_onPress b).
  { destruct (time_minus_ret s w) as (? & ? & E & _). rewrite E. discriminate. }
  destruct (mode_onClick b && negb (on_pressed_mode b)).
  { destruct (change_interval_ret s w) as (? & ? & E & _). rewrite E. discriminate. }
  destruct (mode_onLong b).
  { destruct (save_settings_ret s w) as (? & ? & E & _). rewrite E. discriminate. }
  discriminate.
Qed.

(** One pass of [loop()] from a state with the invariant. *)
Lemma loop_pass_keeps (b : Buttons) (s : Sys) (w : World) :
  sketch_invariant s ->
  match loop b s w with
  | Ret s' w' => pass_keeps s w s' w' /\ sketch_invariant s'
  | PowerOff w' => PowerTimer.de_energized (pt s) w'
  | Spin _ | Undefined _ => False
  end.
Proof.
  intros Hinv. unfold loop, bind.
  pose proof (arm_latch_keeps b s w) as Ka.
  assert (Hinv0 : sketch_invariant (arm_latch b s)) by (apply Ka; exact Hinv).
  destruct (dispatch_cases b (arm_latch b s) w)
    as [(s1 & w1 & Hd & _) | (w1 & Hd & _)]; rewrite Hd.
  2: { apply dispatch_power_off in Hd. destruct Ka as (_ & Hp & Hl & _).
       unfold PowerTimer.de_energized in *. rewrite <- Hp, <- Hl. exact Hd. }
  pose proof (dispatch_keeps _ _ _ _ _ Hinv0 Hd) as Kd.
  pose proof (pass_keeps_trans _ _ _ _ _ _ Ka Kd) as K1.
  destruct K1 as (Kinv & Kp & Kl & Kled & Ken).
  pose proof (Kinv Hinv) as Hinv1.
  destruct (led_update_effect (led1 s1) w1) as (l & w2 & El & Hlp & Hlg & _).
  rewrite El. sys_simpl.
  pose proof Hinv1 as (Hlen & Hi & HF & Hdi & Hii & Ht).
  destruct (update_step (pt s1) w2 ltac:(int_range))
    as [(H0 & Ep) | (p & w3 & Ep & H0 & Hp & Hl & Ht1 & Hg & _)]; rewrite Ep.
  { pose proof (off_pass_de_energized (pt s1) w2) as Hoff.
    unfold PowerTimer.de_energized in *. rewrite <- Kp, <- Kl. exact Hoff. }
  destruct (display_update_effect
              (callbacks (set_pt p (set_led1 l s1))) (display s1) w3)
    as (d & w4 & Ed & Hg4 & _).
  rewrite Ed. unfold feedWatchdog, ret.
  assert (Hinv' : sketch_invariant (set_display d (set_pt p (set_led1 l s1)))).
  { unfold sketch_invariant. sys_simpl. repeat split; try assumption; lia. }
  split; [| exact Hinv'].
  unfold pass_keeps. sys_simpl.
  split; [intros _; exact Hinv' |].
  split; [congruence |]. split; [congruence |]. split; [congruence |].
  intros Hne He. specialize (Ken Hne He).
  unfold PowerTimer.energized in *. cbn [gpio set_wdr].
  rewrite Hp, Hl, Hg4, Hg, Hlg; [exact Ken | congruence].
Qed.

(** X12.  Any number of passes of [loop()], whatever the buttons
    answer, from a state in which the sketch invariant holds (arrays in
    place, indices valid, intervals 1 and 5 minutes, presets and
    remaining time in [0, 90 min)): the run either returns with
    the invariant, the wiring and (LED on another pin) the energized
    relay kept, or has powered off with the relay driven to its OFF
    level; it never spins.  So the relay, once energized, is only ever
    released by entering [off()]. *)
Theorem run_keeps_invariant (bs : list Buttons) : forall (s : Sys) (w : World),
  sketch_invariant s ->
  match run bs s w with
  | Ret s' w' => pass_keeps s w s' w' /\ sketch_invariant s'
  | PowerOff w' => PowerTimer.de_energized (pt s) w'
  | Spin _ | Undefined _ => False
  end.
Proof.
  induction bs as [| b bs IH]; intros s w Hinv.
  - cbn. split; [apply pass_keeps_refl | exact Hinv].
  - cbn [run]. unfold bind.
    pose proof (loop_pass_keeps b s w Hinv) as H1.
    destruct (loop b s w) as [s1 w1 | w1 | w1 | w1];
      [| exact H1 | exact H1 | exact H1].
    destruct H1 as (K1 & Hinv1).
    specialize (IH s1 w1 Hinv1).
    destruct (run bs s1 w1) as [s2 w2 | w2 | w2 | w2];
      [| | exact IH | exact IH].
    + destruct IH as (K2 & Hinv2).
      split; [eapply pass_keeps_trans; eassumption | exact Hinv2].
    + destruct K1 as (_ & Hp & Hl & _).
      unfold PowerTimer.de_energized in *. rewrite <- Hp, <- Hl. exact IH.
Qed.

Lemma run_keeps_invariant_witness :
  let click := mkButtons false true false false false false false false in
  let idle := mkButtons false false false false false false false false in
  let s := mkSys (mkSettings [60; 300; 600; 1800] 0) (mkSettings [1; 5] 0)
                 (Led.mk 6 true LedBlink true 200 0)
                 (PowerTimer.mk 5 true 42 0 0) (Display.mk 0 0 0) 0 true in
  let w := mkWorld (fun k => 10 * Z.of_nat k) 0 [(5, true)] [] (fun _ => 255) 0 in
  sketch_invariant s
  /\ match run [click; idle; click] s w with
     | Ret s' w' => sketch_invariant s' /\ PowerTimer.energized (pt s') w'
     | _ => False
     end.
Proof.
  intros click idle s w.
  assert (Hinv : sketch_invariant s).
  { unfold sketch_invariant, s. cbn. repeat split; try lia.
    repeat constructor; lia. }
  split; [exact Hinv |].
  pose proof (run_keeps_invariant [click; idle; click] s w Hinv) as H.
  assert (E : exists s' w', run [click; idle; click] s w = Ret s' w').
  { eexists _, _. vm_compute. reflexivity. }
  destruct E as (s' & w' & E). rewrite E in *.
  destruct H as ((_ & _ & _ & _ & Hen) & Hinv').
  split; [exact Hinv' |]. apply Hen; [unfold s; cbn; lia | reflexivity].
Defined.

(** ** Saving, and starting up again *)

(** A load on the cells a save has written: the helper shared by the
    properties of this section. *)
Lemma load_after_save s w s2 w2 :
  length (data (presetTimes s)) = 4%nat ->
  Forall in_int (data (presetTimes s)) ->
  0 <= index (presetTimes s) < ITEMS_OF_PRESETTIMES ->
  in_int (PowerTimer.getTime (pt s)) ->
  (forall a, 0 <= a < 14 ->
     EEPROM w2 a
     = (let e1 := write_bytes 0
                    (settings_bytes
                       (Settings.setCurrent (PowerTimer.getTime (pt s))
                          (presetTimes s)))
                    (EEPROM w) in
        write_bytes 10
          (ulong_bytes (crc_loop e1 10 0 (wrap_ulong (Z.lnot 0)))) e1) a) ->
  loadFromEEPROM s2 w2
  = Ret (true,
         set_presetTimes
           (Settings.setCurrent (PowerTimer.getTime (pt s)) (presetTimes s)) s2)
        w2.
Proof.
  intros Hlen Hd Hi Ht Hsame. cbv zeta in Hsame.
  set (ps := Settings.setCurrent (PowerTimer.getTime (pt s)) (presetTimes s)) in *.
  assert (Hlen' : length (data ps) = 4%nat).
  { subst ps. cbn [Settings.setCurrent data]. rewrite list_set_length. exact Hlen. }
  assert (Hd' : Forall in_int (data ps)).
  { subst ps. cbn [Settings.setCurrent data]. apply list_set_Forall; assumption. }
  assert (Hi' : in_int (index ps)).
  { subst ps. cbn [Settings.setCurrent index].
    pose proof (eq_refl : ITEMS_OF_PRESETTIMES = 4). int_range. }
  set (init := wrap_ulong (Z.lnot 0)) in *.
  set (e1 := write_bytes 0 (settings_bytes ps) (EEPROM w)) in *.
  set (c := crc_loop e1 10 0 init) in *.
  set (e2 := write_bytes 10 (ulong_bytes c) e1) in *.
  assert (Hc : 0 <= c < 4294967296).
  { subst c. apply crc_loop_range. subst init. apply wrap_ulong_range. }
  rewrite loadFromEEPROM_eq. fold init.
  assert (Himg : read_bytes (EEPROM w2) 0 10 = map wrap_u8 (settings_bytes ps)).
  { rewrite (read_bytes_ext _ e1).
    - subst e1. rewrite <- (settings_bytes_length ps Hlen').
      apply read_bytes_written.
    - intros x Hx. rewrite Hsame by lia. subst e2.
      apply write_bytes_outside. lia. }
  assert (Hcrc : read_bytes (EEPROM w2) 10 4 = map wrap_u8 (ulong_bytes c)).
  { rewrite (read_bytes_ext _ e2).
    - subst e2. apply (read_bytes_written (ulong_bytes c)).
    - intros x Hx. apply Hsame. lia. }
  assert (Hsum : crc_loop (EEPROM w2) 10 0 init = c).
  { subst c. apply crc_loop_ext. intros x Hx.
    rewrite Hsame by lia. subst e2. apply write_bytes_outside. lia. }
  rewrite Himg, Hcrc, Hsum, ulong_bytes_roundtrip by exact Hc.
  rewrite settings_bytes_roundtrip by assumption.
  rewrite Z.eqb_refl. reflexivity.
Qed.

(** [setup()] when the load reports a match and reads the store [ps]. *)
Lemma setup_good_path (PIN_SUPPLY PIN_LED1 : Z) (fuel : nat) (w0 : World)
    (ps : SettingsArray Z ITEMS_OF_PRESETTIMES) :
  (forall s2 w2, EEPROM w2 = EEPROM w0 ->
     loadFromEEPROM s2 w2 = Ret (true, set_presetTimes ps s2) w2) ->
  exists s' w',
    (s0 <- boot PIN_SUPPLY PIN_LED1 ;; setup PIN_SUPPLY fuel s0) w0 = Ret s' w'
    /\ presetTimes s' = ps
    /\ data (intervals s') = [1; 5] /\ index (intervals s') = 0
    /\ PowerTimer.time (pt s') = Settings.current 0 ps
    /\ PowerTimer.freeze_time (pt s') = 5
    /\ PowerTimer.energized (pt s') w'
    /\ button_ready s' = false
    /\ oled w' = oled w0.
Proof.
  intros Hload.
  cbv beta iota zeta delta [boot setup bind ret Led.make PowerTimer.make
                            digitalWrite millis].
  rewrite Hload by reflexivity.
  cbv beta iota zeta delta [bind ret fst snd].
  change (delay_ds 1) with (feedWatchdog ;;; ret tt).
  cbv beta iota zeta delta [bind ret Led.blink Led.on Led.set_state millis
                            digitalWrite PowerTimer.start PowerTimer.freeze
                            feedWatchdog].
  sys_simpl.
  cbn [clock reads gpio oled EEPROM wdr set_gpio set_reads set_oled set_wdr
       Led.pin Led.onState Led.state Led.isShining Led.blinkInterval Led.timer].
  match goal with |- context [if ?c then _ else _] => destruct c end.
  all: eexists _, _; (split; [reflexivity |]).
  all: sys_simpl; cbn [data index oled gpio set_gpio set_reads set_oled set_wdr
                       Settings.set].
  all: split; [reflexivity |].
  all: split; [reflexivity |].
  all: split; [reflexivity |].
  all: split; [reflexivity |].
  all: split; [reflexivity |].
  all: split; [eapply energized_after_start; reflexivity |].
  all: split; reflexivity.
Qed.

(** X13.  Save, power off, start up: when the fourteen cells written by
    [saveToEEPROM()] are found as they were left (the store saved
    being four [int]s with a valid index), [setup()] returns without
    any wait and without sending a frame, the preset store is the one
    that was saved, the intervals are 1 and 5 minutes with the first
    selected, and the countdown starts, relay energized and frozen for
    5 s, at the remaining time that was saved. *)
Theorem setup_restores_saved (PIN_SUPPLY PIN_LED1 : Z) (fuel : nat)
    (s s1 : Sys) (w w1 w0 : World) :
  length (data (presetTimes s)) = 4%nat ->
  Forall in_int (data (presetTimes s)) ->
  0 <= index (presetTimes s) < ITEMS_OF_PRESETTIMES ->
  in_int (PowerTimer.getTime (pt s)) ->
  saveToEEPROM s w = Ret s1 w1 ->
  (forall a, 0 <= a < 14 -> EEPROM w0 a = EEPROM w1 a) ->
  exists s' w',
    (s0 <- boot PIN_SUPPLY PIN_LED1 ;; setup PIN_SUPPLY fuel s0) w0 = Ret s' w'
    /\ presetTimes s' = presetTimes s1
    /\ data (intervals s') = [1; 5] /\ index (intervals s') = 0
    /\ PowerTimer.time (pt s') = PowerTimer.getTime (pt s)
    /\ PowerTimer.freeze_time (pt s') = 5
    /\ PowerTimer.energized (pt s') w'
    /\ button_ready s' = false
    /\ oled w' = oled w0.
Proof.
  intros Hlen Hd Hi Ht Hsave Hsame.
  rewrite saveToEEPROM_eq in Hsave. apply Ret_inj in Hsave.
  destruct Hsave as [Hs1 Hw1].
  set (ps := Settings.setCurrent (PowerTimer.getTime (pt s)) (presetTimes s)) in *.
  destruct (setup_good_path PIN_SUPPLY PIN_LED1 fuel w0 ps)
    as (s' & w' & E & Hp & Hid & Hii & Htime & Hf & He & Hb & Ho).
  { intros s2 w2 Hw2. apply (load_after_save s w); try assumption.
    intros a Ha. rewrite Hw2, Hsame by exact Ha. rewrite <- Hw1. reflexivity. }
  exists s', w'. split; [exact E |].
  split; [rewrite Hp, <- Hs1; reflexivity |].
  repeat (split; [assumption |]).
  split; [| auto].
  rewrite Htime. subst ps. unfold Settings.current, Settings.setCurrent.
  cbn [data index]. apply nth_list_set_same.
  pose proof (eq_refl : ITEMS_OF_PRESETTIMES = 4). lia.
Qed.

Lemma setup_restores_saved_witness :
  let s := mkSys (mkSettings [60; 300; 600; 1800] 1) (mkSettings [1; 5] 1)
                 (Led.mk 6 true LedBlink true 200 0)
                 (PowerTimer.mk 5 true 420 0 0) (Display.mk 0 0 0) 0 true in
  let w := mkWorld (fun k => Z.of_nat k) 0 [] [] (fun _ => 255) 0 in
  exists s1 w1 s' w',
    saveToEEPROM s w = Ret s1 w1
    /\ (s0 <- boot 5 6 ;; setup 5 0 s0)
         (mkWorld (fun k => Z.of_nat k) 0 [] [] (EEPROM w1) 0) = Ret s' w'
    /\ data (presetTimes s') = [60; 420; 600; 1800]
    /\ PowerTimer.time (pt s') = 420.
Proof.
  intros s w.
  assert (Hs : saveToEEPROM s w = Ret _ _) by apply saveToEEPROM_eq.
  match type of Hs with _ = Ret ?s1 ?w1 =>
    destruct (setup_restores_saved 5 6 0 s s1 w w1
                (mkWorld (fun k => Z.of_nat k) 0 [] [] (EEPROM w1) 0))
      as (s' & w' & E & Hp & _ & _ & Htime & _);
      [reflexivity
      | repeat constructor; unfold in_int, INT_MIN, INT_MAX; lia
      | unfold ITEMS_OF_PRESETTIMES; simpl; lia
      | unfold in_int, INT_MIN, INT_MAX; simpl; lia
      | exact Hs
      | reflexivity
      | exists s1, w1, s', w' ]
  end.
  split; [exact Hs |]. split; [exact E |].
  split; [rewrite Hp; reflexivity | exact Htime].
Defined.

(** X14.  [saveToEEPROM()] on a preset store with a valid index (the
    write [data[index] = v] is unchecked, so the index has to be inside
    the array) writes the cells 0 to 13 and nothing else: every other
    cell, the pins, the display and the clock are left alone, and of the
    globals only the current slot of the preset store changes: it now
    holds the remaining time, the index and the other slots being as
    before. *)
Theorem save_writes_only_its_cells (s : Sys) (w : World) :
  length (data (presetTimes s)) = 4%nat ->
  0 <= index (presetTimes s) < ITEMS_OF_PRESETTIMES ->
  exists s1 w1,
    saveToEEPROM s w = Ret s1 w1
    /\ (forall a, a < 0 \/ 14 <= a -> EEPROM w1 a = EEPROM w a)
    /\ gpio w1 = gpio w /\ oled w1 = oled w /\ reads w1 = reads w
    /\ wdr w1 = wdr w
    /\ s1 = set_presetTimes
              (Settings.setCurrent (PowerTimer.getTime (pt s)) (presetTimes s)) s
    /\ index (presetTimes s1) = index (presetTimes s)
    /\ Settings.current 0 (presetTimes s1) = PowerTimer.getTime (pt s)
    /\ (forall j, 0 <= j -> j <> index (presetTimes s) ->
        Settings.get 0 j (presetTimes s1) = Settings.get 0 j (presetTimes s)).
Proof.
  intros Hlen Hi. rewrite saveToEEPROM_eq. eexists _, _.
  split; [reflexivity |].
  split.
  { intros a Ha. cbv zeta. cbn [EEPROM set_EEPROM].
    rewrite write_bytes_outside by (cbn [length ulong_bytes]; lia).
    apply write_bytes_outside.
    rewrite settings_bytes_length
      by (cbn [Settings.setCurrent data]; rewrite list_set_length; exact Hlen).
    lia. }
  do 5 (split; [reflexivity |]).
  cbn [presetTimes set_presetTimes].
  split; [reflexivity |].
  pose proof (eq_refl : ITEMS_OF_PRESETTIMES = 4) as H4.
  split.
  - unfold Settings.current, Settings.setCurrent. cbn [data index].
    apply nth_list_set_same. lia.
  - intros j Hj Hne. unfold Settings.get, Settings.setCurrent. cbn [data].
    apply nth_list_set_other. lia.
Qed.

Lemma save_writes_only_its_cells_witness :
  let s := mkSys (mkSettings [60; 300; 600; 1800] 1) (mkSettings [1; 5] 1)
                 (Led.mk 6 true LedBlink true 200 0)
                 (PowerTimer.mk 5 true 420 0 0) (Display.mk 0 0 0) 0 true in
  let w := mkWorld (fun k => Z.of_nat k) 0 [] [] (fun a => a) 0 in
  length (data (presetTimes s)) = 4%nat
  /\ 0 <= index (presetTimes s) < ITEMS_OF_PRESETTIMES
  /\ exists s1 w1,
       saveToEEPROM s w = Ret s1 w1 /\ EEPROM w1 14 = 14
       /\ Settings.current 0 (presetTimes s1) = 420.
Proof.
  intros s w. split; [reflexivity |].
  assert (Hi : 0 <= index (presetTimes s) < ITEMS_OF_PRESETTIMES) by closed.
  split; [exact Hi |].
  destruct (save_writes_only_its_cells s w eq_refl Hi)
    as (s1 & w1 & E & Hout & _ & _ & _ & _ & _ & _ & Hcur & _).
  exists s1, w1. split; [exact E |].
  split; [rewrite Hout by lia; reflexivity | exact Hcur].
Defined.

(** ** The branches of the dispatch chain *)

(** X15.  A click of the primary button on a state with the invariant:
    the selection moves to the next preset, wrapping from the fourth to
    the first, the countdown is restarted at that preset (relay
    energized, tick reference reset, freeze 5 s), the latch is cleared,
    and the time screen is sent with the new time and the glyph of the
    new preset ([0x2780] plus its index).  The preset values, the
    intervals and the EEPROM are not touched. *)
Theorem click_selects_next_preset (b : Buttons) (s : Sys) (w : World) :
  sketch_invariant s ->
  on_onClick b = true ->
  exists s' w',
    dispatch b s w = Ret s' w'
    /\ index (presetTimes s') = (index (presetTimes s) + 1) mod 4
    /\ data (presetTimes s') = data (presetTimes s)
    /\ PowerTimer.time (pt s') = Settings.current 0 (presetTimes s')
    /\ 0 <= PowerTimer.time (pt s') < 90 * 60
    /\ PowerTimer.freeze_time (pt s') = 5
    /\ PowerTimer.timer (pt s') = wrap_ulong (clock w (reads w))
    /\ PowerTimer.energized (pt s') w'
    /\ button_ready s' = false
    /\ intervals s' = intervals s
    /\ EEPROM w' = EEPROM w
    /\ oled w' = TimeScreen (Z.quot (PowerTimer.time (pt s')) 60)
                            (Z.rem (PowerTimer.time (pt s')) 60)
                            (0x2780 + index (presetTimes s'))
                 :: oled w.
Proof.
  intros (Hlen & Hi & HF & Hd & Hii & Ht) Hclick.
  pose proof (eq_refl : ITEMS_OF_PRESETTIMES = 4) as H4.
  unfold dispatch. rewrite Hclick.
  unfold next_preset, bind, ret. rewrite start_eq.
  unfold Display.printTimeScreen, bind, ret, millis, sendBuffer.
  eexists _, _. split; [reflexivity |].
  sys_simpl. cbn [oled gpio EEPROM set_oled set_reads set_gpio].
  rewrite (next_cyclic (presetTimes s))
    by (unfold INT_MAX; lia || assumption).
  cbn [snd data index]. unfold Settings.current, callbacks. sys_simpl.
  cbn [data index time_callback index_callback Settings.currentIndex
       PowerTimer.getTime PowerTimer.time].
  assert (Hm : 0 <= (index (presetTimes s) + 1) mod ITEMS_OF_PRESETTIMES
               < ITEMS_OF_PRESETTIMES)
    by (apply Z.mod_pos_bound; lia).
  split; [reflexivity |].
  split; [reflexivity |]. split; [reflexivity |].
  split; [apply (Forall_nth_in _ _ 0 _ HF); lia |].
  split; [reflexivity |]. split; [reflexivity |].
  split; [eapply energized_after_start; reflexivity |].
  split; [reflexivity |]. split; [reflexivity |]. split; [reflexivity |].
  f_equal. f_equal. unfold wrap_u16.
  rewrite (Z.mod_small (_ + 1)) by lia. rewrite Z.mod_small by lia. lia.
Qed.

Lemma click_selects_next_preset_witness :
  let b := mkButtons false true false false false false false false in
  let s := mkSys (mkSettings [60; 300; 600; 1800] 3) (mkSettings [1; 5] 0)
                 (Led.mk 6 true LedBlink true 200 0)
                 (PowerTimer.mk 5 true 42 0 0) (Display.mk 0 0 0) 0 true in
  let w := mkWorld (fun k => 10 * Z.of_nat k) 0 [] [] (fun _ => 255) 0 in
  sketch_invariant s
  /\ exists s' w',
       dispatch b s w = Ret s' w'
       /\ index (presetTimes s') = 0
       /\ 0 <= PowerTimer.time (pt s') < 90 * 60.
Proof.
  intros b s w.
  assert (Hinv : sketch_invariant s).
  { unfold sketch_invariant, s. cbn. repeat split; try lia.
    repeat constructor; lia. }
  split; [exact Hinv |].
  destruct (click_selects_next_preset b s w Hinv eq_refl)
    as (s' & w' & E & Hi & _ & _ & Ht & _).
  exists s', w'. split; [exact E |]. split; [rewrite Hi; reflexivity | exact Ht].
Defined.

(** X16.  A short click of MODE (no event of the primary, plus or minus
    button before it in the chain, primary button up) on a state with
    the invariant switches between the two intervals, 1 and 5 minutes,
    sends ["+N min"] of the new one and holds it for 2000 ms, sets the
    freeze to 5 s, and leaves the remaining time, the presets, the relay
    pin and the EEPROM alone. *)
Theorem mode_click_switches_interval (b : Buttons) (s : Sys) (w : World) :
  sketch_invariant s ->
  on_onClick b = false ->
  on_onLong b && button_ready s = false ->
  plus_onPress b = false ->
  minus_onPress b = false ->
  mode_onClick b = true ->
  on_pressed_mode b = false ->
  exists s' w',
    dispatch b s w = Ret s' w'
    /\ Settings.current 0 (intervals s') = 6 - Settings.current 0 (intervals s)
    /\ oled w' = IntervalScreen (Settings.current 0 (intervals s')) :: oled w
    /\ Display.tempTime (display s') = 2000
    /\ Display.timerT (display s') = wrap_ulong (clock w (reads w))
    /\ PowerTimer.time (pt s') = PowerTimer.time (pt s)
    /\ PowerTimer.freeze_time (pt s') = 5
    /\ presetTimes s' = presetTimes s
    /\ gpio w' = gpio w /\ EEPROM w' = EEPROM w.
Proof.
  intros (Hlen & Hi & HF & Hd & Hii & Ht) Hc Hl Hp Hm Hmc Hpm.
  pose proof (eq_refl : ITEMS_OF_INTERVALS = 2) as H2.
  unfold dispatch. rewrite Hc, Hl, Hp, Hm, Hmc, Hpm. cbn [negb andb].
  unfold change_interval, bind, ret, Display.freeze, Display.printInterval,
    bind, ret, millis, sendBuffer.
  eexists _, _. split; [reflexivity |].
  sys_simpl. cbn [oled gpio EEPROM set_oled set_reads Display.tempTime
                  Display.timerT].
  unfold callbacks. sys_simpl. cbn [interval_callback].
  rewrite (next_cyclic (intervals s)) by (unfold INT_MAX; lia || assumption).
  cbn [snd]. unfold Settings.current. cbn [data index]. rewrite Hd.
  assert (E : index (intervals s) = 0 \/ index (intervals s) = 1) by lia.
  split; [destruct E as [-> | ->]; reflexivity |].
  repeat split; reflexivity.
Qed.

Lemma mode_click_switches_interval_witness :
  let b := mkButtons false false false false false true false false in
  let s := mkSys (mkSettings [60; 300; 600; 1800] 3) (mkSettings [1; 5] 1)
                 (Led.mk 6 true LedBlink true 200 0)
                 (PowerTimer.mk 5 true 42 0 0) (Display.mk 0 0 0) 0 true in
  let w := mkWorld (fun k => 10 * Z.of_nat k) 0 [] [] (fun _ => 255) 0 in
  sketch_invariant s
  /\ exists s' w',
       dispatch b s w = Ret s' w'
       /\ Settings.current 0 (intervals s') = 1.
Proof.
  intros b s w.
  assert (Hinv : sketch_invariant s).
  { unfold sketch_invariant, s. cbn. repeat split; try lia.
    repeat constructor; lia. }
  split; [exact Hinv |].
  destruct (mode_click_switches_interval b s w Hinv)
    as (s' & w' & E & Hi & _); try reflexivity.
  exists s', w'. split; [exact E |]. rewrite Hi. reflexivity.
Defined.

(** ** Elapsed time across a wrap of the millisecond counter *)

Lemma elapsed_unwrapped now t0 :
  0 <= now - t0 < 4294967296 ->
  wrap_ulong (wrap_ulong now - wrap_ulong t0) = now - t0.
Proof. intros H. rewrite wrap_ulong_sub. apply wrap_ulong_id. exact H. Qed.

(** X17.  The three timers measure elapsed time modulo 2^32, so a wrap
    of [millis()] between the stamp and the reading does no harm: with
    the stamp taken at time [t0] and the reading at a time less than
    2^32 ms later, the countdown ticks exactly when 1000 ms or more
    have gone by, the display holds back exactly while fewer than 200
    ms have gone by, and the LED changes phase exactly when more than
    [blinkInterval] ms have gone by. *)
Theorem elapsed_time_survives_wraparound (t0 : Z) (w : World) :
  0 <= clock w (reads w) - t0 < 4294967296 ->
  (forall p,
     PowerTimer.timer p = wrap_ulong t0 ->
     0 < PowerTimer.time p <= INT_MAX ->
     PowerTimer.freeze_time p <= 0 ->
     (clock w (reads w) - t0 < 1000 ->
      PowerTimer.update p w = Ret p (set_reads (S (reads w)) w))
     /\ (1000 <= clock w (reads w) - t0 ->
         exists p' w',
           PowerTimer.update p w = Ret p' w'
           /\ PowerTimer.time p' = PowerTimer.time p - 1))
  /\ (forall cb d,
        Display.timer d = wrap_ulong t0 ->
        (clock w (reads w) - t0 < 200 ->
         Display.update cb d w = Ret d (set_reads (S (reads w)) w))
        /\ (200 <= clock w (reads w) - t0 ->
            Display.tempTime d = 0 ->
            exists d' w' f,
              Display.update cb d w = Ret d' w' /\ oled w' = f :: oled w))
  /\ (forall l,
        Led.timer l = wrap_ulong t0 ->
        Led.state l = LedBlink ->
        (clock w (reads w) - t0 <= Led.blinkInterval l ->
         Led.update l w = Ret l (set_reads (S (reads w)) w))
        /\ (Led.blinkInterval l < clock w (reads w) - t0 ->
            exists l' w',
              Led.update l w = Ret l' w'
              /\ Led.isShining l' = negb (Led.isShining l))).
Proof.
  intros He.
  split; [| split].
  - intros p Htm Ht Hf.
    pose proof (elapsed_unwrapped _ _ He) as E. rewrite <- Htm in E.
    split.
    + intros Hlt. unfold PowerTimer.update, bind, millis, ret.
      destruct (Z.leb_spec (PowerTimer.time p) 0); [lia |].
      rewrite E. destruct (Z.geb_spec (clock w (reads w) - t0) 1000); [lia |].
      reflexivity.
    + intros Hge. rewrite update_tick by (try assumption; rewrite E; exact Hge).
      eexists _, _. split; reflexivity.
  - intros cb d Htm.
    pose proof (elapsed_unwrapped _ _ He) as E. rewrite <- Htm in E.
    split.
    + intros Hlt. apply update_rate_limited. rewrite E.
      unfold DISPLAY_UPDATE_TIME. exact Hlt.
    + intros Hge Htemp. unfold Display.update, bind, millis. rewrite E.
      destruct (Z.ltb_spec (clock w (reads w) - t0) DISPLAY_UPDATE_TIME);
        [unfold DISPLAY_UPDATE_TIME in *; lia |].
      rewrite Htemp. cbn [Z.eqb]. rewrite printTimeScreen_eq.
      eexists _, _, _. split; reflexivity.
  - intros l Htm Hs.
    pose proof (elapsed_unwrapped _ _ He) as E. rewrite <- Htm in E.
    unfold Led.update. rewrite Hs. unfold bind, millis, ret. rewrite E.
    split.
    + intros Hle.
      destruct (Z.gtb_spec (clock w (reads w) - t0) (Led.blinkInterval l));
        [lia | reflexivity].
    + intros Hgt.
      destruct (Z.gtb_spec (clock w (reads w) - t0) (Led.blinkInterval l));
        [| lia].
      cbn [Led.isShining].
      destruct (Led.isShining l);
        unfold Led.on, Led.off, Led.set_state, bind, digitalWrite, ret;
        eexists _, _; split; reflexivity.
Qed.

Lemma elapsed_time_survives_wraparound_witness :
  let w := mkWorld (fun k => 4294967296 + 600 + Z.of_nat k) 0 [] [] (fun _ => 0) 0 in
  let p := PowerTimer.mk 5 true 60 4294966796 0 in
  0 <= clock w (reads w) - 4294966796 < 4294967296
  /\ exists p' w',
       PowerTimer.update p w = Ret p' w'
       /\ PowerTimer.time p' = 59.
Proof.
  intros w p.
  assert (He : 0 <= clock w (reads w) - 4294966796 < 4294967296)
    by (cbn; lia).
  split; [exact He |].
  destruct (elapsed_time_survives_wraparound 4294966796 w He) as (Hp & _).
  destruct (Hp p) as (_ & Htick);
    [reflexivity | cbn; unfold INT_MAX; lia | cbn; lia |].
  destruct Htick as (p' & w' & E & Ht); [cbn; lia |].
  exists p', w'. split; [exact E | exact Ht].
Defined.

(** ** What a pass writes to the store and to the screen *)

Lemma pt_update_frame p w :
  match PowerTimer.update p w with
  | Ret _ w' | PowerOff w' => EEPROM w' = EEPROM w
  | Spin _ | Undefined _ => False
  end.
Proof.
  unfold PowerTimer.update, PowerTimer.off, bind, millis, ret.
  destruct (_ <=? 0); [reflexivity |].
  destruct (_ >=? 1000); [| reflexivity].
  destruct (_ >? 0); reflexivity.
Qed.

Lemma dispatch_frame b s w :
  mode_onLong b = false ->
  match dispatch b s w with
  | Ret s' w' =>
      EEPROM w' = EEPROM w /\ data (presetTimes s') = data (presetTimes s)
  | PowerOff w' => EEPROM w' = EEPROM w
  | Spin _ | Undefined _ => False
  end.
Proof.
  intros Hm. unfold dispatch.
  destruct (on_onClick b).
  { unfold next_preset, bind, ret. rewrite start_eq.
    unfold Display.printTimeScreen, bind, ret, millis, sendBuffer.
    sys_simpl. split; [reflexivity |].
    unfold Settings.next. destruct (_ >=? _); reflexivity. }
  destruct (on_onLong b && button_ready s); [reflexivity |].
  destruct (plus_onPress b).
  { unfold time_plus, bind, ret. destruct (_ <? 90 * 60);
      [rewrite start_eq |];
      unfold Display.printTimeScreen, bind, ret, millis, sendBuffer;
      split; reflexivity. }
  destruct (minus_onPress b).
  { unfold time_minus, bind, ret. destruct (_ >? 0);
      [rewrite start_eq |];
      unfold Display.printTimeScreen, bind, ret, millis, sendBuffer;
      split; reflexivity. }
  destruct (mode_onClick b && negb (on_pressed_mode b)).
  { split; reflexivity. }
  rewrite Hm. split; reflexivity.
Qed.

(** X18.  Only the SAVE branch writes to the EEPROM or changes a stored
    preset value: a pass of [loop()] in which MODE reports no long
    press leaves every EEPROM cell and the values of the preset array
    as they were, whichever branch it takes and whether it returns or
    ends in [off()]. *)
Theorem only_save_writes_eeprom (b : Buttons) (s : Sys) (w : World) :
  mode_onLong b = false ->
  match loop b s w with
  | Ret s' w' =>
      EEPROM w' = EEPROM w /\ data (presetTimes s') = data (presetTimes s)
  | PowerOff w' => EEPROM w' = EEPROM w
  | Spin _ | Undefined _ => False
  end.
Proof.
  intros Hm. unfold loop, bind.
  pose proof (dispatch_frame b (arm_latch b s) w Hm) as Hd.
  destruct (dispatch b (arm_latch b s) w) as [s1 w1 | w1 | w1 | w1];
    [| exact Hd | exact Hd | exact Hd].
  destruct Hd as [He Hdata].
  assert (Ha : data (presetTimes (arm_latch b s)) = data (presetTimes s)).
  { unfold arm_latch. destruct (_ && _); reflexivity. }
  destruct (led_update_effect (led1 s1) w1) as (l & w2 & El & _ & _ & _ & He2 & _).
  rewrite El.
  pose proof (pt_update_frame (pt (set_led1 l s1)) w2) as Hp.
  destruct (PowerTimer.update (pt (set_led1 l s1)) w2) as [p w3 | w3 | w3 | w3];
    [| congruence | exact Hp | exact Hp].
  destruct (display_update_effect
              (callbacks (set_pt p (set_led1 l s1)))
              (display (set_pt p (set_led1 l s1))) w3)
    as (d & w4 & Ed & _ & He4).
  rewrite Ed. unfold feedWatchdog, ret. sys_simpl. cbn [EEPROM set_wdr].
  split; congruence.
Qed.

Lemma only_save_writes_eeprom_witness :
  let b := mkButtons false true false false false false false false in
  let s := mkSys (mkSettings [60; 300; 600; 1800] 0) (mkSettings [1; 5] 0)
                 (Led.mk 6 true LedBlink true 200 0)
                 (PowerTimer.mk 5 true 42 0 0) (Display.mk 0 0 0) 0 true in
  let w := mkWorld (fun k => 10 * Z.of_nat k) 0 [] [] (fun _ => 255) 0 in
  mode_onLong b = false
  /\ match loop b s w with
     | Ret s' w' =>
         EEPROM w' = EEPROM w /\ data (presetTimes s') = data (presetTimes s)
     | PowerOff w' => EEPROM w' = EEPROM w
     | Spin _ | Undefined _ => False
     end.
Proof.
  intros b s w. split; [reflexivity |].
  exact (only_save_writes_eeprom b s w eq_refl).
Defined.

Lemma save_settings_eq s w :
  exists e,
    save_settings s w
    = Ret (set_pt (PowerTimer.freeze 5 (pt s))
             (set_presetTimes
                (Settings.setCurrent (PowerTimer.getTime (pt s)) (presetTimes s))
                s))
          (set_oled (TextScreen "SAVED" :: oled w) (set_EEPROM e w)).
Proof.
  unfold save_settings, bind. rewrite saveToEEPROM_eq.
  unfold Display.printText, bind, ret, sendBuffer.
  eexists. destruct s. reflexivity.
Qed.

Lemma led_update_reads l w :
  exists l' w',
    Led.update l w = Ret l' w'
    /\ oled w' = oled w /\ clock w' = clock w
    /\ (reads w <= reads w' <= reads w + 2)%nat.
Proof.
  unfold Led.update.
  destruct (Led.state l); try solve [exists l, w; repeat split; auto; lia].
  unfold bind, millis, ret.
  destruct (_ >? _).
  2: { exists l, (set_reads (S (reads w)) w). cbn. repeat split; auto; lia. }
  cbn [Led.isShining].
  destruct (Led.isShining l);
    unfold Led.on, Led.off, Led.set_state, bind, digitalWrite, ret;
    eexists _, _; (split; [reflexivity |]);
    cbn [oled clock reads set_gpio set_reads]; repeat split; lia.
Qed.

Lemma pt_update_reads p w :
  0 < PowerTimer.time p ->
  exists p' w',
    PowerTimer.update p w = Ret p' w'
    /\ oled w' = oled w /\ clock w' = clock w
    /\ (reads w <= reads w' <= reads w + 2)%nat.
Proof.
  intros Ht. unfold PowerTimer.update.
  destruct (Z.leb_spec (PowerTimer.time p) 0) as [H0 | _]; [lia |].
  unfold bind, millis, ret.
  destruct (_ >=? 1000);
    [destruct (_ >? 0) |];
    eexists _, _; (split; [reflexivity |]);
    cbn [oled clock reads set_reads]; repeat split; lia.
Qed.

(** X19.  The SAVE branch prints "SAVED" but sets no display freeze, so
    [display.update()] of the same pass paints over it: if no message
    is pending ([tempTime] is 0) and, at the readings of [millis()]
    this pass can make, the time screen was last painted 200 ms ago or
    more, the pass that saves leaves the time screen on top of the
    "SAVED" frame. *)
Theorem saved_message_is_overpainted (b : Buttons) (s : Sys) (w : World) :
  on_onClick b = false -> on_onLong b = false ->
  plus_onPress b = false -> minus_onPress b = false ->
  mode_onClick b = false -> mode_onLong b = true ->
  0 < PowerTimer.time (pt s) ->
  Display.tempTime (display s) = 0 ->
  (forall k, (reads w <= k <= reads w + 4)%nat ->
             DISPLAY_UPDATE_TIME
             <= wrap_ulong (wrap_ulong (clock w k)
                            - Display.timer (display s))) ->
  exists s' w' m sec g,
    loop b s w = Ret s' w'
    /\ oled w' = TimeScreen m sec g :: TextScreen "SAVED" :: oled w.
Proof.
  intros H1 H2 H3 H4 H5 H6 Ht Htemp Hold.
  unfold loop. unfold bind at 1. unfold dispatch.
  rewrite H1, H2, H3, H4, H5, H6. cbn [andb].
  destruct (save_settings_eq (arm_latch b s) w) as [e Es]. rewrite Es.
  assert (Hpt : pt (arm_latch b s) = pt s)
    by (unfold arm_latch; destruct (_ && _); reflexivity).
  assert (Hdi : display (arm_latch b s) = display s)
    by (unfold arm_latch; destruct (_ && _); reflexivity).
  assert (Hle : led1 (arm_latch b s) = led1 s)
    by (unfold arm_latch; destruct (_ && _); reflexivity).
  unfold bind at 1. sys_simpl. rewrite Hle.
  match goal with |- context [Led.update (led1 s) ?w0] =>
    destruct (led_update_reads (led1 s) w0) as (l & w2 & El & Ho2 & Hc2 & Hr2)
  end.
  rewrite El. unfold bind at 1. sys_simpl. rewrite Hpt.
  destruct (pt_update_reads (PowerTimer.freeze 5 (pt s)) w2 Ht)
    as (p & w3 & Ep & Ho3 & Hc3 & Hr3).
  rewrite Ep. unfold bind at 1. sys_simpl. rewrite Hdi.
  unfold Display.update. unfold bind at 1. unfold millis at 1.
  cbn [reads clock oled set_oled set_EEPROM] in Hr2, Hc2, Ho2.
  destruct (Z.ltb_spec (wrap_ulong (wrap_ulong (clock w3 (reads w3))
                                     - Display.timer (display s)))
              DISPLAY_UPDATE_TIME) as [Hlt | _].
  { specialize (Hold (reads w3) ltac:(lia)). rewrite Hc3, Hc2 in Hlt. lia. }
  rewrite Htemp. cbn [Z.eqb]. rewrite printTimeScreen_eq.
  unfold bind, feedWatchdog, ret.
  eexists _, _, _, _, _. split; [reflexivity |].
  cbn [oled set_oled set_reads set_wdr]. rewrite Ho3, Ho2. reflexivity.
Qed.

Lemma saved_message_is_overpainted_witness :
  let b := mkButtons false false false false false false false true in
  let s := mkSys (mkSettings [60; 300; 600; 1800] 0) (mkSettings [1; 5] 0)
                 (Led.mk 6 true LedBlink true 200 0)
                 (PowerTimer.mk 5 true 42 0 0) (Display.mk 0 0 0) 0 true in
  let w := mkWorld (fun k => 1000 + Z.of_nat k) 0 [] [] (fun _ => 255) 0 in
  (forall k, (reads w <= k <= reads w + 4)%nat ->
             DISPLAY_UPDATE_TIME
             <= wrap_ulong (wrap_ulong (clock w k)
                            - Display.timer (display s)))
  /\ exists s' w' m sec g,
       loop b s w = Ret s' w'
       /\ oled w' = TimeScreen m sec g :: TextScreen "SAVED" :: oled w.
Proof.
  intros b s w.
  assert (Hold : forall k, (reads w <= k <= reads w + 4)%nat ->
                           DISPLAY_UPDATE_TIME
                           <= wrap_ulong (wrap_ulong (clock w k)
                            - Display.timer (display s))).
  { intros k Hk. cbn [clock reads w display s Display.timer] in *.
    rewrite !wrap_ulong_id by (rewrite ?wrap_ulong_id; lia).
    unfold DISPLAY_UPDATE_TIME. lia. }
  split; [exact Hold |].
  apply (saved_message_is_overpainted b s w); try reflexivity; exact Hold.
Defined.
